(** * System-Log-Validator: rule engine and validator

    A shallow embedding of [python-validator/src/models.py],
    [python-validator/src/rule_engine.py],
    [python-validator/src/validator.py] and of the entry parser of
    [python-validator/src/parser.py], followed by the properties of the
    rule evaluator, of the aggregating validator and of its report.

    Python values decoded from JSON are an inductive type; exceptions are an
    error monad; the mutable containers of the validator (its dictionaries,
    its violation list and the [RobotSummary] instances) live in an explicit
    store addressed by references, so that two holders of one container see
    each other's updates. *)

From Stdlib Require Import ZArith String Ascii List Bool Lia.
From Stdlib Require Import Floats.SpecFloat.
From stdpp Require Import base option list gmap strings pretty.

Set Default Proof Using "Type".
#[local] Set Warnings "-register-all".
#[local] Open Scope string_scope.
#[local] Open Scope list_scope.

(* ===================================================================== *)
(** * Python values, exceptions and built-ins *)
(* ===================================================================== *)

Module Py.

(** What [json.load] produces: [None], [bool], [int], [float], [str],
    [list] and [dict] with string keys.  A [dict] is kept as the list of its
    items; [dict_get] reads the first item with the key. *)
Inductive PyVal :=
| VNone
| VBool (b : bool)
| VInt (n : Z)
| VFloat (f : spec_float)
| VStr (s : string)
| VList (l : list PyVal)
| VDict (d : list (string * PyVal)).

Abbreviation PyDict := (list (string * PyVal)).

(** Instances of [Exception] raised along the evaluation of a rule. *)
Inductive PyExc :=
| ValueError (msg : string)
| KeyError (key : string)
| TypeError
| AttributeError
| OverflowError
| ReError (msg : string)
| OtherException (name : string).

(** A computation that returns or raises. *)
Inductive Res (A : Type) :=
| Ok (a : A)
| Raise (e : PyExc).
Arguments Ok {A} a.
Arguments Raise {A} e.

#[global] Instance res_ret : MRet Res := fun A a => Ok a.
#[global] Instance res_bind : MBind Res := fun A B k m =>
  match m with
  | Ok a => k a
  | Raise e => Raise e
  end.

(** [d.get(key)] on the items of a dict. *)
Fixpoint dict_get (d : PyDict) (key : string) : option PyVal :=
  match d with
  | [] => None
  | (k, v) :: rest => if String.eqb k key then Some v else dict_get rest key
  end.

(** [d[key]]: raises [KeyError] when the key is absent. *)
Definition getitem (d : PyDict) (key : string) : Res PyVal :=
  match dict_get d key with
  | Some v => Ok v
  | None => Raise (KeyError key)
  end.

Definition is_dict (v : PyVal) : bool :=
  match v with
  | VDict _ => true
  | _ => false
  end.

(** [s.split(sep)] for a one-character separator: the pieces between the
    separators, empty pieces included; never the empty list. *)
Fixpoint split (sep : ascii) (s : string) : list string :=
  match s with
  | EmptyString => [EmptyString]
  | String c s' =>
      if Ascii.eqb c sep then EmptyString :: split sep s'
      else match split sep s' with
           | [] => [String c EmptyString]
           | w :: ws => String c w :: ws
           end
  end.

(** [sep.join(parts)], the inverse of [split]. *)
Fixpoint join (sep : ascii) (parts : list string) : string :=
  match parts with
  | [] => EmptyString
  | [w] => w
  | w :: ws => w +:+ String sep (join sep ws)
  end.

(** The built-ins the source calls and whose code is not part of it:
    [str(x)] (also used by f-strings) and [bool(re.match(pattern, s))]. *)
Class Builtins := {
  py_str : PyVal -> string;
  re_match : string -> string -> Res bool
}.

(** ** Comparison of values *)

(** A number as Python compares it: exactly, whatever the mix of [bool],
    [int] and [float].  A finite number is [m * 2^e]. *)
Inductive Num :=
| Finite (m e : Z)
| Infinite (negative : bool)
| NotANumber.

Definition num_of_float (f : spec_float) : Num :=
  match f with
  | S754_zero _ => Finite 0 0
  | S754_infinity s => Infinite s
  | S754_nan => NotANumber
  | S754_finite s m e => Finite (if s then Z.neg m else Z.pos m) e
  end.

Definition as_num (v : PyVal) : option Num :=
  match v with
  | VBool b => Some (Finite (Z.b2z b) 0)
  | VInt n => Some (Finite n 0)
  | VFloat f => Some (num_of_float f)
  | _ => None
  end.

(** [None] when one side is NaN: every ordering test is then false. *)
Definition num_compare (x y : Num) : option comparison :=
  match x, y with
  | NotANumber, _ | _, NotANumber => None
  | Infinite s1, Infinite s2 =>
      Some (match s1, s2 with
            | true, false => Lt
            | false, true => Gt
            | _, _ => Eq
            end)
  | Infinite s, Finite _ _ => Some (if s then Lt else Gt)
  | Finite _ _, Infinite s => Some (if s then Gt else Lt)
  | Finite m1 e1, Finite m2 e2 =>
      let e := Z.min e1 e2 in
      Some (Z.compare (m1 * 2 ^ (e1 - e)) (m2 * 2 ^ (e2 - e)))
  end.

(** [a == b]. *)
Fixpoint py_eq (a b : PyVal) : bool :=
  match a, b with
  | VNone, VNone => true
  | VStr s, VStr t => String.eqb s t
  | VList l, VList m =>
      (fix all2 (l m : list PyVal) : bool :=
         match l, m with
         | [], [] => true
         | x :: l', y :: m' => py_eq x y && all2 l' m'
         | _, _ => false
         end) l m
  | VDict d, VDict d' =>
      (fix sub (items : PyDict) : bool :=
         match items with
         | [] => true
         | (k, x) :: rest =>
             match dict_get d' k with
             | Some y => py_eq x y
             | None => false
             end && sub rest
         end) d
      && forallb (fun kv => bool_decide (is_Some (dict_get d kv.1))) d'
  | _, _ =>
      match as_num a, as_num b with
      | Some x, Some y =>
          match num_compare x y with
          | Some Eq => true
          | _ => false
          end
      | _, _ => false
      end
  end.

(** [a < b], [a <= b], [a > b], [a >= b]: [test] reads the outcome of the
    three-way comparison.  Numbers compare with numbers, strings with
    strings, lists lexicographically; anything else is a [TypeError]. *)
Fixpoint py_order (test : comparison -> bool) (a b : PyVal) : Res bool :=
  match a, b with
  | VStr s, VStr t => Ok (test (String.compare s t))
  | VList l, VList m =>
      (fix lex (l m : list PyVal) : Res bool :=
         match l, m with
         | [], [] => Ok (test Eq)
         | [], _ :: _ => Ok (test Lt)
         | _ :: _, [] => Ok (test Gt)
         | x :: l', y :: m' =>
             if py_eq x y then lex l' m' else py_order test x y
         end) l m
  | _, _ =>
      match as_num a, as_num b with
      | Some x, Some y =>
          Ok (match num_compare x y with
              | Some c => test c
              | None => false
              end)
      | _, _ => Raise TypeError
      end
  end.

Definition is_ge (c : comparison) : bool := match c with Lt => false | _ => true end.
Definition is_gt (c : comparison) : bool := match c with Gt => true | _ => false end.
Definition is_le (c : comparison) : bool := match c with Gt => false | _ => true end.
Definition is_lt (c : comparison) : bool := match c with Lt => true | _ => false end.

(** [needle in haystack] on strings. *)
Fixpoint str_contains (needle haystack : string) : bool :=
  String.prefix needle haystack
  || match haystack with
     | EmptyString => false
     | String _ rest => str_contains needle rest
     end.

Definition str_endswith (s suffix : string) : bool :=
  String.prefix (String.rev suffix) (String.rev s).

End Py.
Export Py.

(* ===================================================================== *)
(** * models.py *)
(* ===================================================================== *)

Module Severity.
Inductive t := INFO | WARNING | ERROR | CRITICAL.

(** The string value of the enumeration member. *)
Definition value (s : t) : string :=
  match s with
  | INFO => "info"
  | WARNING => "warning"
  | ERROR => "error"
  | CRITICAL => "critical"
  end.

(** [Severity(value)]: the member with that value, if there is one. *)
Definition of_value (value : string) : option t :=
  if String.eqb value "info" then Some INFO
  else if String.eqb value "warning" then Some WARNING
  else if String.eqb value "error" then Some ERROR
  else if String.eqb value "critical" then Some CRITICAL
  else None.
End Severity.

Module ValidationStatus.
Inductive t := PASS | FAIL.

Definition eqb (a b : t) : bool :=
  match a, b with
  | PASS, PASS | FAIL, FAIL => true
  | _, _ => false
  end.
End ValidationStatus.

Module Rule.
(** The dataclass [Rule]; [then_] is its attribute [then]. *)
Record t := mk {
  id : string;
  name : string;
  field : string;
  operator : string;
  threshold : PyVal;
  severity : Severity.t;
  message : string;
  description : string;
  type : string;
  condition : option PyDict;
  then_ : option PyDict
}.

(** [data.get(key, default)] for an attribute annotated [str]; [None] when
    the dictionary holds a value of another type there. *)
Definition get_str (data : PyDict) (key default : string) : option string :=
  match dict_get data key with
  | None => Some default
  | Some (VStr s) => Some s
  | Some _ => None
  end.

(** [data.get(key)] for an attribute annotated [Optional[Dict]]. *)
Definition get_clause (data : PyDict) (key : string) : option (option PyDict) :=
  match dict_get data key with
  | None | Some VNone => Some None
  | Some (VDict d) => Some (Some d)
  | Some _ => None
  end.

(** [Rule.from_dict].  The severity is looked up first ([ValueError] when
    it is not the value of a member), then [data["id"]] ([KeyError] when
    absent).  No attribute is checked against its annotation by the source;
    a dictionary that holds a value of another type than the annotation
    has no counterpart in [t] and gives [None] here. *)
Definition from_dict (data : PyDict) : option (Res t) :=
  match (match dict_get data "severity" with
         | None => Some Severity.WARNING
         | Some (VStr s) => Severity.of_value s
         | Some _ => None
         end) with
  | None => Some (Raise (ValueError "not a valid Severity"))
  | Some severity =>
      match dict_get data "id" with
      | None => Some (Raise (KeyError "id"))
      | Some (VStr id) =>
          name ← get_str data "name" id;
          field ← get_str data "field" "";
          operator ← get_str data "operator" "";
          message ← get_str data "message" "";
          description ← get_str data "description" "";
          type ← get_str data "type" "simple";
          condition ← get_clause data "condition";
          then_ ← get_clause data "then";
          Some (Ok (mk id name field operator (default VNone (dict_get data "threshold"))
                      severity message description type condition then_))
      | Some _ => None
      end
  end.
End Rule.

Module LogEntry.
Record t := mk {
  timestamp : string;
  robot_id : string;
  raw_data : PyDict;
  index : Z
}.

(** [LogEntry.from_dict]: the timestamp and the robot id are read with
    their defaults, the payload is the dictionary itself.  As for a rule,
    a dictionary that holds there a value of another type than the
    annotation [str] has no counterpart in [t] and gives [None]. *)
Definition from_dict (data : PyDict) (index : Z) : option t :=
  timestamp ← Rule.get_str data "timestamp" "";
  robot_id ← Rule.get_str data "robot_id" "unknown";
  Some (mk timestamp robot_id data index).
End LogEntry.

Module Violation.
Record t := mk {
  rule_id : string;
  rule_name : string;
  severity : Severity.t;
  message : string;
  timestamp : string;
  robot_id : string;
  field : string;
  actual_value : PyVal;
  expected : string;
  log_index : Z
}.

(** [Violation.to_dict]: the ten items in the order of the source. *)
Definition to_dict (self : t) : PyDict :=
  [ ("rule_id", VStr (rule_id self));
    ("rule_name", VStr (rule_name self));
    ("severity", VStr (Severity.value (severity self)));
    ("message", VStr (message self));
    ("timestamp", VStr (timestamp self));
    ("robot_id", VStr (robot_id self));
    ("field", VStr (field self));
    ("actual_value", actual_value self);
    ("expected", VStr (expected self));
    ("log_index", VInt (log_index self)) ].
End Violation.

Module EntryResult.
Record t := mk {
  log_entry : LogEntry.t;
  status : ValidationStatus.t;
  violations : list Violation.t
}.

Definition passed (r : t) : bool :=
  ValidationStatus.eqb (status r) ValidationStatus.PASS.
End EntryResult.

Module RobotSummary.
(** One [RobotSummary] instance.  Its [violations] list is created with
    the instance and reached through it only, so it is kept inside. *)
Record t := mk {
  robot_id : string;
  total_entries : nat;
  violations_count : nat;
  status : ValidationStatus.t;
  violations : list Violation.t
}.

(** [RobotSummary(robot_id=robot_id)] with the dataclass defaults. *)
Definition new (robot_id : string) : t :=
  mk robot_id 0 0 ValidationStatus.PASS [].
End RobotSummary.

(* ===================================================================== *)
(** * The store of mutable objects *)
(* ===================================================================== *)

Module Store.

(** A reference to a mutable object. *)
Abbreviation loc := positive.

(** The mutable objects of a run: a dictionary of counters
    ([defaultdict(int)] or [dict]), the dictionary of robot summaries (its
    values are references to [RobotSummary] instances), a list of
    violations, and a [RobotSummary] instance.  Violations are never
    mutated after creation and are kept as values. *)
Inductive PyObj :=
| OCounts (d : gmap string nat)
| OSummaries (d : gmap string loc)
| OViolations (l : list Violation.t)
| OSummary (s : RobotSummary.t).

(** What the listeners are called with, in call order. *)
Inductive Event :=
| OnViolation (v : Violation.t)
| OnEntry (r : EntryResult.t).

Record World := mkWorld {
  heap : gmap loc PyObj;
  trace : list Event
}.

(** State passing over the world; [None] is an access to a reference that
    is dangling or holds an object of another class. *)
Definition M (A : Type) : Type := World -> option (A * World).

#[global] Instance M_ret : MRet M := fun A a w => Some (a, w).
#[global] Instance M_bind : MBind M := fun A B k m w =>
  match m w with
  | Some (a, w') => k a w'
  | None => None
  end.

Definition stuck {A} : M A := fun _ => None.

(** A new object gets a reference that is not in use. *)
Definition alloc (o : PyObj) : M loc := fun w =>
  let l := fresh (dom (heap w)) in
  Some (l, mkWorld (<[l := o]> (heap w)) (trace w)).

Definition load (l : loc) : M PyObj := fun w =>
  match heap w !! l with
  | Some o => Some (o, w)
  | None => None
  end.

Definition store (l : loc) (o : PyObj) : M unit := fun w =>
  Some (tt, mkWorld (<[l := o]> (heap w)) (trace w)).

Definition emit (ev : Event) : M unit := fun w =>
  Some (tt, mkWorld (heap w) (trace w ++ [ev])).

Definition load_counts (l : loc) : M (gmap string nat) :=
  o ← load l; match o with OCounts d => mret d | _ => stuck end.
Definition load_summaries (l : loc) : M (gmap string loc) :=
  o ← load l; match o with OSummaries d => mret d | _ => stuck end.
Definition load_violations (l : loc) : M (list Violation.t) :=
  o ← load l; match o with OViolations d => mret d | _ => stuck end.
Definition load_summary (l : loc) : M RobotSummary.t :=
  o ← load l; match o with OSummary s => mret s | _ => stuck end.

(** [d[key] += 1] on a [defaultdict(int)]. *)
Definition incr (key : string) (d : gmap string nat) : gmap string nat :=
  <[key := default 0 (d !! key) + 1]> d.

End Store.
Export Store.

Module ValidationReport.
(** The dataclass [ValidationReport]: numbers and strings are values,
    the four containers are references. *)
Record t := mk {
  total_entries : nat;
  total_passed : nat;
  total_violations : nat;
  pass_rate : spec_float;
  violations_by_rule : loc;
  violations_by_severity : loc;
  robot_summaries : loc;
  violations : loc;
  generated_at : string;
  rules_file : string;
  input_file : string
}.

(** The field values of a report as a reader finds them in a world. *)
Record Fields := mkFields {
  f_total_entries : nat;
  f_total_passed : nat;
  f_total_violations : nat;
  f_pass_rate : spec_float;
  f_violations_by_rule : gmap string nat;
  f_violations_by_severity : gmap string nat;
  f_robot_summaries : gmap string RobotSummary.t;
  f_violations : list Violation.t;
  f_generated_at : string;
  f_rules_file : string;
  f_input_file : string
}.

(** The same field values but for [generated_at]. *)
Definition with_generated_at (stamp : string) (f : Fields) : Fields :=
  mkFields (f_total_entries f) (f_total_passed f) (f_total_violations f)
    (f_pass_rate f) (f_violations_by_rule f) (f_violations_by_severity f)
    (f_robot_summaries f) (f_violations f) stamp (f_rules_file f) (f_input_file f).

Definition deref_summary (w : World) (l : loc) : option RobotSummary.t :=
  match heap w !! l with
  | Some (OSummary s) => Some s
  | _ => None
  end.

Definition read (w : World) (r : t) : option Fields :=
  match heap w !! violations_by_rule r, heap w !! violations_by_severity r,
        heap w !! robot_summaries r, heap w !! violations r with
  | Some (OCounts by_rule), Some (OCounts by_severity),
    Some (OSummaries summaries), Some (OViolations vs) =>
      Some (mkFields (total_entries r) (total_passed r) (total_violations r)
              (pass_rate r) by_rule by_severity
              (omap (deref_summary w) summaries) vs
              (generated_at r) (rules_file r) (input_file r))
  | _, _, _, _ => None
  end.
End ValidationReport.

(* ===================================================================== *)
(** * rule_engine.py *)
(* ===================================================================== *)

Module RuleEngine.

(** A registered operator: a callable on (actual, expected) that returns a
    [bool] or raises. *)
Abbreviation Operator := (PyVal -> PyVal -> Res bool).

Record t := mk {
  rules : list Rule.t;
  _operators : gmap string Operator
}.

Section WithBuiltins.
Context `{!Builtins}.

(** The lambdas of [_default_operators], in the order of the source. *)
Definition op_ge : Operator := fun a b =>
  match a with VNone => Ok false | _ => py_order is_ge a b end.
Definition op_gt : Operator := fun a b =>
  match a with VNone => Ok false | _ => py_order is_gt a b end.
Definition op_le : Operator := fun a b =>
  match a with VNone => Ok false | _ => py_order is_le a b end.
Definition op_lt : Operator := fun a b =>
  match a with VNone => Ok false | _ => py_order is_lt a b end.
Definition op_eq : Operator := fun a b => Ok (py_eq a b).
Definition op_ne : Operator := fun a b => Ok (negb (py_eq a b)).
Definition op_in : Operator := fun a b =>
  match b with
  | VList items => Ok (existsb (fun x => py_eq x a) items)
  | _ => Ok false
  end.
Definition op_not_in : Operator := fun a b =>
  match b with
  | VList items => Ok (negb (existsb (fun x => py_eq x a) items))
  | _ => Ok true
  end.
Definition op_regex : Operator := fun a b =>
  match a with
  | VNone => Ok false
  | _ => match b with
         | VStr pattern => re_match pattern (py_str a)
         | _ => Raise TypeError
         end
  end.
Definition op_exists : Operator := fun a b =>
  Ok (py_eq (VBool (match a with VNone => false | _ => true end)) b).
Definition op_contains : Operator := fun a b =>
  match a with
  | VNone => Ok false
  | _ => match b with
         | VStr needle => Ok (str_contains needle (py_str a))
         | _ => Raise TypeError
         end
  end.
Definition op_starts_with : Operator := fun a b =>
  match a with
  | VNone => Ok false
  | _ => match b with
         | VStr p => Ok (String.prefix p (py_str a))
         | _ => Raise TypeError
         end
  end.
Definition op_ends_with : Operator := fun a b =>
  match a with
  | VNone => Ok false
  | _ => match b with
         | VStr p => Ok (str_endswith (py_str a) p)
         | _ => Raise TypeError
         end
  end.

Definition _default_operators : gmap string Operator :=
  list_to_map
    [ (">=", op_ge); (">", op_gt); ("<=", op_le); ("<", op_lt);
      ("==", op_eq); ("!=", op_ne); ("in", op_in); ("not_in", op_not_in);
      ("regex", op_regex); ("exists", op_exists); ("contains", op_contains);
      ("starts_with", op_starts_with); ("ends_with", op_ends_with) ].

(** [RuleEngine()]. *)
Definition __init__ : t := mk [] _default_operators.

Definition register_operator (self : t) (name : string) (func : Operator) : t :=
  mk (rules self) (<[name := func]> (_operators self)).

(** What a [for] clause iterates over: the items of a list, the keys of a
    dict, the characters of a [str] (here one per byte: each is a [str],
    which is all the comprehension below depends on); any other decoded
    value is not iterable. *)
Definition iterate (v : PyVal) : Res (list PyVal) :=
  match v with
  | VList items => Ok items
  | VDict d => Ok (map (fun kv => VStr kv.1) d)
  | VStr s => Ok (map (fun c => VStr (String c EmptyString)) (list_ascii_of_string s))
  | _ => Raise TypeError
  end.

(** [Rule.from_dict(r)] on an element of the list: a value that is not a
    dict has no [get]. *)
Definition rule_of (r : PyVal) : option (Res Rule.t) :=
  match r with
  | VDict data => Rule.from_dict data
  | _ => Some (Raise AttributeError)
  end.

(** [[Rule.from_dict(r) for r in rules_data]]: the elements in order; the
    first exception ends the comprehension. *)
Fixpoint rules_of (rules_data : list PyVal) : option (Res (list Rule.t)) :=
  match rules_data with
  | [] => Some (Ok [])
  | r :: rest =>
      match rule_of r with
      | None => None
      | Some (Raise e) => Some (Raise e)
      | Some (Ok rule) =>
          match rules_of rest with
          | None => None
          | Some (Raise e) => Some (Raise e)
          | Some (Ok rules) => Some (Ok (rule :: rules))
          end
      end
  end.

(** [load_rules_from_dict]: [self.rules] is assigned once the whole list
    is built; when the comprehension raises, the engine is as before.
    [load_rules] does the same on the decoded content of its file. *)
Definition load_rules_from_dict (self : t) (data : PyDict) : option (Res t) :=
  match iterate (default (VList []) (dict_get data "rules")) with
  | Raise e => Some (Raise e)
  | Ok rules_data =>
      match rules_of rules_data with
      | None => None
      | Some (Raise e) => Some (Raise e)
      | Some (Ok rules) => Some (Ok (mk rules (_operators self)))
      end
  end.

(** The loop of [get_field_value] over the parts of the path. *)
Fixpoint walk (data : PyVal) (parts : list string) : PyVal :=
  match parts with
  | [] => data
  | part :: rest =>
      match data with
      | VDict d => walk (default VNone (dict_get d part)) rest
      | _ => VNone
      end
  end.

Definition get_field_value (entry : LogEntry.t) (field : string) : PyVal :=
  walk (VDict (LogEntry.raw_data entry)) (split "." field).

Definition evaluate_condition (self : t) (entry : LogEntry.t)
    (field operator : string) (value : PyVal) : Res bool :=
  let actual_value := get_field_value entry field in
  match _operators self !! operator with
  | None => Raise (ValueError ("Unknown operator: " +:+ operator))
  | Some func => func actual_value value
  end.

(** [evaluate_condition] as the conditional rule calls it, on what the
    clause dictionary holds: a field that is not a [str] has no [split]
    ([AttributeError]); an operator that is a list or a dict cannot be
    looked up ([TypeError]), any other non-[str] operator is not a key of
    the registry. *)
Definition evaluate_condition_dyn (self : t) (entry : LogEntry.t)
    (field operator value : PyVal) : Res bool :=
  match field with
  | VStr f =>
      match operator with
      | VStr o => evaluate_condition self entry f o value
      | VList _ | VDict _ => Raise TypeError
      | _ => Raise (ValueError ("Unknown operator: " +:+ py_str operator))
      end
  | _ => Raise AttributeError
  end.

(** The three subscripts of a clause, then the call. *)
Definition evaluate_clause (self : t) (entry : LogEntry.t) (clause : PyDict) : Res bool :=
  f ← getitem clause "field";
  o ← getitem clause "operator";
  v ← getitem clause "value";
  evaluate_condition_dyn self entry f o v.

Definition _evaluate_simple_rule (self : t) (rule : Rule.t) (entry : LogEntry.t)
    : Res (option Violation.t) :=
  passed ← evaluate_condition self entry (Rule.field rule) (Rule.operator rule)
             (Rule.threshold rule);
  if negb passed then
    let actual_value := get_field_value entry (Rule.field rule) in
    Ok (Some (Violation.mk
                (Rule.id rule) (Rule.name rule) (Rule.severity rule) (Rule.message rule)
                (LogEntry.timestamp entry) (LogEntry.robot_id entry)
                (Rule.field rule) actual_value
                (Rule.operator rule +:+ " " +:+ py_str (Rule.threshold rule))
                (LogEntry.index entry)))
  else Ok None.

(** Truth value of an [Optional[Dict]]: [None] and the empty dict are false. *)
Definition truthy (d : option PyDict) : bool :=
  match d with
  | Some (_ :: _) => true
  | _ => false
  end.

(** The violation a conditional rule reports on its [then] clause. *)
Definition conditional_violation (rule : Rule.t) (entry : LogEntry.t)
    (cond then_ : PyDict) : Res Violation.t :=
  tf ← getitem then_ "field";
  match tf with
  | VStr then_field =>
      let actual_value := get_field_value entry then_field in
      t_op ← getitem then_ "operator";
      t_val ← getitem then_ "value";
      c_field ← getitem cond "field";
      c_op ← getitem cond "operator";
      c_val ← getitem cond "value";
      Ok (Violation.mk
            (Rule.id rule) (Rule.name rule) (Rule.severity rule) (Rule.message rule)
            (LogEntry.timestamp entry) (LogEntry.robot_id entry)
            then_field actual_value
            (py_str t_op +:+ " " +:+ py_str t_val +:+ " (when " +:+ py_str c_field
               +:+ " " +:+ py_str c_op +:+ " " +:+ py_str c_val +:+ ")")
            (LogEntry.index entry))
  | _ => Raise AttributeError
  end.

Definition _evaluate_conditional_rule (self : t) (rule : Rule.t) (entry : LogEntry.t)
    : Res (option Violation.t) :=
  if negb (truthy (Rule.condition rule)) || negb (truthy (Rule.then_ rule)) then Ok None
  else
    match Rule.condition rule, Rule.then_ rule with
    | Some cond, Some then_ =>
        condition_met ← evaluate_clause self entry cond;
        if negb condition_met then Ok None
        else
          then_passed ← evaluate_clause self entry then_;
          if negb then_passed then
            v ← conditional_violation rule entry cond then_;
            Ok (Some v)
          else Ok None
    | _, _ => Ok None
    end.

(** The body of the [try] of [evaluate_rule]. *)
Definition dispatch (self : t) (rule : Rule.t) (entry : LogEntry.t)
    : Res (option Violation.t) :=
  if String.eqb (Rule.type rule) "conditional"
  then _evaluate_conditional_rule self rule entry
  else _evaluate_simple_rule self rule entry.

(** [except Exception: return None]. *)
Definition evaluate_rule (self : t) (rule : Rule.t) (entry : LogEntry.t)
    : option Violation.t :=
  match dispatch self rule entry with
  | Ok r => r
  | Raise _ => None
  end.

(** The loop of [validate_entry]: [violations] grows by [append]. *)
Definition validate_entry (self : t) (entry : LogEntry.t) : list Violation.t :=
  fold_left
    (fun violations rule =>
       match evaluate_rule self rule entry with
       | Some violation => violations ++ [violation]
       | None => violations
       end)
    (rules self) [].

End WithBuiltins.
End RuleEngine.

(* ===================================================================== *)
(** * validator.py *)
(* ===================================================================== *)

Module Validator.

(** binary64, the [float] of Python. *)
Definition prec : Z := 53.
Definition emax : Z := 1024.

(** [float(n)] for an [int] literal such as [100]. *)
Definition float_of_Z (n : Z) : spec_float := binary_normalize prec emax n 0 false.

(** [a / b] on two non-negative [int]s, [b] not zero: the quotient of the
    integers rounded once to the nearest double; [OverflowError] when it is
    too large for a double. *)
Definition int_truediv (a b : nat) : Res spec_float :=
  let operand (n : nat) :=
    match Z.of_nat n with
    | Zpos p => S754_finite false p 0
    | _ => S754_zero false
    end in
  match SFdiv prec emax (operand a) (operand b) with
  | S754_infinity _ => Raise OverflowError
  | q => Ok q
  end.

(** The attributes of a [Validator].  The three counters are rebound on
    every update; the four containers are references into the store.  A
    listener is an optional callable: here, whether it is present, its
    calls being recorded in the trace of the world. *)
Record t := mk {
  rule_engine : RuleEngine.t;
  on_violation : bool;
  on_entry : bool;
  _total_entries : nat;
  _total_passed : nat;
  _total_violations : nat;
  _violations_by_rule : loc;
  _violations_by_severity : loc;
  _robot_summaries : loc;
  _all_violations : loc
}.

Definition set_counters (self : t) (entries passed violations : nat) : t :=
  mk (rule_engine self) (on_violation self) (on_entry self)
     entries passed violations
     (_violations_by_rule self) (_violations_by_severity self)
     (_robot_summaries self) (_all_violations self).

Section WithBuiltins.
Context `{!Builtins}.

Definition __init__ (rule_engine : RuleEngine.t) (on_violation on_entry : bool) : M t :=
  by_rule ← alloc (OCounts ∅);
  by_severity ← alloc (OCounts ∅);
  summaries ← alloc (OSummaries ∅);
  all ← alloc (OViolations []);
  mret (mk rule_engine on_violation on_entry 0 0 0 by_rule by_severity summaries all).

(** [reset]: the counters restart and the containers are replaced by new
    ones; the old ones stay in the store for whoever still refers to them. *)
Definition reset (self : t) : M t :=
  by_rule ← alloc (OCounts ∅);
  by_severity ← alloc (OCounts ∅);
  summaries ← alloc (OSummaries ∅);
  all ← alloc (OViolations []);
  mret (mk (rule_engine self) (on_violation self) (on_entry self)
           0 0 0 by_rule by_severity summaries all).

Definition total_entries (self : t) : nat := _total_entries self.
Definition total_violations (self : t) : nat := _total_violations self.

Definition pass_rate (self : t) : Res spec_float :=
  if Nat.eqb (_total_entries self) 0 then Ok (float_of_Z 100)
  else
    q ← int_truediv (_total_passed self) (_total_entries self);
    Ok (SFmul prec emax q (float_of_Z 100)).

(** The integer [r * 2^1200], for a double [r] that is zero or positive
    and finite with an exponent of at least -1200 (every double has). *)
Definition scaled (r : spec_float) : option Z :=
  match r with
  | S754_zero _ => Some 0%Z
  | S754_finite false m e =>
      if Z.leb (-1200) e then Some (Z.pos m * 2 ^ (e + 1200))%Z else None
  | _ => None
  end.

(** [|r - num / den| <= 2^-42], for a positive [den]. *)
Definition within_rounding (r : spec_float) (num den : Z) : Prop :=
  exists v, scaled r = Some v
            /\ (Z.abs (v * den - num * 2 ^ 1200) * 2 ^ 42 <= den * 2 ^ 1200)%Z.

(** The pass rate as the specification words it:
    [100 * total_passed / total_entries], the product of the integers
    first, then one division. *)
Definition pass_rate_as_specified (self : t) : Res spec_float :=
  if Nat.eqb (_total_entries self) 0 then Ok (float_of_Z 100)
  else int_truediv (100 * _total_passed self) (_total_entries self).

(** One turn of the loop over the violations of an entry;
    [robot_summary] is the summary instance of the entry's robot. *)
Definition record_violation (robot_summary : loc) (self : t) (violation : Violation.t)
    : M t :=
  let self := set_counters self (_total_entries self) (_total_passed self)
                (_total_violations self + 1) in
  by_rule ← load_counts (_violations_by_rule self);
  store (_violations_by_rule self)
        (OCounts (incr (Violation.rule_id violation) by_rule));;
  by_severity ← load_counts (_violations_by_severity self);
  store (_violations_by_severity self)
        (OCounts (incr (Severity.value (Violation.severity violation)) by_severity));;
  all ← load_violations (_all_violations self);
  store (_all_violations self) (OViolations (all ++ [violation]));;
  s ← load_summary robot_summary;
  store robot_summary
        (OSummary (RobotSummary.mk
                     (RobotSummary.robot_id s)
                     (RobotSummary.total_entries s)
                     (RobotSummary.violations_count s + 1)
                     ValidationStatus.FAIL
                     (RobotSummary.violations s ++ [violation])));;
  (if on_violation self then emit (OnViolation violation) else mret tt);;
  mret self.

Fixpoint record_violations (robot_summary : loc) (self : t)
    (violations : list Violation.t) : M t :=
  match violations with
  | [] => mret self
  | violation :: rest =>
      self ← record_violation robot_summary self violation;
      record_violations robot_summary self rest
  end.

Definition validate_entry (self : t) (entry : LogEntry.t) : M (EntryResult.t * t) :=
  let violations := RuleEngine.validate_entry (rule_engine self) entry in
  let status :=
    match violations with
    | [] => ValidationStatus.PASS
    | _ :: _ => ValidationStatus.FAIL
    end in
  let result := EntryResult.mk entry status violations in
  let self := set_counters self (_total_entries self + 1) (_total_passed self)
                (_total_violations self) in
  let self :=
    if EntryResult.passed result
    then set_counters self (_total_entries self) (_total_passed self + 1)
           (_total_violations self)
    else self in
  let robot_id := LogEntry.robot_id entry in
  summaries ← load_summaries (_robot_summaries self);
  match summaries !! robot_id with
  | None =>
      fresh_summary ← alloc (OSummary (RobotSummary.new robot_id));
      store (_robot_summaries self) (OSummaries (<[robot_id := fresh_summary]> summaries))
  | Some _ => mret tt
  end;;
  summaries ← load_summaries (_robot_summaries self);
  match summaries !! robot_id with
  | None => stuck
  | Some robot_summary =>
      s ← load_summary robot_summary;
      store robot_summary
            (OSummary (RobotSummary.mk
                         (RobotSummary.robot_id s)
                         (RobotSummary.total_entries s + 1)
                         (RobotSummary.violations_count s)
                         (RobotSummary.status s)
                         (RobotSummary.violations s)));;
      self ← record_violations robot_summary self violations;
      (if on_entry self then emit (OnEntry result) else mret tt);;
      mret (result, self)
  end.

(** [validate_all]: the entries in arrival order, one after the other. *)
Fixpoint validate_all (self : t) (entries : list LogEntry.t)
    : M (list EntryResult.t * t) :=
  match entries with
  | [] => mret ([], self)
  | entry :: rest =>
      '(result, self) ← validate_entry self entry;
      '(results, self) ← validate_all self rest;
      mret (result :: results, self)
  end.

(** [validate_stream] is a generator over the iterator [entries]: a
    request for its next result takes the next entry and validates it;
    [None] is the end of the iteration.  The entries not yet taken are the
    state of the generator. *)
Definition validate_stream_next (self : t) (entries : list LogEntry.t)
    : M (option (EntryResult.t * t * list LogEntry.t)) :=
  match entries with
  | [] => mret None
  | entry :: rest =>
      '(result, self) ← validate_entry self entry;
      mret (Some (result, self, rest))
  end.

(** The results of at most [n] requests, in order, with the validator and
    the entries left after them. *)
Fixpoint validate_stream (n : nat) (self : t) (entries : list LogEntry.t)
    : M (list EntryResult.t * t * list LogEntry.t) :=
  match n with
  | O => mret ([], self, entries)
  | S n =>
      next ← validate_stream_next self entries;
      match next with
      | None => mret ([], self, [])
      | Some (result, self, rest) =>
          '(results, self, rest) ← validate_stream n self rest;
          mret (result :: results, self, rest)
      end
  end.

(** [get_report].  [utcnow] is what [datetime.utcnow().isoformat()] returns
    at the call.  [dict(...)] makes a new dictionary with the same items;
    [robot_summaries] and [violations] receive the validator's own
    containers. *)
Definition get_report (self : t) (utcnow rules_file input_file : string)
    : M (Res ValidationReport.t) :=
  match pass_rate self with
  | Raise e => mret (Raise e)
  | Ok rate =>
      by_rule ← load_counts (_violations_by_rule self);
      by_rule_copy ← alloc (OCounts by_rule);
      by_severity ← load_counts (_violations_by_severity self);
      by_severity_copy ← alloc (OCounts by_severity);
      mret (Ok (ValidationReport.mk
                  (_total_entries self) (_total_passed self) (_total_violations self)
                  rate by_rule_copy by_severity_copy
                  (_robot_summaries self) (_all_violations self)
                  (utcnow +:+ "Z") rules_file input_file))
  end.

End WithBuiltins.
End Validator.

(* ===================================================================== *)
(** * parser.py *)
(* ===================================================================== *)

Module LogParser.

Record t := mk {
  verbose : bool;
  _entry_count : nat
}.

(** [LogParser(verbose)]. *)
Definition __init__ (verbose : bool) : t := mk verbose 0.

Definition entries_parsed (self : t) : nat := _entry_count self.

(** The loop of [parse_entries] from position [i] of the enumeration on,
    requested to its end: the counter is incremented, then the entry is
    built. *)
Fixpoint parse_entries_from (i : nat) (self : t) (entries : list PyDict)
    : option (list LogEntry.t * t) :=
  match entries with
  | [] => Some ([], self)
  | entry :: rest =>
      let self := mk (verbose self) (_entry_count self + 1) in
      e ← LogEntry.from_dict entry (Z.of_nat i);
      '(es, self) ← parse_entries_from (S i) self rest;
      Some (e :: es, self)
  end.

Definition parse_entries (self : t) (entries : list PyDict)
    : option (list LogEntry.t * t) :=
  parse_entries_from 0 self entries.

End LogParser.

(* ===================================================================== *)
(** * Specification-level definitions *)
(* ===================================================================== *)

(** A clause of a conditional rule that is well formed but names an
    operator missing from the registry. *)
Definition names_unknown_operator (self : RuleEngine.t) (clause : PyDict) : Prop :=
  exists f o v,
    dict_get clause "field" = Some (VStr f)
    /\ dict_get clause "operator" = Some (VStr o)
    /\ dict_get clause "value" = Some v
    /\ RuleEngine._operators self !! o = None.

(** The engine binds the operator name to what the default registry binds
    it to: the name has not been registered again. *)
Definition binds_default `{!Builtins} (self : RuleEngine.t) (operator : string) : Prop :=
  RuleEngine._operators self !! operator = RuleEngine._default_operators !! operator.

(** The violation a simple rule reports on an entry. *)
Definition simple_violation `{!Builtins} (rule : Rule.t) (entry : LogEntry.t)
    : Violation.t :=
  Violation.mk
    (Rule.id rule) (Rule.name rule) (Rule.severity rule) (Rule.message rule)
    (LogEntry.timestamp entry) (LogEntry.robot_id entry)
    (Rule.field rule)
    (RuleEngine.get_field_value entry (Rule.field rule))
    (Rule.operator rule +:+ " " +:+ py_str (Rule.threshold rule))
    (LogEntry.index entry).

(** The keys [Rule.from_dict] reads. *)
Definition rule_keys : list string :=
  ["severity"; "id"; "name"; "field"; "operator"; "threshold"; "message";
   "description"; "type"; "condition"; "then"].

(** The value under [severity], when there is one, is not the value of a
    member of [Severity]. *)
Definition severity_invalid (data : PyDict) : Prop :=
  match dict_get data "severity" with
  | None => False
  | Some (VStr s) => Severity.of_value s = None
  | Some _ => True
  end.

(** The character occurs in the string. *)
Definition has_char (c : ascii) (s : string) : Prop :=
  In c (list_ascii_of_string s).

(** What a run has accumulated, without the store: the two entry counters,
    the global violation list, and per robot the number of its entries and
    its violations. *)
Module Abstract.

Record State := mk {
  entries : nat;
  passed : nat;
  viols : list Violation.t;
  robots : gmap string (nat * list Violation.t)
}.

Definition init : State := mk 0 0 [] ∅.

Definition count_entry (pass : bool) (a : State) : State :=
  mk (entries a + 1) (passed a + (if pass then 1 else 0)) (viols a) (robots a).

Definition ensure (robot : string) (a : State) : State :=
  match robots a !! robot with
  | None => mk (entries a) (passed a) (viols a) (<[robot := (0, [])]> (robots a))
  | Some _ => a
  end.

Definition bump (robot : string) (a : State) : State :=
  mk (entries a) (passed a) (viols a)
     (alter (fun '(n, vs) => (n + 1, vs)) robot (robots a)).

Definition add (robot : string) (a : State) (v : Violation.t) : State :=
  mk (entries a) (passed a) (viols a ++ [v])
     (alter (fun '(n, vs) => (n, vs ++ [v])) robot (robots a)).

Definition is_nil {A} (l : list A) : bool :=
  match l with
  | [] => true
  | _ :: _ => false
  end.

(** One entry of robot [robot] with violations [vs]. *)
Definition step (robot : string) (vs : list Violation.t) (a : State) : State :=
  fold_left (add robot) vs (bump robot (ensure robot (count_entry (is_nil vs) a))).

(** The summary instance of a robot with [n] entries and violations [vs]. *)
Definition summary (robot : string) (n : nat) (vs : list Violation.t) : RobotSummary.t :=
  RobotSummary.mk robot n (length vs)
    (if is_nil vs then ValidationStatus.PASS else ValidationStatus.FAIL) vs.

(** The counter dictionary after [d[k] += 1] for each key in turn. *)
Definition count_keys (keys : list string) : gmap string nat :=
  fold_left (fun d k => incr k d) keys ∅.

Definition summaries_agree (h : gmap loc PyObj) (sm : gmap string loc)
    (rs : gmap string (nat * list Violation.t)) : Prop :=
  forall robot,
    match sm !! robot, rs !! robot with
    | Some l, Some (n, vs) => h !! l = Some (OSummary (summary robot n vs))
    | None, None => True
    | _, _ => False
    end.

(** The validator [self] in the world [w] holds exactly [a]. *)
Record represents (self : Validator.t) (w : World) (a : State) : Prop := {
  rep_entries : Validator._total_entries self = entries a;
  rep_passed : Validator._total_passed self = passed a;
  rep_total_violations : Validator._total_violations self = length (viols a);
  rep_by_rule :
    heap w !! Validator._violations_by_rule self
    = Some (OCounts (count_keys (Violation.rule_id <$> viols a)));
  rep_by_severity :
    heap w !! Validator._violations_by_severity self
    = Some (OCounts (count_keys
                       ((fun v => Severity.value (Violation.severity v)) <$> viols a)));
  rep_counts_distinct :
    Validator._violations_by_rule self ≠ Validator._violations_by_severity self;
  rep_all :
    heap w !! Validator._all_violations self = Some (OViolations (viols a));
  rep_summaries :
    exists sm, heap w !! Validator._robot_summaries self = Some (OSummaries sm)
               /\ summaries_agree (heap w) sm (robots a)
}.

(** The references the validator [self] writes through in the world [w]:
    its four containers and the summary instances in its summary map. *)
Definition owned (self : Validator.t) (w : World) (l : loc) : Prop :=
  l = Validator._violations_by_rule self
  \/ l = Validator._violations_by_severity self
  \/ l = Validator._all_violations self
  \/ l = Validator._robot_summaries self
  \/ exists sm robot,
       heap w !! Validator._robot_summaries self = Some (OSummaries sm)
       /\ sm !! robot = Some l.

(** [self'] is the object [self] after some updates of its counters. *)
Definition same_object (self self' : Validator.t) : Prop :=
  Validator.rule_engine self' = Validator.rule_engine self
  /\ Validator.on_violation self' = Validator.on_violation self
  /\ Validator.on_entry self' = Validator.on_entry self
  /\ Validator._violations_by_rule self' = Validator._violations_by_rule self
  /\ Validator._violations_by_severity self' = Validator._violations_by_severity self
  /\ Validator._robot_summaries self' = Validator._robot_summaries self
  /\ Validator._all_violations self' = Validator._all_violations self.

End Abstract.

Module Run.
Section WithBuiltins.
Context `{!Builtins}.

(** A new validator over [engine], then the entries in arrival order. *)
Definition run (engine : RuleEngine.t) (on_violation on_entry : bool)
    (entries : list LogEntry.t) : M (list EntryResult.t * Validator.t) :=
  self ← Validator.__init__ engine on_violation on_entry;
  Validator.validate_all self entries.

(** The abstract state after the entries. *)
Definition state_after (engine : RuleEngine.t) (entries : list LogEntry.t)
    (a : Abstract.State) : Abstract.State :=
  fold_left
    (fun a e => Abstract.step (LogEntry.robot_id e) (RuleEngine.validate_entry engine e) a)
    entries a.

(** The result of an entry: it fails exactly when it has violations. *)
Definition result_of (engine : RuleEngine.t) (entry : LogEntry.t) : EntryResult.t :=
  let vs := RuleEngine.validate_entry engine entry in
  EntryResult.mk entry
    (match vs with
     | [] => ValidationStatus.PASS
     | _ :: _ => ValidationStatus.FAIL
     end) vs.

(** The processed records of one robot. *)
Definition entries_of (robot : string) (entries : list LogEntry.t) : list LogEntry.t :=
  filter (fun e => LogEntry.robot_id e = robot) entries.

(** The processed records without a violation. *)
Definition passing (engine : RuleEngine.t) (entries : list LogEntry.t) : list LogEntry.t :=
  filter (fun e => Abstract.is_nil (RuleEngine.validate_entry engine e)) entries.

(** The violations the engine produces on the entries, in order. *)
Definition violations_of (engine : RuleEngine.t) (entries : list LogEntry.t)
    : list Violation.t :=
  concat (map (RuleEngine.validate_entry engine) entries).

(** What the listeners of a validator are called with on one entry: its
    violations in order, then its result. *)
Definition events (engine : RuleEngine.t) (on_violation on_entry : bool)
    (entry : LogEntry.t) : list Event :=
  (if on_violation then OnViolation <$> RuleEngine.validate_entry engine entry else [])
  ++ (if on_entry then [OnEntry (result_of engine entry)] else []).

(** The summary of a robot over the processed records: none when no
    record is of that robot. *)
Definition summary_of (engine : RuleEngine.t) (entries : list LogEntry.t)
    (robot : string) : option RobotSummary.t :=
  match entries_of robot entries with
  | [] => None
  | mine => Some (Abstract.summary robot (length mine) (violations_of engine mine))
  end.

(** An entry of a counter dictionary: a key that was never incremented is
    absent. *)
Definition positive_count (n : nat) : option nat :=
  match n with
  | O => None
  | S _ => Some n
  end.

(** [self._robot_summaries[robot]], read through the store. *)
Definition robot_summary (self : Validator.t) (w : World) (robot : string)
    : option RobotSummary.t :=
  match heap w !! Validator._robot_summaries self with
  | Some (OSummaries sm) => l ← sm !! robot; ValidationReport.deref_summary w l
  | _ => None
  end.

(** [self._all_violations], read through the store. *)
Definition all_violations (self : Validator.t) (w : World) : option (list Violation.t) :=
  match heap w !! Validator._all_violations self with
  | Some (OViolations vs) => Some vs
  | _ => None
  end.

End WithBuiltins.
End Run.

(* ===================================================================== *)
(** * Sample data: the rules and records of the test suite *)
(* ===================================================================== *)

Module Sample.

(** [repr(x)]: exact on [None], [bool], [int], on strings of plain
    characters, and on lists and dicts of these; a float is shown as [?]. *)
Fixpoint repr (v : PyVal) : string :=
  match v with
  | VNone => "None"
  | VBool true => "True"
  | VBool false => "False"
  | VInt n => pretty n
  | VFloat _ => "?"
  | VStr s => "'" +:+ s +:+ "'"
  | VList l =>
      "[" +:+ (fix items (l : list PyVal) : string :=
                 match l with
                 | [] => ""
                 | [x] => repr x
                 | x :: rest => repr x +:+ ", " +:+ items rest
                 end) l +:+ "]"
  | VDict d =>
      "{" +:+ (fix items (d : PyDict) : string :=
                 match d with
                 | [] => ""
                 | [(k, x)] => "'" +:+ k +:+ "': " +:+ repr x
                 | (k, x) :: rest => "'" +:+ k +:+ "': " +:+ repr x +:+ ", " +:+ items rest
                 end) d +:+ "}"
  end.

Definition str (v : PyVal) : string :=
  match v with
  | VStr s => s
  | _ => repr v
  end.

(** A stand-in for the interpreter: [str] as above, and a [re.match] that
    rejects every pattern. *)
#[global] Instance builtins : Builtins := {|
  py_str := str;
  re_match := fun pattern _ => Raise (ReError pattern)
|}.

Definition simple_rule (id name field operator : string) (threshold : PyVal)
    (severity : Severity.t) (message : string) : Rule.t :=
  Rule.mk id name field operator threshold severity message "" "simple" None None.

Definition battery_min : Rule.t :=
  simple_rule "battery_min" "Battery Minimum" "battery_level" ">=" (VInt 20)
    Severity.WARNING "Battery below 20%".

Definition speed_max : Rule.t :=
  simple_rule "speed_max" "Speed Maximum" "speed" "<=" (VInt 100)
    Severity.ERROR "Speed exceeds limit".

Definition conditional_test : Rule.t :=
  Rule.mk "conditional_test" "No movement when battery critical" "" "" VNone
    Severity.CRITICAL "Moving with critical battery" "" "conditional"
    (Some [("field", VStr "battery_level"); ("operator", VStr "<"); ("value", VInt 10)])
    (Some [("field", VStr "movement_state"); ("operator", VStr "in");
           ("value", VList [VStr "idle"; VStr "stopped"])]).

(** The same rule with a misspelt operator in its [then] clause. *)
Definition conditional_typo : Rule.t :=
  Rule.mk "conditional_typo" "No movement when battery critical" "" "" VNone
    Severity.CRITICAL "Moving with critical battery" "" "conditional"
    (Some [("field", VStr "battery_level"); ("operator", VStr "<"); ("value", VInt 10)])
    (Some [("field", VStr "movement_state"); ("operator", VStr "inn");
           ("value", VList [VStr "idle"; VStr "stopped"])]).

(** A rule of a kind that is neither [simple] nor [conditional]. *)
Definition battery_min_odd : Rule.t :=
  Rule.mk "battery_min" "Battery Minimum" "battery_level" ">=" (VInt 20)
    Severity.WARNING "Battery below 20%" "" "threshold" None None.

(** [LogEntry.from_dict] on a record with a timestamp, a robot id, a
    battery level and a speed. *)
Definition entry (index : Z) (timestamp robot_id : string) (battery speed : Z)
    : LogEntry.t :=
  LogEntry.mk timestamp robot_id
    [("timestamp", VStr timestamp); ("robot_id", VStr robot_id);
     ("battery_level", VInt battery); ("speed", VInt speed)]
    index.

Definition moving_entry (battery : Z) : LogEntry.t :=
  LogEntry.mk "2024-01-15T08:00:00Z" "ROBOT_001"
    [("timestamp", VStr "2024-01-15T08:00:00Z"); ("robot_id", VStr "ROBOT_001");
     ("battery_level", VInt battery); ("movement_state", VStr "moving")]
    0.

Definition sample_logs : list LogEntry.t :=
  [ entry 0 "2024-01-15T08:00:00Z" "ROBOT_001" 80 50;
    entry 1 "2024-01-15T08:00:05Z" "ROBOT_001" 15 40;
    entry 2 "2024-01-15T08:00:10Z" "ROBOT_002" 60 120;
    entry 3 "2024-01-15T08:00:15Z" "ROBOT_002" 10 110 ].

Definition engine : RuleEngine.t :=
  RuleEngine.mk [battery_min; speed_max] RuleEngine._default_operators.

Definition empty_world : World := mkWorld ∅ [].

Definition nested (leaf : PyVal) : LogEntry.t :=
  LogEntry.mk "" "unknown" [("a", leaf)] 0.

(** The validator after the first three sample records: one of them
    passes. *)
Definition after_three : option (Validator.t * World) :=
  '(_, self, w) ← Run.run engine false false (take 3 sample_logs) empty_world;
  Some (self, w).

(** Two reports of one validator, taken one microsecond apart with no
    entry validated in between; the field values of both, read after the
    second call. *)
Definition two_reports : option (ValidationReport.Fields * ValidationReport.Fields) :=
  '(_, self, w) ← Run.run engine false false sample_logs empty_world;
  '(r1, w1) ← Validator.get_report self "2024-01-15T08:00:20.000001"
                "rules.json" "logs.json" w;
  '(r2, w2) ← Validator.get_report self "2024-01-15T08:00:20.000002"
                "rules.json" "logs.json" w1;
  match r1, r2 with
  | Ok r1, Ok r2 =>
      f1 ← ValidationReport.read w2 r1;
      f2 ← ValidationReport.read w2 r2;
      Some (f1, f2)
  | _, _ => None
  end.

(** A report taken after the first sample record, read at once and read
    again after the second sample record has been validated. *)
Definition report_before_after
    : option (ValidationReport.Fields * ValidationReport.Fields) :=
  '(self, w) ← Validator.__init__ engine false false empty_world;
  '(_, self, w) ← Validator.validate_entry self
                    (entry 0 "2024-01-15T08:00:00Z" "ROBOT_001" 80 50) w;
  '(r, w) ← Validator.get_report self "2024-01-15T08:00:01" "rules.json" "logs.json" w;
  match r with
  | Ok report =>
      before ← ValidationReport.read w report;
      '(_, self, w) ← Validator.validate_entry self
                        (entry 1 "2024-01-15T08:00:05Z" "ROBOT_001" 15 40) w;
      after ← ValidationReport.read w report;
      Some (before, after)
  | Raise _ => None
  end.

(** The dictionaries of the two simple rules, as the rules file gives
    them, and a rules document that holds them. *)
Definition battery_min_dict : PyDict :=
  [ ("id", VStr "battery_min"); ("name", VStr "Battery Minimum");
    ("field", VStr "battery_level"); ("operator", VStr ">=");
    ("threshold", VInt 20); ("severity", VStr "warning");
    ("message", VStr "Battery below 20%") ].

Definition speed_max_dict : PyDict :=
  [ ("id", VStr "speed_max"); ("name", VStr "Speed Maximum");
    ("field", VStr "speed"); ("operator", VStr "<=");
    ("threshold", VInt 100); ("severity", VStr "error");
    ("message", VStr "Speed exceeds limit") ].

Definition rules_document : PyDict :=
  [ ("rules", VList [VDict battery_min_dict; VDict speed_max_dict]) ].

(** A rules document whose second rule has no id. *)
Definition rules_document_without_id : PyDict :=
  [ ("rules", VList [VDict battery_min_dict;
                     VDict [("name", VStr "Speed Maximum")];
                     VInt 7]) ].

(** The payloads of the first two sample records, and a record without a
    robot id. *)
Definition sample_payloads : list PyDict :=
  [ [("timestamp", VStr "2024-01-15T08:00:00Z"); ("robot_id", VStr "ROBOT_001");
     ("battery_level", VInt 80); ("speed", VInt 50)];
    [("timestamp", VStr "2024-01-15T08:00:05Z"); ("robot_id", VStr "ROBOT_001");
     ("battery_level", VInt 15); ("speed", VInt 40)];
    [("timestamp", VStr "2024-01-15T08:00:10Z"); ("battery_level", VInt 80)] ].

(** A record whose battery level is a string. *)
Definition text_entry : LogEntry.t :=
  LogEntry.mk "2024-01-15T08:00:00Z" "ROBOT_001"
    [("timestamp", VStr "2024-01-15T08:00:00Z"); ("robot_id", VStr "ROBOT_001");
     ("battery_level", VStr "high")]
    0.

Definition state_allowed : Rule.t :=
  simple_rule "state_allowed" "Allowed states" "movement_state" "in"
    (VList [VStr "idle"; VStr "stopped"]) Severity.WARNING "Unexpected state".

Definition state_forbidden : Rule.t :=
  simple_rule "state_forbidden" "Forbidden states" "movement_state" "not_in"
    (VList [VStr "idle"; VStr "stopped"]) Severity.WARNING "Forbidden state".

End Sample.

(* ===================================================================== *)
(** * Properties of the rule engine *)
(* ===================================================================== *)

Section RuleEngineFacts.
Context `{!Builtins}.

(** ** Paths *)

Lemma split_not_nil sep s : Py.split sep s ≠ [].
Proof. destruct s as [|c s]; simpl; [done|]. destruct (Ascii.eqb c sep); [done|]. by destruct (Py.split sep s). Qed.

Lemma join_split sep s : Py.join sep (Py.split sep s) = s.
Proof.
  induction s as [|c s IH]; simpl; [done|].
  destruct (Ascii.eqb_spec c sep) as [->|Hne].
  - pose proof (split_not_nil sep s) as Hnil.
    simpl. destruct (Py.split sep s) as [|w ws]; [done|]. simpl in *. by rewrite IH.
  - pose proof (split_not_nil sep s) as Hnil.
    destruct (Py.split sep s) as [|w ws]; [done|].
    destruct ws as [|w' ws]; simpl in *; by rewrite <- IH.
Qed.

Lemma walk_app data pre post :
  RuleEngine.walk data (pre ++ post) = RuleEngine.walk (RuleEngine.walk data pre) post.
Proof.
  revert data. induction pre as [|p pre IH]; intros data; simpl; [done|].
  destruct data; try apply IH.
  all: by destruct post.
Qed.

Lemma walk_not_dict data parts :
  is_dict data = false -> parts ≠ [] -> RuleEngine.walk data parts = VNone.
Proof. destruct parts as [|p parts]; [done|]. by destruct data. Qed.

(** ** Conditions *)

Lemma evaluate_condition_registered self entry field operator value func :
  RuleEngine._operators self !! operator = Some func ->
  RuleEngine.evaluate_condition self entry field operator value
  = func (RuleEngine.get_field_value entry field) value.
Proof. intros Hop. unfold RuleEngine.evaluate_condition. by rewrite Hop. Qed.

Lemma evaluate_condition_unregistered self entry field operator value :
  RuleEngine._operators self !! operator = None ->
  RuleEngine.evaluate_condition self entry field operator value
  = Raise (ValueError ("Unknown operator: " +:+ operator)).
Proof. intros Hop. unfold RuleEngine.evaluate_condition. by rewrite Hop. Qed.

Lemma evaluate_clause_unknown self entry clause :
  names_unknown_operator self clause ->
  exists msg, RuleEngine.evaluate_clause self entry clause = Raise (ValueError msg).
Proof.
  intros (f & o & v & Hf & Ho & Hv & Hreg).
  unfold RuleEngine.evaluate_clause, getitem. rewrite Hf, Ho, Hv. simpl.
  rewrite (evaluate_condition_unregistered _ _ _ _ _ Hreg). eauto.
Qed.

Lemma truthy_Some (d : PyDict) : RuleEngine.truthy (Some d) = false -> d = [].
Proof. by destruct d. Qed.

Lemma validate_entry_omap_from self entry rs acc :
  fold_left
    (fun violations rule =>
       match RuleEngine.evaluate_rule self rule entry with
       | Some violation => violations ++ [violation]
       | None => violations
       end) rs acc
  = acc ++ omap (fun rule => RuleEngine.evaluate_rule self rule entry) rs.
Proof.
  revert acc. induction rs as [|r rs IH]; intros acc; simpl.
  - by rewrite app_nil_r.
  - rewrite IH. destruct (RuleEngine.evaluate_rule self r entry); [|done].
    by rewrite <- app_assoc.
Qed.

(** The violations of an entry are the outcomes of the rules, rule by rule
    in catalog order, the rules without a violation left out. *)
Lemma validate_entry_omap self entry :
  RuleEngine.validate_entry self entry
  = omap (fun rule => RuleEngine.evaluate_rule self rule entry) (RuleEngine.rules self).
Proof. unfold RuleEngine.validate_entry. by rewrite validate_entry_omap_from. Qed.

Lemma evaluate_rule_rule_id self rule entry v :
  RuleEngine.evaluate_rule self rule entry = Some v -> Violation.rule_id v = Rule.id rule.
Proof.
  unfold RuleEngine.evaluate_rule, RuleEngine.dispatch.
  destruct (String.eqb _ _).
  - unfold RuleEngine._evaluate_conditional_rule.
    destruct (negb _ || negb _); [done|].
    destruct (Rule.condition rule) as [c|]; [|done].
    destruct (Rule.then_ rule) as [t|]; [|done].
    destruct (RuleEngine.evaluate_clause self entry c) as [[]|]; simpl; try done.
    destruct (RuleEngine.evaluate_clause self entry t) as [[]|]; simpl; try done.
    unfold RuleEngine.conditional_violation.
    destruct (getitem t "field") as [[]|]; simpl; try done.
    repeat match goal with
           | |- context [getitem ?d ?k] => destruct (getitem d k); simpl; try done
           end.
    by intros [= <-].
  - unfold RuleEngine._evaluate_simple_rule.
    destruct (RuleEngine.evaluate_condition _ _ _ _ _) as [[]|]; simpl; try done.
    by intros [= <-].
Qed.

(** The rule ids of the violations of an entry follow the catalog. *)
Lemma validate_entry_rule_ids_sublist self entry :
  sublist (Violation.rule_id <$> RuleEngine.validate_entry self entry)
          (Rule.id <$> RuleEngine.rules self).
Proof.
  rewrite validate_entry_omap.
  induction (RuleEngine.rules self) as [|r rs IH]; simpl; [constructor|].
  destruct (RuleEngine.evaluate_rule self r entry) as [v|] eqn:Hv; simpl.
  - rewrite (evaluate_rule_rule_id _ _ _ _ Hv). by constructor.
  - by constructor.
Qed.

(** ** The claims on the rule engine *)

(** C4. [evaluate_rule] returns, whatever the rule and the entry: its
    result is an optional violation, never an exception.  Whenever the body
    of its [try] raises, the result is no violation; so it is for a simple
    rule whose operator is not registered and for a conditional rule one of
    whose clauses names an operator that is not registered. *)
Theorem evaluate_rule_fail_open (self : RuleEngine.t) (rule : Rule.t) (entry : LogEntry.t) :
  (forall exc, RuleEngine.dispatch self rule entry = Raise exc ->
               RuleEngine.evaluate_rule self rule entry = None)
  /\ (Rule.type rule ≠ "conditional" ->
      RuleEngine._operators self !! Rule.operator rule = None ->
      RuleEngine.dispatch self rule entry
        = Raise (ValueError ("Unknown operator: " +:+ Rule.operator rule))
      /\ RuleEngine.evaluate_rule self rule entry = None)
  /\ (forall cond then_,
        Rule.type rule = "conditional" ->
        Rule.condition rule = Some cond ->
        Rule.then_ rule = Some then_ ->
        names_unknown_operator self cond \/ names_unknown_operator self then_ ->
        RuleEngine.evaluate_rule self rule entry = None).
Proof.
  split; [|split].
  - intros exc Hraise. unfold RuleEngine.evaluate_rule. by rewrite Hraise.
  - intros Htype Hop.
    assert (RuleEngine.dispatch self rule entry
            = Raise (ValueError ("Unknown operator: " +:+ Rule.operator rule))) as Hd.
    { unfold RuleEngine.dispatch.
      destruct (String.eqb_spec (Rule.type rule) "conditional"); [done|].
      unfold RuleEngine._evaluate_simple_rule.
      by rewrite (evaluate_condition_unregistered _ _ _ _ _ Hop). }
    split; [done|]. unfold RuleEngine.evaluate_rule. by rewrite Hd.
  - intros cond then_ Htype Hcond Hthen Hunknown.
    unfold RuleEngine.evaluate_rule, RuleEngine.dispatch.
    rewrite Htype. simpl.
    unfold RuleEngine._evaluate_conditional_rule. rewrite Hcond, Hthen.
    destruct (negb _ || negb _); [done|].
    destruct Hunknown as [Hc|Ht].
    + destruct (evaluate_clause_unknown self entry cond Hc) as [msg ->]. done.
    + destruct (RuleEngine.evaluate_clause self entry cond) as [[]|]; simpl; try done.
      destruct (evaluate_clause_unknown self entry then_ Ht) as [msg ->]. done.
Qed.

(** C5. Called directly, [evaluate_condition] raises the unknown-operator
    error (a [ValueError] with the message of the source) for an operator
    name that is not in the registry, and for a registered name it is the
    registered predicate applied to the resolved field value and the given
    value. *)
Theorem evaluate_condition_direct (self : RuleEngine.t) (entry : LogEntry.t)
    (field operator : string) (value : PyVal) :
  (RuleEngine._operators self !! operator = None ->
   RuleEngine.evaluate_condition self entry field operator value
   = Raise (ValueError ("Unknown operator: " +:+ operator)))
  /\ (forall func,
        RuleEngine._operators self !! operator = Some func ->
        RuleEngine.evaluate_condition self entry field operator value
        = func (RuleEngine.get_field_value entry field) value).
Proof.
  split.
  - apply evaluate_condition_unregistered.
  - intros func. apply evaluate_condition_registered.
Qed.

(** C6. A conditional rule with a condition and a then clause produces no
    violation on an entry on which the predicate of its condition clause
    evaluates to false, whatever its then clause. *)
Theorem conditional_rule_condition_false (self : RuleEngine.t) (rule : Rule.t)
    (entry : LogEntry.t) (cond then_ : PyDict) :
  Rule.type rule = "conditional" ->
  Rule.condition rule = Some cond ->
  Rule.then_ rule = Some then_ ->
  RuleEngine.evaluate_clause self entry cond = Ok false ->
  RuleEngine.evaluate_rule self rule entry = None.
Proof.
  intros Htype Hcond Hthen Hfalse.
  unfold RuleEngine.evaluate_rule, RuleEngine.dispatch. rewrite Htype. simpl.
  unfold RuleEngine._evaluate_conditional_rule. rewrite Hcond, Hthen.
  destruct (negb _ || negb _); [done|].
  by rewrite Hfalse.
Qed.

(** C7. [get_field_value] splits the path on the dot (joining the parts
    with dots gives the path back) and walks the payload along the parts;
    as soon as a part remains and the value reached is not a dict, the
    result is [None].  It is a total function: no path raises.  The three
    resolutions of [a.b.c] of the specification. *)
Theorem get_field_value_resolves :
  (forall (entry : LogEntry.t) (field : string),
      Py.join "." (Py.split "." field) = field
      /\ RuleEngine.get_field_value entry field
         = RuleEngine.walk (VDict (LogEntry.raw_data entry)) (Py.split "." field))
  /\ (forall (entry : LogEntry.t) (field : string) (pre post : list string),
        Py.split "." field = pre ++ post ->
        post ≠ [] ->
        is_dict (RuleEngine.walk (VDict (LogEntry.raw_data entry)) pre) = false ->
        RuleEngine.get_field_value entry field = VNone)
  /\ RuleEngine.get_field_value
       (Sample.nested (VDict [("b", VDict [("c", VInt 7)])])) "a.b.c" = VInt 7
  /\ RuleEngine.get_field_value (Sample.nested (VDict [("b", VNone)])) "a.b.c" = VNone
  /\ RuleEngine.get_field_value (Sample.nested (VInt 5)) "a.b.c" = VNone.
Proof.
  split; [|split; [|by repeat split]].
  - intros entry field. split; [apply join_split|done].
  - intros entry field pre post Hsplit Hpost Hnot.
    unfold RuleEngine.get_field_value. rewrite Hsplit, walk_app.
    by apply walk_not_dict.
Qed.

(** Reads of a dictionary whose first item is the type. *)
Ltac drop_type_item kind data :=
  repeat match goal with
    | |- context [Rule.get_str (("type", VStr kind) :: data) ?k ?d] =>
        lazymatch k with
        | "type" =>
            change (Rule.get_str (("type", VStr kind) :: data) k d) with (Some kind)
        | _ =>
            change (Rule.get_str (("type", VStr kind) :: data) k d)
              with (Rule.get_str data k d)
        end
    | |- context [Rule.get_clause (("type", VStr kind) :: data) ?k] =>
        change (Rule.get_clause (("type", VStr kind) :: data) k)
          with (Rule.get_clause data k)
    | |- context [dict_get (("type", VStr kind) :: data) ?k] =>
        change (dict_get (("type", VStr kind) :: data) k) with (dict_get data k)
    end.

(** [from_dict] keeps whatever string the dictionary gives as type, and
    whether it returns a rule does not depend on that string. *)
Lemma from_dict_any_type (data : PyDict) (kind kind' : string) (rule : Rule.t) :
  Rule.from_dict (("type", VStr kind) :: data) = Some (Ok rule) ->
  Rule.type rule = kind
  /\ Rule.from_dict (("type", VStr kind') :: data)
     = Some (Ok (Rule.mk (Rule.id rule) (Rule.name rule) (Rule.field rule)
                   (Rule.operator rule) (Rule.threshold rule) (Rule.severity rule)
                   (Rule.message rule) (Rule.description rule) kind'
                   (Rule.condition rule) (Rule.then_ rule))).
Proof.
  unfold Rule.from_dict.
  drop_type_item kind data. drop_type_item kind' data.
  destruct (match dict_get data "severity" with
            | Some (VStr s) => Severity.of_value s
            | Some _ => None
            | None => Some Severity.WARNING
            end) as [sev|]; [|done].
  destruct (dict_get data "id") as [[| | | |id| |]|]; try done.
  drop_type_item kind data. drop_type_item kind' data.
  destruct (Rule.get_str data "name" id); [|done].
  destruct (Rule.get_str data "field" ""); [|done].
  destruct (Rule.get_str data "operator" ""); [|done].
  destruct (Rule.get_str data "message" ""); [|done].
  destruct (Rule.get_str data "description" ""); [|done].
  destruct (Rule.get_clause data "condition"); [|done].
  destruct (Rule.get_clause data "then"); [|done].
  simpl. by intros [= <-].
Qed.

(** The type string decides nothing at load: with another string under
    [type] the same dictionary gives the same outcome, be it a rule (the
    same but for its type), an exception, or no counterpart. *)
Lemma from_dict_type_irrelevant (data : PyDict) (kind kind' : string) :
  match Rule.from_dict (("type", VStr kind) :: data) with
  | Some (Ok rule) =>
      Rule.type rule = kind
      /\ Rule.from_dict (("type", VStr kind') :: data)
         = Some (Ok (Rule.mk (Rule.id rule) (Rule.name rule) (Rule.field rule)
                       (Rule.operator rule) (Rule.threshold rule) (Rule.severity rule)
                       (Rule.message rule) (Rule.description rule) kind'
                       (Rule.condition rule) (Rule.then_ rule)))
  | Some (Raise e) => Rule.from_dict (("type", VStr kind') :: data) = Some (Raise e)
  | None => Rule.from_dict (("type", VStr kind') :: data) = None
  end.
Proof.
  unfold Rule.from_dict.
  drop_type_item kind data. drop_type_item kind' data.
  destruct (match dict_get data "severity" with
            | Some (VStr s) => Severity.of_value s
            | Some _ => None
            | None => Some Severity.WARNING
            end) as [sev|]; [|done].
  destruct (dict_get data "id") as [[| | | |id| |]|]; try done.
  drop_type_item kind data. drop_type_item kind' data.
  destruct (Rule.get_str data "name" id); [|done].
  destruct (Rule.get_str data "field" ""); [|done].
  destruct (Rule.get_str data "operator" ""); [|done].
  destruct (Rule.get_str data "message" ""); [|done].
  destruct (Rule.get_str data "description" ""); [|done].
  destruct (Rule.get_clause data "condition"); [|done].
  destruct (Rule.get_clause data "then"); [|done].
  simpl. done.
Qed.

Lemma evaluate_rule_as_simple self rule entry :
  Rule.type rule ≠ "conditional" ->
  RuleEngine.evaluate_rule self rule entry
  = match RuleEngine.evaluate_condition self entry
              (Rule.field rule) (Rule.operator rule) (Rule.threshold rule) with
    | Ok false =>
        Some (Violation.mk
                (Rule.id rule) (Rule.name rule) (Rule.severity rule)
                (Rule.message rule)
                (LogEntry.timestamp entry) (LogEntry.robot_id entry)
                (Rule.field rule)
                (RuleEngine.get_field_value entry (Rule.field rule))
                (Rule.operator rule +:+ " " +:+ py_str (Rule.threshold rule))
                (LogEntry.index entry))
    | _ => None
    end.
Proof.
  intros Htype.
  unfold RuleEngine.evaluate_rule, RuleEngine.dispatch.
  destruct (String.eqb_spec (Rule.type rule) "conditional"); [done|].
  simpl. unfold RuleEngine._evaluate_simple_rule. simpl.
  by destruct (RuleEngine.evaluate_condition _ _ _ _ _) as [[]|].
Qed.

(** C10. A rule whose type is any string other than [conditional] is
    evaluated as a simple rule on its field, operator and threshold: a
    violation exactly when the registered predicate returns false, no
    violation when it returns true or raises.  The type string plays no
    other part: the outcome is that of the same rule with type [simple].
    Nor is a kind rejected when the rule is loaded: whatever string stands
    under [type], [from_dict] gives the outcome it gives with any other
    string there, the rule keeping the string as its type; so a dictionary
    that loads as a [simple] rule loads under every kind, and under every
    kind but [conditional] the loaded rule is evaluated as the simple
    one. *)
Theorem non_conditional_rule_is_simple :
  (forall (self : RuleEngine.t) (rule : Rule.t) (entry : LogEntry.t),
      Rule.type rule ≠ "conditional" ->
      RuleEngine.evaluate_rule self rule entry
      = match RuleEngine.evaluate_condition self entry
                (Rule.field rule) (Rule.operator rule) (Rule.threshold rule) with
        | Ok false =>
            Some (Violation.mk
                    (Rule.id rule) (Rule.name rule) (Rule.severity rule)
                    (Rule.message rule)
                    (LogEntry.timestamp entry) (LogEntry.robot_id entry)
                    (Rule.field rule)
                    (RuleEngine.get_field_value entry (Rule.field rule))
                    (Rule.operator rule +:+ " " +:+ py_str (Rule.threshold rule))
                    (LogEntry.index entry))
        | _ => None
        end
      /\ RuleEngine.evaluate_rule self rule entry
         = RuleEngine.evaluate_rule self
             (Rule.mk (Rule.id rule) (Rule.name rule) (Rule.field rule)
                (Rule.operator rule) (Rule.threshold rule) (Rule.severity rule)
                (Rule.message rule) (Rule.description rule) "simple"
                (Rule.condition rule) (Rule.then_ rule))
             entry)
  /\ (forall (data : PyDict) (kind : string) (rule : Rule.t),
        Rule.from_dict (("type", VStr kind) :: data) = Some (Ok rule) ->
        Rule.type rule = kind)
  /\ (forall (data : PyDict) (kind kind' : string),
        match Rule.from_dict (("type", VStr kind) :: data) with
        | Some (Ok rule) =>
            Rule.from_dict (("type", VStr kind') :: data)
            = Some (Ok (Rule.mk (Rule.id rule) (Rule.name rule) (Rule.field rule)
                          (Rule.operator rule) (Rule.threshold rule) (Rule.severity rule)
                          (Rule.message rule) (Rule.description rule) kind'
                          (Rule.condition rule) (Rule.then_ rule)))
        | Some (Raise e) => Rule.from_dict (("type", VStr kind') :: data) = Some (Raise e)
        | None => Rule.from_dict (("type", VStr kind') :: data) = None
        end)
  /\ (forall (self : RuleEngine.t) (data : PyDict) (kind : string) (rule : Rule.t)
             (entry : LogEntry.t),
        kind ≠ "conditional" ->
        Rule.from_dict (("type", VStr "simple") :: data) = Some (Ok rule) ->
        exists rule',
          Rule.from_dict (("type", VStr kind) :: data) = Some (Ok rule')
          /\ Rule.type rule' = kind
          /\ RuleEngine.evaluate_rule self rule' entry
             = RuleEngine.evaluate_rule self rule entry).
Proof.
  split; [|split; [|split]].
  - intros self rule entry Htype.
    unfold RuleEngine.evaluate_rule, RuleEngine.dispatch.
    destruct (String.eqb_spec (Rule.type rule) "conditional"); [done|].
    simpl. unfold RuleEngine._evaluate_simple_rule. simpl.
    by destruct (RuleEngine.evaluate_condition _ _ _ _ _) as [[]|].
  - intros data kind rule Hload.
    by destruct (from_dict_any_type data kind kind rule Hload).
  - intros data kind kind'.
    pose proof (from_dict_type_irrelevant data kind kind') as Hirr.
    destruct (Rule.from_dict (("type", VStr kind) :: data)) as [[rule|e]|]; try done.
    by destruct Hirr.
  - intros self data kind rule entry Hkind Hload.
    destruct (from_dict_any_type data "simple" kind rule Hload) as [Hsimple Hkind'].
    eexists. split; [exact Hkind'|]. split; [done|].
    rewrite (evaluate_rule_as_simple self rule entry) by (by rewrite Hsimple).
    by rewrite evaluate_rule_as_simple.
Qed.

End RuleEngineFacts.

(* ===================================================================== *)
(** * The validator holds what the run has accumulated *)
(* ===================================================================== *)

Section ValidatorFacts.
Context `{!Builtins}.

Import Abstract.

Lemma count_keys_snoc keys k : count_keys (keys ++ [k]) = incr k (count_keys keys).
Proof. unfold count_keys. by rewrite fold_left_app. Qed.

Lemma summary_add robot n vs v :
  RobotSummary.mk robot n (length vs + 1) ValidationStatus.FAIL (vs ++ [v])
  = summary robot n (vs ++ [v]).
Proof.
  unfold summary. rewrite length_app. simpl.
  by destruct vs.
Qed.

Lemma same_object_refl self : same_object self self.
Proof. by repeat split. Qed.

Lemma same_object_trans s1 s2 s3 :
  same_object s1 s2 -> same_object s2 s3 -> same_object s1 s3.
Proof. unfold same_object. intros ? ?. intuition congruence. Qed.

Lemma same_object_set_counters self e p v :
  same_object self (Validator.set_counters self e p v).
Proof. by repeat split. Qed.

Lemma represents_trace self h tr tr' a :
  represents self (mkWorld h tr) a -> represents self (mkWorld h tr') a.
Proof. intros []. by constructor. Qed.

(** One turn of the loop over the violations of an entry. *)
Lemma record_violation_represents self w a sm robot l v :
  represents self w a ->
  heap w !! Validator._robot_summaries self = Some (OSummaries sm) ->
  sm !! robot = Some l ->
  exists self' w',
    Validator.record_violation l self v w = Some (self', w')
    /\ represents self' w' (add robot a v)
    /\ same_object self self'
    /\ heap w' !! Validator._robot_summaries self = Some (OSummaries sm)
    /\ trace w' = trace w ++ (if Validator.on_violation self then [OnViolation v] else [])
    /\ (forall l', l' ≠ Validator._violations_by_rule self ->
                   l' ≠ Validator._violations_by_severity self ->
                   l' ≠ Validator._all_violations self ->
                   l' ≠ l ->
                   heap w' !! l' = heap w !! l').
Proof.
  intros [He Hp Hv Hbr Hbs Hne Hall (sm' & Hsm & Hagree)] Hsm2 Hl.
  rewrite Hsm in Hsm2. injection Hsm2 as ->.
  pose proof (Hagree robot) as Hrobot. rewrite Hl in Hrobot.
  destruct (robots a !! robot) as [[n vs]|] eqn:Hra; [|done].
  unfold Validator.record_violation, load_counts, load_violations, load_summary,
    load, store, emit.
  simpl. unfold mbind, M_bind, mret, M_ret. simpl.
  rewrite Hbr. simpl.
  rewrite lookup_insert_ne by congruence. rewrite Hbs. simpl.
  rewrite !lookup_insert_ne by congruence. rewrite Hall. simpl.
  rewrite !lookup_insert_ne by congruence. rewrite Hrobot. simpl.
  rewrite summary_add.
  set (h' := <[l:=_]> _).
  assert (represents
            (Validator.set_counters self (Validator._total_entries self)
               (Validator._total_passed self) (Validator._total_violations self + 1))
            (mkWorld h' (trace w)) (add robot a v)) as Hrep.
  { subst h'. constructor; simpl; try done.
    - rewrite length_app; simpl; lia.
    - rewrite fmap_app. cbn [fmap list_fmap]. rewrite count_keys_snoc.
      rewrite !lookup_insert_ne by congruence. by rewrite lookup_insert_eq.
    - rewrite fmap_app. cbn [fmap list_fmap]. rewrite count_keys_snoc.
      rewrite !lookup_insert_ne by congruence. by rewrite lookup_insert_eq.
    - rewrite !lookup_insert_ne by congruence. by rewrite lookup_insert_eq.
    - exists sm; split; [by rewrite !lookup_insert_ne by congruence|].
      intros robot'; destruct (decide (robot' = robot)) as [->|Hrne].
      + rewrite Hl, lookup_alter_eq, Hra; simpl; by rewrite lookup_insert_eq.
      + rewrite lookup_alter_ne by done.
        pose proof (Hagree robot') as Hr'.
        destruct (sm !! robot') as [l'|], (robots a !! robot') as [[n' vs']|]; try done.
        unfold summary in *; by rewrite !lookup_insert_ne by congruence. }
  assert (h' !! Validator._robot_summaries self = Some (OSummaries sm)) as Hsm'.
  { subst h'. by rewrite !lookup_insert_ne by congruence. }
  assert (forall l', l' ≠ Validator._violations_by_rule self ->
                     l' ≠ Validator._violations_by_severity self ->
                     l' ≠ Validator._all_violations self ->
                     l' ≠ l ->
                     h' !! l' = heap w !! l') as Hframe.
  { intros l' ? ? ? ?. subst h'. by rewrite !lookup_insert_ne by done. }
  clearbody h'.
  destruct (Validator.on_violation self) eqn:Hov; simpl.
  all: eexists _, _; split; [reflexivity|].
  all: split; [by apply (represents_trace _ _ (trace w))|].
  all: split; [by repeat split|].
  all: split; [done|].
  all: split; simpl; [by rewrite ?app_nil_r|done].
Qed.

Lemma record_violations_represents self w a sm robot l vs :
  represents self w a ->
  heap w !! Validator._robot_summaries self = Some (OSummaries sm) ->
  sm !! robot = Some l ->
  exists self' w',
    Validator.record_violations l self vs w = Some (self', w')
    /\ represents self' w' (fold_left (add robot) vs a)
    /\ same_object self self'
    /\ heap w' !! Validator._robot_summaries self = Some (OSummaries sm)
    /\ trace w' = trace w ++ (if Validator.on_violation self then OnViolation <$> vs else [])
    /\ (forall l', l' ≠ Validator._violations_by_rule self ->
                   l' ≠ Validator._violations_by_severity self ->
                   l' ≠ Validator._all_violations self ->
                   l' ≠ l ->
                   heap w' !! l' = heap w !! l').
Proof.
  revert self w a. induction vs as [|v vs IH]; intros self w a Hrep Hsm Hl; simpl.
  - exists self, w.
    split; [done|]. split; [done|]. split; [apply same_object_refl|]. split; [done|].
    split; [|done].
    by destruct (Validator.on_violation self); rewrite app_nil_r.
  - destruct (record_violation_represents self w a sm robot l v Hrep Hsm Hl)
      as (self1 & w1 & Hrun1 & Hrep1 & Hso1 & Hsm1 & Htr1 & Hfr1).
    destruct Hso1 as (Hso1a & Hso1b & Hso1c & HBR & HBS & HSS & HAA).
    assert (same_object self self1) as Hso1 by by repeat split.
    assert (Validator._robot_summaries self1 = Validator._robot_summaries self) as HS
      by apply Hso1.
    assert (Validator.on_violation self1 = Validator.on_violation self) as Hov
      by apply Hso1.
    destruct (IH self1 w1 (add robot a v) Hrep1)
      as (self2 & w2 & Hrun2 & Hrep2 & Hso2 & Hsm2 & Htr2 & Hfr2);
      [by rewrite HS|done|].
    exists self2, w2. unfold mbind, M_bind. rewrite Hrun1, Hrun2.
    split; [done|]. split; [done|]. split; [by eapply same_object_trans|].
    split; [by rewrite <- HS|]. split.
    + rewrite Htr2, Htr1, Hov. destruct (Validator.on_violation self); simpl.
      * by rewrite <- app_assoc.
      * by rewrite !app_nil_r.
    + intros l' ? ? ? ?. rewrite Hfr2 by congruence. by apply Hfr1.
Qed.

(** The end of [validate_entry]: the loop, then the entry listener. *)
Lemma validate_entry_tail self w a sm robot l vs (result : EntryResult.t) :
  represents self w a ->
  heap w !! Validator._robot_summaries self = Some (OSummaries sm) ->
  sm !! robot = Some l ->
  exists self' w',
    (self' ← Validator.record_violations l self vs;
     (if Validator.on_entry self' then emit (OnEntry result) else mret ());;
     mret (result, self')) w = Some (result, self', w')
    /\ represents self' w' (fold_left (add robot) vs a)
    /\ same_object self self'
    /\ trace w' = trace w
                  ++ (if Validator.on_violation self then OnViolation <$> vs else [])
                  ++ (if Validator.on_entry self then [OnEntry result] else [])
    /\ (forall l', l' ≠ Validator._violations_by_rule self ->
                   l' ≠ Validator._violations_by_severity self ->
                   l' ≠ Validator._all_violations self ->
                   l' ≠ l ->
                   heap w' !! l' = heap w !! l').
Proof.
  intros Hrep Hsm Hl.
  destruct (record_violations_represents self w a sm robot l vs Hrep Hsm Hl)
    as (self1 & w1 & Hrun & Hrep1 & Hso & _ & Htr & Hfr).
  assert (Validator.on_entry self1 = Validator.on_entry self) as Hoe by apply Hso.
  unfold mbind, M_bind. rewrite Hrun, Hoe.
  destruct (Validator.on_entry self); simpl.
  - eexists _, _. split; [reflexivity|]. simpl.
    split; [destruct w1; by eapply represents_trace|]. split; [done|].
    split; [by rewrite Htr, <- app_assoc|done].
  - eexists _, _. split; [reflexivity|].
    split; [done|]. split; [done|]. split; [by rewrite Htr, app_nil_r|done].
Qed.

(** One entry: the state it leaves, what the listeners see, what it
    leaves alone, and the summary map it leaves. *)
Lemma validate_entry_footprint self w a entry :
  represents self w a ->
  let vs := RuleEngine.validate_entry (Validator.rule_engine self) entry in
  let result := Run.result_of (Validator.rule_engine self) entry in
  exists self' w',
    Validator.validate_entry self entry w = Some (result, self', w')
    /\ represents self' w' (step (LogEntry.robot_id entry) vs a)
    /\ same_object self self'
    /\ trace w' = trace w
                  ++ (if Validator.on_violation self then OnViolation <$> vs else [])
                  ++ (if Validator.on_entry self then [OnEntry result] else [])
    /\ (forall l' o, heap w !! l' = Some o -> ~ owned self w l' -> heap w' !! l' = Some o)
    /\ (exists sm,
           heap w !! Validator._robot_summaries self = Some (OSummaries sm)
           /\ heap w' !! Validator._robot_summaries self
              = Some (OSummaries
                        (match sm !! LogEntry.robot_id entry with
                         | Some _ => sm
                         | None => <[LogEntry.robot_id entry := fresh (dom (heap w))]> sm
                         end))).
Proof.
  intros Hrep vs result.
  unfold Validator.validate_entry, step. fold vs.
  set (self1 := if EntryResult.passed _ then _ else _).
  assert (represents self1 w (count_entry (is_nil vs) a) /\ same_object self self1)
    as [Hrep1 Hso1].
  { destruct Hrep. subst self1. destruct vs; simpl.
    - split; [by constructor; simpl; try congruence|by repeat split].
    - split; [constructor; simpl; try done; lia|by repeat split]. }
  assert (Validator.on_violation self1 = Validator.on_violation self) as Hov by apply Hso1.
  assert (Validator.on_entry self1 = Validator.on_entry self) as Hoe by apply Hso1.
  clearbody self1.
  set (a1 := count_entry (is_nil vs) a) in *. clearbody a1.
  set (robot := LogEntry.robot_id entry).
  assert (forall sm l w2,
             heap w2 !! Validator._robot_summaries self1 = Some (OSummaries sm) ->
             sm !! robot = Some l ->
             trace w2 = trace w ->
             represents self1 w2 (bump robot (ensure robot a1)) ->
             exists self' w',
               (self' ← Validator.record_violations l self1 vs;
                (if Validator.on_entry self' then emit (OnEntry result) else mret ());;
                mret (result, self')) w2 = Some (result, self', w')
               /\ represents self' w' (fold_left (add robot) vs (bump robot (ensure robot a1)))
               /\ same_object self self'
               /\ trace w' = trace w
                     ++ (if Validator.on_violation self then OnViolation <$> vs else [])
                     ++ (if Validator.on_entry self then [OnEntry result] else [])
               /\ (forall l', l' ≠ Validator._violations_by_rule self ->
                              l' ≠ Validator._violations_by_severity self ->
                              l' ≠ Validator._all_violations self ->
                              l' ≠ l ->
                              heap w' !! l' = heap w2 !! l'))
    as Htail.
  { intros sm l w2 Hsm2 Hl2 Htr2 Hrep2.
    destruct (validate_entry_tail self1 w2 _ sm robot l vs result Hrep2 Hsm2 Hl2)
      as (self' & w' & Hrun & Hrep' & Hso' & Htr' & Hfr').
    exists self', w'. split; [done|]. split; [done|].
    split; [by eapply same_object_trans|]. split; [by rewrite Htr', Htr2, Hov, Hoe|].
    destruct Hso1 as (_ & _ & _ & HBR & HBS & _ & HAA).
    intros l' ? ? ? ?. apply Hfr'; congruence. }
  assert (Validator._robot_summaries self1 = Validator._robot_summaries self) as HSS
    by apply Hso1.
  assert (Validator._violations_by_rule self1 = Validator._violations_by_rule self
          /\ Validator._violations_by_severity self1
             = Validator._violations_by_severity self
          /\ Validator._all_violations self1 = Validator._all_violations self)
    as (HBR & HBS & HAA) by (split; [|split]; apply Hso1).
  destruct Hrep1 as [He Hp Hv Hbr Hbs Hne Hall (sm & Hsm & Hagree)].
  pose proof (Hagree robot) as Hrobot.
  destruct (sm !! robot) as [l|] eqn:Hl.
  - destruct (robots a1 !! robot) as [[n vs0]|] eqn:Hra; [|done].
    destruct (Htail sm l
                (mkWorld (<[l := OSummary (summary robot (n + 1) vs0)]> (heap w)) (trace w)))
      as (self' & w' & Hrun & Hrest).
    + simpl; by rewrite lookup_insert_ne by congruence.
    + done.
    + done.
    + unfold ensure. rewrite Hra. constructor; simpl; try done.
      all: try by rewrite lookup_insert_ne by congruence.
      exists sm. split; [by rewrite lookup_insert_ne by congruence|].
      intros robot'. destruct (decide (robot' = robot)) as [->|Hrne].
      * rewrite Hl, lookup_alter_eq, Hra. simpl. by rewrite lookup_insert_eq.
      * rewrite lookup_alter_ne by done.
        pose proof (Hagree robot') as Hr'.
        destruct (sm !! robot') as [l'|], (robots a1 !! robot') as [[n' vs']|]; try done.
        unfold summary in *. by rewrite lookup_insert_ne by congruence.
    + destruct Hrest as (Hrep' & Hso' & Htr' & Hfr').
      exists self', w'. split; [|split; [done|split; [done|split; [done|split]]]].
      * unfold load_summaries, load_summary, load, store, mbind, M_bind, mret, M_ret. simpl.
        rewrite Hsm. simpl. rewrite Hl. simpl. rewrite Hsm. simpl. rewrite Hl, Hrobot.
        exact Hrun.
      * intros l' o Hl' Hown.
        assert (l' ≠ l) as Hne'.
        { intros ->. apply Hown. do 4 right. exists sm, robot. by rewrite <- HSS. }
        rewrite Hfr'; [simpl; by rewrite lookup_insert_ne| | | |done].
        all: intros ->; apply Hown; unfold owned; tauto.
      * exists sm. split; [by rewrite <- HSS|]. fold robot. rewrite Hl.
        rewrite Hfr'; [simpl; rewrite lookup_insert_ne by congruence; by rewrite <- HSS|..];
          congruence.
  - destruct (robots a1 !! robot) as [[n vs0]|] eqn:Hra; [done|].
    set (l := fresh (dom (heap w))).
    assert (heap w !! l = None) as Hfresh.
    { apply not_elem_of_dom. apply is_fresh. }
    set (S := Validator._robot_summaries self1) in *.
    assert (l ≠ S) as HlS by congruence.
    destruct (Htail (<[robot := l]> sm) l
                (mkWorld (<[l := OSummary (summary robot (0 + 1) [])]>
                            (<[S := OSummaries (<[robot := l]> sm)]>
                               (<[l := OSummary (RobotSummary.new robot)]> (heap w))))
                   (trace w)))
      as (self' & w' & Hrun & Hrest).
    + simpl; rewrite lookup_insert_ne by done; by rewrite lookup_insert_eq.
    + by rewrite lookup_insert_eq.
    + done.
    + unfold ensure. rewrite Hra. constructor; simpl; try done.
      all: try by rewrite !lookup_insert_ne by congruence.
      exists (<[robot := l]> sm).
      split; [rewrite lookup_insert_ne by done; by rewrite lookup_insert_eq|].
      intros robot'. destruct (decide (robot' = robot)) as [->|Hrne].
      * rewrite lookup_insert_eq, lookup_alter_eq, lookup_insert_eq. simpl.
        by rewrite lookup_insert_eq.
      * rewrite lookup_alter_ne, !lookup_insert_ne by done.
        pose proof (Hagree robot') as Hr'.
        destruct (sm !! robot') as [l'|], (robots a1 !! robot') as [[n' vs']|]; try done.
        by rewrite !lookup_insert_ne by congruence.
    + destruct Hrest as (Hrep' & Hso' & Htr' & Hfr').
      exists self', w'. split; [|split; [done|split; [done|split; [done|split]]]].
      * unfold load_summaries, load_summary, load, store, alloc, mbind, M_bind,
          mret, M_ret. simpl.
        rewrite Hsm. simpl. rewrite Hl. simpl. fold l.
        rewrite lookup_insert_eq. simpl. rewrite lookup_insert_eq. simpl.
        rewrite lookup_insert_ne by done. rewrite lookup_insert_eq.
        exact Hrun.
      * intros l' o Hl' Hown.
        assert (l' ≠ l) as Hne' by congruence.
        assert (l' ≠ S) as HneS.
        { intros ->. apply Hown. unfold owned. subst S. rewrite HSS. tauto. }
        rewrite Hfr'; [simpl; by rewrite !lookup_insert_ne by done| | | |done].
        all: intros ->; apply Hown; unfold owned; tauto.
      * exists sm. split; [by rewrite <- HSS|]. fold robot. rewrite Hl. fold l.
        rewrite Hfr'; [|congruence..]. simpl. rewrite <- HSS.
        rewrite lookup_insert_ne by done. by rewrite lookup_insert_eq.
Qed.

Lemma validate_entry_represents self w a entry :
  represents self w a ->
  let vs := RuleEngine.validate_entry (Validator.rule_engine self) entry in
  let result := Run.result_of (Validator.rule_engine self) entry in
  exists self' w',
    Validator.validate_entry self entry w = Some (result, self', w')
    /\ represents self' w' (step (LogEntry.robot_id entry) vs a)
    /\ same_object self self'
    /\ trace w' = trace w
                  ++ (if Validator.on_violation self then OnViolation <$> vs else [])
                  ++ (if Validator.on_entry self then [OnEntry result] else [])
    /\ (forall l' o, heap w !! l' = Some o -> ~ owned self w l' -> heap w' !! l' = Some o).
Proof.
  intros Hrep vs result.
  destruct (validate_entry_footprint self w a entry Hrep)
    as (self' & w' & Hrun & Hrep' & Hso & Htr & Hfr & _).
  by exists self', w'.
Qed.

(** All the entries, in order. *)
Lemma validate_all_represents entries self w a :
  represents self w a ->
  exists results self' w',
    Validator.validate_all self entries w = Some (results, self', w')
    /\ represents self' w' (Run.state_after (Validator.rule_engine self) entries a)
    /\ same_object self self'
    /\ results = Run.result_of (Validator.rule_engine self) <$> entries.
Proof.
  revert self w a. induction entries as [|e es IH]; intros self w a Hrep; simpl.
  - exists [], self, w. split; [done|]. split; [done|]. split; [apply same_object_refl|done].
  - destruct (validate_entry_represents self w a e Hrep)
      as (self1 & w1 & Hrun1 & Hrep1 & Hso1 & _ & _).
    assert (Validator.rule_engine self1 = Validator.rule_engine self) as Heng by apply Hso1.
    destruct (IH self1 w1 _ Hrep1) as (results & self2 & w2 & Hrun2 & Hrep2 & Hso2 & Hres).
    exists (Run.result_of (Validator.rule_engine self) e :: results), self2, w2.
    unfold mbind, M_bind. rewrite Hrun1. simpl. rewrite Hrun2. simpl.
    split; [done|]. rewrite Heng in Hrep2, Hres.
    split; [done|]. split; [by eapply same_object_trans|]. by rewrite Hres.
Qed.

(** A new validator holds the empty state. *)
Lemma init_represents engine on_violation on_entry w :
  exists self w',
    Validator.__init__ engine on_violation on_entry w = Some (self, w')
    /\ represents self w' init
    /\ Validator.rule_engine self = engine
    /\ trace w' = trace w.
Proof.
  unfold Validator.__init__, alloc, mbind, M_bind, mret, M_ret. simpl.
  set (h0 := heap w).
  set (l1 := fresh (dom h0)). set (h1 := <[l1 := OCounts ∅]> h0).
  set (l2 := fresh (dom h1)). set (h2 := <[l2 := OCounts ∅]> h1).
  set (l3 := fresh (dom h2)). set (h3 := <[l3 := OSummaries ∅]> h2).
  set (l4 := fresh (dom h3)). set (h4 := <[l4 := OViolations []]> h3).
  assert (l2 ∉ dom h1) as H2 by apply is_fresh.
  assert (l3 ∉ dom h2) as H3 by apply is_fresh.
  assert (l4 ∉ dom h3) as H4 by apply is_fresh.
  assert (l1 ≠ l2 /\ l1 ≠ l3 /\ l1 ≠ l4 /\ l2 ≠ l3 /\ l2 ≠ l4 /\ l3 ≠ l4)
    as (H12 & H13 & H14 & H23 & H24 & H34).
  { subst h3 h2 h1. rewrite !dom_insert_L in *. set_solver. }
  eexists _, _. split; [reflexivity|]. split; [|done].
  constructor; simpl; try done.
  - subst h4 h3 h2 h1. rewrite !lookup_insert_ne by done. by rewrite lookup_insert_eq.
  - subst h4 h3 h2. rewrite !lookup_insert_ne by done. by rewrite lookup_insert_eq.
  - subst h4. by rewrite lookup_insert_eq.
  - exists ∅. split.
    + subst h4 h3. rewrite !lookup_insert_ne by done. by rewrite lookup_insert_eq.
    + intros robot. by rewrite !lookup_empty.
Qed.

(** [reset] leaves a validator that holds the empty state, on new
    containers. *)
Lemma reset_represents self w :
  exists self' w',
    Validator.reset self w = Some (self', w')
    /\ represents self' w' init
    /\ Validator.rule_engine self' = Validator.rule_engine self
    /\ trace w' = trace w.
Proof.
  exact (init_represents (Validator.rule_engine self) (Validator.on_violation self)
           (Validator.on_entry self) w).
Qed.

(** ** What the accumulated state is, in terms of the entries *)

Lemma fold_add_fields robot vs b :
  entries (fold_left (add robot) vs b) = entries b
  /\ passed (fold_left (add robot) vs b) = passed b
  /\ viols (fold_left (add robot) vs b) = viols b ++ vs
  /\ forall r,
      robots (fold_left (add robot) vs b) !! r
      = if decide (r = robot)
        then (fun '(n, old) => (n, old ++ vs)) <$> robots b !! r
        else robots b !! r.
Proof.
  revert b. induction vs as [|v vs IH]; intros b; simpl.
  - repeat split; try done; [by rewrite app_nil_r|].
    intros r. case_decide; [|done].
    destruct (robots b !! r) as [[n old]|]; simpl; [|done]. by rewrite app_nil_r.
  - destruct (IH (add robot b v)) as (He & Hp & Hv & Hr).
    rewrite He, Hp, Hv. simpl. repeat split; try done; [by rewrite <- app_assoc|].
    intros r. rewrite Hr. case_decide as Hd.
    + subst r. simpl. rewrite lookup_alter_eq.
      destruct (robots b !! robot) as [[n old]|]; simpl; [|done]. by rewrite <- app_assoc.
    + simpl. by rewrite lookup_alter_ne.
Qed.

Lemma step_fields robot vs a :
  entries (step robot vs a) = entries a + 1
  /\ passed (step robot vs a) = passed a + (if is_nil vs then 1 else 0)
  /\ viols (step robot vs a) = viols a ++ vs
  /\ forall r,
      robots (step robot vs a) !! r
      = if decide (r = robot)
        then Some ((default (0, []) (robots a !! r)).1 + 1,
                   (default (0, []) (robots a !! r)).2 ++ vs)
        else robots a !! r.
Proof.
  unfold step.
  destruct (fold_add_fields robot vs (bump robot (ensure robot (count_entry (is_nil vs) a))))
    as (He & Hp & Hv & Hr).
  rewrite He, Hp, Hv.
  assert (entries (ensure robot (count_entry (is_nil vs) a)) = entries a + 1
          /\ passed (ensure robot (count_entry (is_nil vs) a))
             = passed a + (if is_nil vs then 1 else 0)
          /\ viols (ensure robot (count_entry (is_nil vs) a)) = viols a
          /\ forall r, robots (ensure robot (count_entry (is_nil vs) a)) !! r
                       = if decide (r = robot)
                         then Some (default (0, []) (robots a !! r))
                         else robots a !! r) as (He' & Hp' & Hv' & Hr').
  { unfold ensure. simpl. destruct (robots a !! robot) as [p|] eqn:Hl; simpl.
    - repeat split; try done. intros r. case_decide; [subst; by rewrite Hl|done].
    - repeat split; try done. intros r. case_decide.
      + subst. by rewrite lookup_insert_eq, Hl.
      + by rewrite lookup_insert_ne. }
  simpl. rewrite He', Hp', Hv'. repeat split; try done.
  intros r. rewrite Hr. case_decide as Hd; simpl.
  - subst r. rewrite lookup_alter_eq, Hr'. rewrite decide_True by done. simpl.
    by destruct (default (0, []) (robots a !! robot)).
  - rewrite lookup_alter_ne by done. rewrite Hr'. by rewrite decide_False.
Qed.

Lemma entries_of_cons robot e es :
  Run.entries_of robot (e :: es)
  = if decide (LogEntry.robot_id e = robot)
    then e :: Run.entries_of robot es
    else Run.entries_of robot es.
Proof. unfold Run.entries_of. rewrite filter_cons. by case_decide. Qed.

Lemma violations_of_cons engine e es :
  Run.violations_of engine (e :: es)
  = RuleEngine.validate_entry engine e ++ Run.violations_of engine es.
Proof. done. Qed.

Lemma state_after_fields engine es a :
  entries (Run.state_after engine es a) = entries a + length es
  /\ passed (Run.state_after engine es a) = passed a + length (Run.passing engine es)
  /\ viols (Run.state_after engine es a) = viols a ++ Run.violations_of engine es
  /\ forall r,
      robots (Run.state_after engine es a) !! r
      = match Run.entries_of r es with
        | [] => robots a !! r
        | mine =>
            Some ((default (0, []) (robots a !! r)).1 + length mine,
                  (default (0, []) (robots a !! r)).2 ++ Run.violations_of engine mine)
        end.
Proof.
  revert a. induction es as [|e es IH]; intros a.
  - simpl. repeat split; try done; try lia. unfold Run.violations_of. simpl.
    by rewrite app_nil_r.
  - unfold Run.state_after in *. simpl.
    destruct (IH (step (LogEntry.robot_id e) (RuleEngine.validate_entry engine e) a))
      as (He & Hp & Hv & Hr).
    destruct (step_fields (LogEntry.robot_id e) (RuleEngine.validate_entry engine e) a)
      as (He' & Hp' & Hv' & Hr').
    rewrite He, Hv, He', Hv'. simpl length. split; [lia|]. split.
    { rewrite Hp, Hp'. unfold Run.passing. rewrite filter_cons.
      destruct (is_nil (RuleEngine.validate_entry engine e)); simpl; lia. }
    split; [by rewrite violations_of_cons, app_assoc|].
    intros r. rewrite Hr, Hr', entries_of_cons.
    case_decide as Hd1; case_decide as Hd2; try congruence.
    + destruct (Run.entries_of r es) as [|e' mine]; simpl.
      * f_equal. f_equal. rewrite violations_of_cons.
        by rewrite (app_nil_r (RuleEngine.validate_entry engine e)).
      * f_equal. f_equal; [lia|].
        rewrite !violations_of_cons. by rewrite <- !app_assoc.
    + done.
Qed.

(** A run from a new validator succeeds and ends holding the state of its
    entries. *)
Lemma run_represents engine on_violation on_entry es w :
  exists results self w',
    Run.run engine on_violation on_entry es w = Some (results, self, w')
    /\ represents self w' (Run.state_after engine es init)
    /\ Validator.rule_engine self = engine
    /\ results = Run.result_of engine <$> es.
Proof.
  destruct (init_represents engine on_violation on_entry w)
    as (self0 & w0 & Hinit & Hrep0 & Heng & _).
  destruct (validate_all_represents es self0 w0 init Hrep0)
    as (results & self & w' & Hrun & Hrep & Hso & Hres).
  exists results, self, w'. unfold Run.run, mbind, M_bind. rewrite Hinit, Hrun.
  rewrite Heng in Hrep, Hres. split; [done|]. split; [done|]. split; [|done].
  destruct Hso as [Hso _]. by rewrite Hso.
Qed.

Lemma passing_le engine es : length (Run.passing engine es) <= length es.
Proof. apply length_filter. Qed.

Lemma entries_of_not_nil robot es :
  robot ∈ LogEntry.robot_id <$> es -> Run.entries_of robot es ≠ [].
Proof.
  intros (e & -> & Hin)%list_elem_of_fmap.
  intros Hnil. assert (e ∈ Run.entries_of (LogEntry.robot_id e) es) as Hmem.
  { unfold Run.entries_of. by apply list_elem_of_filter. }
  rewrite Hnil in Hmem. by apply not_elem_of_nil in Hmem.
Qed.

(** ** The claims on the aggregation *)

(** C3. After any finite sequence of entries processed by a new validator,
    the summary of every robot that appears holds: as [total_entries] the
    number of processed entries of that robot, as [violations_count] the
    number of violations those entries produced (and as [violations] these
    violations in order), and as [status] fail exactly when
    [violations_count] is positive.  The run itself always succeeds. *)
Theorem robot_summary_counts (engine : RuleEngine.t) (on_violation on_entry : bool)
    (w : World) (es : list LogEntry.t) (robot : string) :
  robot ∈ LogEntry.robot_id <$> es ->
  exists results self w' s,
    Run.run engine on_violation on_entry es w = Some (results, self, w')
    /\ Run.robot_summary self w' robot = Some s
    /\ RobotSummary.robot_id s = robot
    /\ RobotSummary.total_entries s = length (Run.entries_of robot es)
    /\ RobotSummary.violations_count s
       = length (Run.violations_of engine (Run.entries_of robot es))
    /\ RobotSummary.violations s = Run.violations_of engine (Run.entries_of robot es)
    /\ (RobotSummary.status s = ValidationStatus.FAIL
        <-> 0 < RobotSummary.violations_count s).
Proof.
  intros Hin%entries_of_not_nil.
  destruct (run_represents engine on_violation on_entry es w)
    as (results & self & w' & Hrun & Hrep & _ & _).
  destruct Hrep as [_ _ _ _ _ _ _ (sm & Hsm & Hagree)].
  destruct (state_after_fields engine es init) as (_ & _ & _ & Hr).
  pose proof (Hagree robot) as Hrobot. rewrite Hr in Hrobot.
  destruct (Run.entries_of robot es) as [|e mine] eqn:Hmine; [done|].
  destruct (sm !! robot) as [l|] eqn:Hl; [|done].
  simpl in Hrobot. rewrite lookup_empty in Hrobot. simpl in Hrobot.
  eexists results, self, w', _. split; [exact Hrun|].
  unfold Run.robot_summary, ValidationReport.deref_summary.
  rewrite Hsm. simpl. rewrite Hl. simpl. rewrite Hrobot.
  split; [reflexivity|]. simpl. repeat split; try done.
  - destruct (Run.violations_of engine (e :: mine)); simpl; [done|lia].
  - destruct (Run.violations_of engine (e :: mine)); simpl; [lia|done].
Qed.

(** C9. After any sequence of entries processed in arrival order by a new
    validator, the global violation list is the concatenation, in arrival
    order, of the violation lists of the entries; the result returned for
    each entry carries that entry's list; and the list of an entry holds
    the violations of the rules in the order of the catalog, the rules
    without a violation left out. *)
Theorem violations_in_arrival_and_catalog_order (engine : RuleEngine.t)
    (on_violation on_entry : bool) (w : World) (es : list LogEntry.t) :
  exists results self w',
    Run.run engine on_violation on_entry es w = Some (results, self, w')
    /\ Run.all_violations self w'
       = Some (concat (RuleEngine.validate_entry engine <$> es))
    /\ EntryResult.violations <$> results = RuleEngine.validate_entry engine <$> es
    /\ EntryResult.log_entry <$> results = es
    /\ forall entry,
        RuleEngine.validate_entry engine entry
        = omap (fun rule => RuleEngine.evaluate_rule engine rule entry)
            (RuleEngine.rules engine).
Proof.
  destruct (run_represents engine on_violation on_entry es w)
    as (results & self & w' & Hrun & Hrep & _ & Hres).
  exists results, self, w'. split; [done|].
  destruct Hrep as [_ _ _ _ _ _ Hall _].
  destruct (state_after_fields engine es init) as (_ & _ & Hv & _).
  split; [|split; [|split]].
  - unfold Run.all_violations. by rewrite Hall, Hv.
  - rewrite Hres, <- list_fmap_compose. done.
  - rewrite Hres, <- list_fmap_compose. clear.
    induction es as [|e es IH]; [done|]. rewrite fmap_cons, IH. done.
  - apply validate_entry_omap.
Qed.

End ValidatorFacts.

(* ===================================================================== *)
(** * Properties of the report *)
(* ===================================================================== *)

Section ReportFacts.
Context `{!Builtins}.

Lemma div_eucl_div_mod a b : Z.div_eucl a b = (Z.div a b, Z.modulo a b).
Proof. unfold Z.div, Z.modulo. by destruct (Z.div_eucl a b). Qed.

(** A count divided by itself is exactly one. *)
Lemma SFdiv_same (p : positive) :
  SFdiv Validator.prec Validator.emax (S754_finite false p 0) (S754_finite false p 0)
  = S754_finite false 4503599627370496 (-52).
Proof.
  unfold SFdiv, SFdiv_core_binary.
  replace (Z.sub (Z.add (Zdigits2 (Z.pos p)) 0) (Z.add (Zdigits2 (Z.pos p)) 0)) with 0%Z by lia.
  change (Z.min (fexp Validator.prec Validator.emax 0) (Z.sub 0 0)) with (-53)%Z.
  change (Z.sub (Z.sub 0 0) (-53)) with 53%Z. cbv iota.
  rewrite div_eucl_div_mod, Z.shiftl_mul_pow2 by done.
  rewrite Z.mul_comm, Z.div_mul, Z.mod_mul by done.
  unfold new_location, new_location_even, new_location_odd. simpl Z.eqb.
  by destruct (Z.even (Z.pos p)).
Qed.

Lemma int_truediv_same (n : nat) :
  0 < n -> Validator.int_truediv n n = Ok (S754_finite false 4503599627370496 (-52)).
Proof.
  intros Hn. unfold Validator.int_truediv.
  destruct (Z.of_nat n) as [|p|p] eqn:Hz; try lia.
  by rewrite SFdiv_same.
Qed.

Lemma int_truediv_zero (n : nat) :
  0 < n -> Validator.int_truediv 0 n = Ok (S754_zero false).
Proof.
  intros Hn. unfold Validator.int_truediv. simpl.
  destruct (Z.of_nat n) as [|p|p] eqn:Hz; try lia.
  done.
Qed.

(** A reference in use is never the next new one. *)
Lemma fresh_lookup_ne (h : gmap loc PyObj) (l : loc) (o : PyObj) :
  h !! l = Some o -> l ≠ fresh (dom h).
Proof.
  intros Hl Heq. pose proof (is_fresh (dom h)) as Hf.
  rewrite <- Heq in Hf. apply Hf, elem_of_dom. eauto.
Qed.

Lemma deref_summary_alloc_counts (h : gmap loc PyObj) (tr tr' : list Event)
    (d : gmap string nat) (l : loc) :
  ValidationReport.deref_summary (mkWorld (<[fresh (dom h) := OCounts d]> h) tr) l
  = ValidationReport.deref_summary (mkWorld h tr') l.
Proof.
  unfold ValidationReport.deref_summary. simpl.
  destruct (decide (l = fresh (dom h))) as [->|Hne].
  - rewrite lookup_insert_eq.
    assert (h !! fresh (dom h) = None) as -> by apply not_elem_of_dom, is_fresh.
    done.
  - by rewrite lookup_insert_ne.
Qed.

End ReportFacts.

(* ===================================================================== *)
(** * The pass rate of a reachable state is a number *)
(* ===================================================================== *)

Section NoOverflow.

Lemma digits2_pos_size p : digits2_pos p = Pos.size p.
Proof. induction p as [p IH|p IH|]; simpl; by rewrite ?IH. Qed.

Lemma Zdigits2_log2 p : Zdigits2 (Z.pos p) = (Z.log2 (Z.pos p) + 1)%Z.
Proof. simpl. rewrite digits2_pos_size. destruct p; simpl; rewrite ?Pos2Z.inj_succ; lia. Qed.

Lemma Zdigits2_le m k : (0 <= m < 2 ^ k -> 0 <= k -> Zdigits2 m <= k)%Z.
Proof.
  intros [Hm Hk] Hk0. destruct m as [|p|p]; [simpl; lia| |lia].
  rewrite Zdigits2_log2.
  assert (Z.log2 (Z.pos p) < k)%Z as Hlog by (apply Z.log2_lt_pow2; lia). lia.
Qed.

Lemma shr_1_bounds mrs : (0 <= shr_m mrs -> 0 <= shr_m (shr_1 mrs) <= shr_m mrs)%Z.
Proof. destruct mrs as [m r s]. destruct m as [|[p|p|]|]; simpl; lia. Qed.

Lemma iter_shr_1_bounds p mrs :
  (0 <= shr_m mrs -> 0 <= shr_m (SpecFloat.iter_pos shr_1 p mrs) <= shr_m mrs)%Z.
Proof.
  revert mrs. induction p as [p IH|p IH|]; intros mrs Hm; simpl.
  - pose proof (shr_1_bounds mrs Hm) as H1.
    pose proof (IH (shr_1 mrs) ltac:(lia)) as H2.
    pose proof (IH (SpecFloat.iter_pos shr_1 p (shr_1 mrs)) ltac:(lia)) as H3. lia.
  - pose proof (IH mrs Hm) as H2.
    pose proof (IH (SpecFloat.iter_pos shr_1 p mrs) ltac:(lia)) as H3. lia.
  - by apply shr_1_bounds.
Qed.

Lemma shr_fexp_bounds m e l :
  (0 <= m)%Z ->
  (0 <= shr_m (shr_fexp Validator.prec Validator.emax m e l).1 <= m)%Z
  /\ (shr_fexp Validator.prec Validator.emax m e l).2
     = Z.max e (fexp Validator.prec Validator.emax (Zdigits2 m + e)).
Proof.
  intros Hm. unfold shr_fexp, shr.
  assert (shr_m (shr_record_of_loc m l) = m) as Hrec by by destruct l as [|[]].
  destruct (fexp Validator.prec Validator.emax (Zdigits2 m + e) - e)%Z as [|p|p] eqn:Hn;
    simpl.
  - rewrite Hrec. lia.
  - pose proof (iter_shr_1_bounds p (shr_record_of_loc m l)) as Hit.
    rewrite Hrec in Hit. lia.
  - rewrite Hrec. lia.
Qed.

Lemma round_nearest_even_bounds m l : (m <= round_nearest_even m l <= m + 1)%Z.
Proof. destruct l as [|[]]; simpl; try lia. destruct (Z.even m); lia. Qed.

Lemma fexp_le x b :
  (x <= b -> -1074 <= b - 53 -> fexp Validator.prec Validator.emax x <= b - 53)%Z.
Proof. unfold fexp, emin, Validator.prec, Validator.emax. lia. Qed.

(** Rounding a quotient that is at most one never overflows. *)
Lemma binary_round_aux_no_overflow sx mx ex lx s :
  (-1074 <= ex <= -53)%Z -> (0 <= mx <= 2 ^ (- ex))%Z ->
  binary_round_aux Validator.prec Validator.emax sx mx ex lx ≠ S754_infinity s.
Proof.
  intros Hex Hmx. unfold binary_round_aux.
  destruct (shr_fexp_bounds mx ex lx ltac:(lia)) as [Hm1 He1].
  destruct (shr_fexp Validator.prec Validator.emax mx ex lx) as [mrs1 e1]. simpl in *.
  set (mr := round_nearest_even (shr_m mrs1) (loc_of_shr_record mrs1)).
  pose proof (round_nearest_even_bounds (shr_m mrs1) (loc_of_shr_record mrs1)) as Hmr.
  fold mr in Hmr.
  destruct (shr_fexp_bounds mr e1 loc_Exact ltac:(lia)) as [Hm2 He2].
  destruct (shr_fexp Validator.prec Validator.emax mr e1 loc_Exact) as [mrs2 e2].
  simpl in *.
  assert (2 ^ (- ex) <= 2 ^ 1074)%Z as Hpow by (apply Z.pow_le_mono_r; lia).
  assert (Zdigits2 mx <= - ex + 1)%Z as Hd1.
  { apply Zdigits2_le; [|lia]. rewrite Z.pow_add_r by lia. lia. }
  assert (Zdigits2 mr <= 1075)%Z as Hd2.
  { apply Zdigits2_le; [|lia]. change (2 ^ 1075)%Z with (2 ^ 1074 * 2)%Z. lia. }
  assert (e1 <= -52)%Z as He1le.
  { pose proof (fexp_le (Zdigits2 mx + ex) 1 ltac:(lia) ltac:(lia)). lia. }
  assert (e2 <= 970)%Z as He2le.
  { pose proof (fexp_le (Zdigits2 mr + e1) 1023 ltac:(lia) ltac:(lia)). lia. }
  destruct (shr_m mrs2) as [|m|m]; try done.
  destruct (Z.leb_spec e2 (Validator.emax - Validator.prec)) as [|Hgt]; [done|].
  unfold Validator.emax, Validator.prec in Hgt. lia.
Qed.

(** The quotient of two counters, the first at most the second, is a
    double: [int / int] does not raise. *)
Lemma int_truediv_le (p n : nat) :
  p <= n -> 0 < n -> exists q, Validator.int_truediv p n = Ok q.
Proof.
  intros Hle Hn. unfold Validator.int_truediv.
  destruct (Z.of_nat n) as [|b|b] eqn:Hb; try lia.
  destruct (Z.of_nat p) as [|a|a] eqn:Ha; try lia.
  { simpl. eauto. }
  assert (Z.pos a <= Z.pos b)%Z as Hab by lia.
  assert (forall s,
             SFdiv Validator.prec Validator.emax (S754_finite false a 0) (S754_finite false b 0)
             ≠ S754_infinity s) as Hfin.
  { intros s. unfold SFdiv, SFdiv_core_binary.
    set (e' := Z.min _ _).
    assert (-1074 <= e' <= -53)%Z as He'.
    { subst e'. unfold fexp, emin, Validator.prec, Validator.emax.
      assert (Zdigits2 (Z.pos a) <= Zdigits2 (Z.pos b))%Z as Hd.
      { rewrite !Zdigits2_log2. pose proof (Z.log2_le_mono _ _ Hab). lia. }
      lia. }
    replace (Z.sub (Z.sub 0 0) e') with (- e')%Z by lia.
    destruct (- e')%Z as [|t|t] eqn:Ht; try lia.
    rewrite div_eucl_div_mod, Z.shiftl_mul_pow2 by lia.
    apply binary_round_aux_no_overflow; [done|].
    replace (- e')%Z with (Z.pos t) by lia. split.
    - apply Z.div_pos; lia.
    - apply Z.div_le_upper_bound; [lia|]. nia. }
  destruct (SFdiv _ _ _ _) as [| s | |] eqn:Hq; eauto.
  by destruct (Hfin s).
Qed.

End NoOverflow.

(* ===================================================================== *)
(** * The rounding error of the pass rate *)
(* ===================================================================== *)

Section RoundingError.

#[local] Open Scope Z_scope.

Lemma shr_1_half mrs : 0 <= shr_m mrs -> shr_m (shr_1 mrs) = shr_m mrs / 2.
Proof.
  destruct mrs as [m r s]. destruct m as [|[p|p|]|]; cbn [shr_1 shr_m]; intros Hm;
    try done; try lia.
  - rewrite Pos2Z.inj_xI. apply Z.div_unique with (r := 1); lia.
  - rewrite Pos2Z.inj_xO. apply Z.div_unique with (r := 0); lia.
Qed.

Lemma iter_shr_1_div k mrs :
  0 <= shr_m mrs -> shr_m (SpecFloat.iter_pos shr_1 k mrs) = shr_m mrs / 2 ^ Z.pos k.
Proof.
  revert mrs. induction k as [k IH|k IH|]; intros mrs Hm; simpl SpecFloat.iter_pos.
  - pose proof (shr_1_bounds mrs Hm) as H1.
    pose proof (iter_shr_1_bounds k (shr_1 mrs) ltac:(lia)) as H2.
    rewrite IH, IH, shr_1_half by lia.
    rewrite !Z.div_div by lia. f_equal.
    rewrite Pos2Z.inj_xI, Z.pow_add_r, Z.pow_mul_r by lia.
    change (2 ^ 2) with 4. rewrite Z.pow_1_r.
    replace (2 ^ Z.pos k * 2 ^ Z.pos k) with ((2 ^ Z.pos k) ^ 2) by (rewrite Z.pow_2_r; lia).
    rewrite <- !Z.pow_mul_r by lia. rewrite (Z.mul_comm (Z.pos k) 2).
    rewrite Z.pow_mul_r by lia. change (2 ^ 2) with 4. lia.
  - pose proof (iter_shr_1_bounds k mrs Hm) as H2.
    rewrite IH, IH by lia. rewrite Z.div_div by lia. f_equal.
    rewrite Pos2Z.inj_xO. rewrite <- Z.pow_add_r by lia. f_equal. lia.
  - rewrite shr_1_half by done. by rewrite Z.pow_1_r.
Qed.

Lemma shr_fexp_div m e l :
  0 <= m ->
  (shr_fexp Validator.prec Validator.emax m e l).2
  = Z.max e (fexp Validator.prec Validator.emax (Zdigits2 m + e))
  /\ shr_m (shr_fexp Validator.prec Validator.emax m e l).1
     = m / 2 ^ ((shr_fexp Validator.prec Validator.emax m e l).2 - e).
Proof.
  intros Hm. unfold shr_fexp, shr.
  assert (shr_m (shr_record_of_loc m l) = m) as Hrec by by destruct l as [|[]].
  destruct (fexp Validator.prec Validator.emax (Zdigits2 m + e) - e) as [|p|p] eqn:Hn;
    simpl.
  - rewrite Hrec, Z.sub_diag, Z.div_1_r. lia.
  - rewrite iter_shr_1_div, Hrec by lia. split; [lia|]. f_equal. f_equal. lia.
  - rewrite Hrec, Z.sub_diag, Z.div_1_r. lia.
Qed.

(** Rounding [mx * 2^ex], a number of at most [2^(c + 52)]: the result is
    zero or a finite double [m2 * 2^e2] with [e2 <= c], off by at most two
    units of its last place. *)
Lemma binary_round_aux_error sx mx ex lx c :
  0 <= mx -> ex <= c -> -1074 <= c <= 970 -> mx <= 2 ^ (c + 52 - ex) ->
  exists m2 e2,
    binary_round_aux Validator.prec Validator.emax sx mx ex lx
    = match m2 with
      | Z.pos m => S754_finite sx m e2
      | _ => S754_zero sx
      end
    /\ 0 <= m2 /\ ex <= e2 <= c
    /\ Z.abs (m2 * 2 ^ (e2 - ex) - mx) <= 2 * 2 ^ (e2 - ex).
Proof.
  intros Hmx Hex Hc Hle. unfold binary_round_aux.
  destruct (shr_fexp_div mx ex lx Hmx) as [He1 Hm1].
  destruct (shr_fexp Validator.prec Validator.emax mx ex lx) as [mrs1 e1].
  cbn [fst snd] in He1, Hm1.
  set (m1 := shr_m mrs1) in *.
  set (mr := round_nearest_even m1 (loc_of_shr_record mrs1)).
  pose proof (round_nearest_even_bounds m1 (loc_of_shr_record mrs1)) as Hmr. fold mr in Hmr.
  assert (ex <= e1) as Hex1 by lia.
  set (A := 2 ^ (e1 - ex)) in *.
  assert (0 < A) as HA by (apply Z.pow_pos_nonneg; lia).
  assert (A * m1 <= mx < A * (m1 + 1)) as Hfloor1.
  { rewrite Hm1. split; [apply Z.mul_div_le; lia|].
    replace (A * (mx / A + 1)) with (A * Z.succ (mx / A)) by lia.
    apply Z.mul_succ_div_gt; lia. }
  assert (0 <= m1) as Hm1pos by (rewrite Hm1; apply Z.div_pos; lia).
  assert (2 ^ (c + 52 - ex) * 2 = 2 ^ (c + 53 - ex)) as Hpow1.
  { replace (c + 53 - ex) with (c + 52 - ex + 1) by lia.
    rewrite Z.pow_add_r by lia. lia. }
  assert (Zdigits2 mx <= c + 53 - ex) as Hd1 by (apply Zdigits2_le; lia).
  assert (e1 <= c) as He1c.
  { pose proof (fexp_le (Zdigits2 mx + ex) (c + 53) ltac:(lia) ltac:(lia)). lia. }
  assert (2 ^ (c + 52 - ex) = 2 ^ (c + 52 - e1) * A) as Hsplit.
  { subst A. rewrite <- Z.pow_add_r by lia. f_equal. lia. }
  assert (m1 <= 2 ^ (c + 52 - e1)) as Hm1le by nia.
  assert (2 <= 2 ^ (c + 52 - e1)) as Htwo.
  { change 2 with (2 ^ 1) at 1. apply Z.pow_le_mono_r; lia. }
  assert (2 ^ (c + 52 - e1) * 2 = 2 ^ (c + 53 - e1)) as Hpow2.
  { replace (c + 53 - e1) with (c + 52 - e1 + 1) by lia.
    rewrite Z.pow_add_r by lia. lia. }
  destruct (shr_fexp_div mr e1 loc_Exact ltac:(lia)) as [He2 Hm2].
  destruct (shr_fexp Validator.prec Validator.emax mr e1 loc_Exact) as [mrs2 e2].
  cbn [fst snd] in He2, Hm2.
  set (m2 := shr_m mrs2) in *.
  assert (e1 <= e2) as He12 by lia.
  assert (Zdigits2 mr <= c + 53 - e1) as Hd2 by (apply Zdigits2_le; lia).
  assert (e2 <= c) as He2c.
  { pose proof (fexp_le (Zdigits2 mr + e1) (c + 53) ltac:(lia) ltac:(lia)). lia. }
  set (B := 2 ^ (e2 - e1)) in *.
  assert (0 < B) as HB by (apply Z.pow_pos_nonneg; lia).
  assert (B * m2 <= mr < B * (m2 + 1)) as Hfloor2.
  { rewrite Hm2. split; [apply Z.mul_div_le; lia|].
    replace (B * (mr / B + 1)) with (B * Z.succ (mr / B)) by lia.
    apply Z.mul_succ_div_gt; lia. }
  assert (0 <= m2) as Hm2pos by (rewrite Hm2; apply Z.div_pos; lia).
  assert (2 ^ (e2 - ex) = A * B) as HAB.
  { subst A B. rewrite <- Z.pow_add_r by lia. f_equal. lia. }
  exists m2, e2. split.
  { destruct m2 as [|m|m]; [done| |lia].
    destruct (Z.leb_spec e2 (Validator.emax - Validator.prec)) as [|Hgt]; [done|].
    unfold Validator.emax, Validator.prec in Hgt. lia. }
  split; [done|]. split; [lia|].
  rewrite HAB. apply Z.abs_le. split.
  - assert (A * (B * (m2 + 1)) > A * mr) by nia.
    assert (A * mr >= A * m1) by nia. nia.
  - assert (A * (B * m2) <= A * mr) by nia.
    assert (A * mr <= A * (m1 + 1)) by nia. nia.
Qed.

(** The quotient of two counters, the first at most the second: a double
    [m2 * 2^e2], at most three units of its last place from the quotient
    of the integers. *)
Lemma int_truediv_error (p n : nat) :
  (p <= n)%nat -> (0 < n)%nat ->
  exists m2 e2,
    Validator.int_truediv p n
    = Ok (match m2 with
          | Z.pos m => S754_finite false m e2
          | _ => S754_zero false
          end)
    /\ 0 <= m2 /\ -1074 <= e2 <= -52
    /\ Z.abs (m2 * 2 ^ (e2 + 1200) * Z.of_nat n - Z.of_nat p * 2 ^ 1200)
       <= 3 * Z.of_nat n * 2 ^ (e2 + 1200)
    /\ m2 <= 2 ^ (- e2) + 2.
Proof.
  intros Hle Hn. unfold Validator.int_truediv.
  destruct (Z.of_nat n) as [|b|b] eqn:Hb; try lia.
  destruct (Z.of_nat p) as [|a|a] eqn:Ha; try lia.
  { exists 0, (-52). simpl. repeat split; try lia. }
  assert (Z.pos a <= Z.pos b) as Hab by lia.
  unfold SFdiv, SFdiv_core_binary.
  set (e' := Z.min _ _).
  assert (-1074 <= e' <= -53) as He'.
  { subst e'. unfold fexp, emin, Validator.prec, Validator.emax.
    assert (Zdigits2 (Z.pos a) <= Zdigits2 (Z.pos b)) as Hd.
    { rewrite !Zdigits2_log2. pose proof (Z.log2_le_mono _ _ Hab). lia. }
    lia. }
  replace (Z.sub (Z.sub 0 0) e') with (- e') by lia.
  destruct (- e') as [|t|t] eqn:Ht; try lia.
  rewrite div_eucl_div_mod, Z.shiftl_mul_pow2 by lia.
  set (T := 2 ^ Z.pos t). set (q := Z.pos a * T / Z.pos b).
  assert (0 < T) as HT by (apply Z.pow_pos_nonneg; lia).
  assert (Z.pos b * q <= Z.pos a * T < Z.pos b * (q + 1)) as Hfloor.
  { subst q. split; [apply Z.mul_div_le; lia|].
    replace (Z.pos b * (Z.pos a * T / Z.pos b + 1))
      with (Z.pos b * Z.succ (Z.pos a * T / Z.pos b)) by lia.
    apply Z.mul_succ_div_gt; lia. }
  assert (0 <= q) as Hq by (apply Z.div_pos; lia).
  assert (q <= T) as HqT by (apply Z.div_le_upper_bound; [lia|nia]).
  cbv beta iota zeta. fold T. fold q. cbn [xorb].
  set (lz := new_location _ _).
  destruct (binary_round_aux_error false q e' lz (-52))
    as (m2 & e2 & Hround & Hm2 & He2 & Herr); try lia.
  { replace (-52 + 52 - e') with (Z.pos t) by lia. done. }
  exists m2, e2.
  split.
  { rewrite Hround. by destruct m2. }
  split; [done|]. split; [lia|].
  set (D := 2 ^ (e2 - e')) in *.
  assert (0 < D) as HD by (apply Z.pow_pos_nonneg; lia).
  set (W := 2 ^ (e' + 1200)).
  assert (0 < W) as HW by (apply Z.pow_pos_nonneg; lia).
  assert (2 ^ (e2 + 1200) = D * W) as HU.
  { subst D W. rewrite <- Z.pow_add_r by lia. f_equal. lia. }
  assert (2 ^ 1200 = T * W) as HS.
  { subst T W. rewrite <- Z.pow_add_r by lia. f_equal. lia. }
  assert (T = 2 ^ (- e2) * D) as HTD.
  { subst T D. rewrite <- Z.pow_add_r by lia. f_equal. lia. }
  apply Z.abs_le in Herr. split.
  - rewrite HU, HS. apply Z.abs_le.
    assert (m2 * D * Z.pos b - Z.pos a * T <= 2 * D * Z.pos b) by nia.
    assert (- (2 * D * Z.pos b) - Z.pos b <= m2 * D * Z.pos b - Z.pos a * T) by nia.
    split; nia.
  - assert (m2 * D <= (2 ^ (- e2) + 2) * D) by nia. nia.
Qed.

(** The pass rate of a validator with entries, of which at most all have
    passed: a double within [2^-42] of [100 * passed / entries]. *)
Lemma pass_rate_error (self : Validator.t) :
  Validator._total_entries self ≠ 0%nat ->
  (Validator._total_passed self <= Validator._total_entries self)%nat ->
  exists r,
    Validator.pass_rate self = Ok r
    /\ Validator.within_rounding r
         (100 * Z.of_nat (Validator._total_passed self))
         (Z.of_nat (Validator._total_entries self)).
Proof.
  intros Hnz Hle. unfold Validator.pass_rate.
  destruct (Nat.eqb_spec (Validator._total_entries self) 0) as [|_]; [done|].
  destruct (int_truediv_error _ _ Hle ltac:(lia))
    as (m2 & e2 & -> & Hm2 & He2 & Herr & Hmle).
  set (n := Z.of_nat (Validator._total_entries self)) in *.
  set (p := Z.of_nat (Validator._total_passed self)) in *.
  assert (0 < n) as Hn by lia. assert (0 <= p) as Hp by lia.
  change (Validator.float_of_Z 100) with (S754_finite false 7036874417766400 (-46)).
  set (P := 2 ^ 1148).
  assert (0 < P) as HP by (apply Z.pow_pos_nonneg; lia).
  assert (2 ^ 1200 = P * 4503599627370496) as HS.
  { subst P. change 4503599627370496 with (2 ^ 52). by rewrite <- Z.pow_add_r. }
  set (U := 2 ^ (e2 + 1200)) in *.
  assert (0 < U <= P) as HU.
  { split; [apply Z.pow_pos_nonneg; lia|apply Z.pow_le_mono_r; lia]. }
  apply Z.abs_le in Herr.
  destruct m2 as [|m|m]; [| |lia].
  - exists (S754_zero false). split; [done|]. exists 0. split; [done|].
    rewrite HS in *. change (2 ^ 42) with 4398046511104.
    assert (U * n <= P * n) as HUn by (apply Z.mul_le_mono_nonneg_r; lia).
    assert (p * 4503599627370496 <= 3 * n) as Hsmall by nia.
    apply Z.lt_le_incl, Z.abs_lt. nia.
  - cbn [mbind res_bind SFmul xorb].
    assert (2 <= 2 ^ (- e2)) as Htwo.
    { change 2 with (2 ^ 1) at 1. apply Z.pow_le_mono_r; lia. }
    destruct (binary_round_aux_error false (Z.pos (m * 7036874417766400)) (e2 + -46)
                loc_Exact (-44)) as (m3 & e3 & -> & Hm3 & He3 & Herr3); try lia.
    { replace (-44 + 52 - (e2 + -46)) with (- e2 + 54) by lia.
      rewrite Z.pow_add_r, Pos2Z.inj_mul by lia.
      change (2 ^ 54) with (2 * 9007199254740992).
      assert (Z.pos m * 7036874417766400 <= 2 * 2 ^ (- e2) * 7036874417766400) by nia.
      nia. }
    eexists. split; [reflexivity|].
    exists (m3 * 2 ^ (e3 + 1200)). split.
    { destruct m3 as [|m'|m']; [done| |lia]. unfold Validator.scaled.
      destruct (Z.leb_spec (-1200) e3); [done|lia]. }
    set (X := 2 ^ (e2 + 1154)).
    assert (0 < X) as HX by (apply Z.pow_pos_nonneg; lia).
    set (E := 2 ^ (e3 - (e2 + -46))) in *.
    assert (0 < E) as HE by (apply Z.pow_pos_nonneg; lia).
    assert (2 ^ (e3 + 1200) = E * X) as HEX.
    { subst E X. rewrite <- Z.pow_add_r by lia. f_equal. lia. }
    assert (U = 70368744177664 * X) as HUX.
    { subst U X. change 70368744177664 with (2 ^ 46).
      rewrite <- Z.pow_add_r by lia. f_equal. lia. }
    assert (E * X <= 256 * P) as HEXP.
    { rewrite <- HEX. subst P. change 256 with (2 ^ 8).
      rewrite <- Z.pow_add_r by lia. apply Z.pow_le_mono_r; lia. }
    rewrite Pos2Z.inj_mul in Herr3. apply Z.abs_le in Herr3.
    rewrite HEX, HS. change (2 ^ 42) with 4398046511104.
    assert (E * X * n <= 256 * (P * n)) as H1 by nia.
    assert (U * n <= P * n) as H2 by nia.
    assert (Z.abs (m3 * (E * X) * n - 100 * p * (P * 4503599627370496))
            <= 2 * (E * X * n) + 300 * (U * n)) as Hsum.
    { rewrite HS in Herr. apply Z.abs_le.
      assert (m3 * (E * X) * n - 100 * p * (P * 4503599627370496)
              = (m3 * E - Z.pos m * 7036874417766400) * (X * n)
                + 100 * (Z.pos m * U * n - p * (P * 4503599627370496))) as ->.
      { rewrite HUX. ring. }
      assert (0 < X * n) by nia.
      assert (- (2 * E) * (X * n) <= (m3 * E - Z.pos m * 7036874417766400) * (X * n)
              <= 2 * E * (X * n)) by nia.
      nia. }
    nia.
Qed.

End RoundingError.

Section ReportTwice.
Context `{!Builtins}.

(** What a successful [get_report] did to the world and what it returned. *)
Lemma get_report_inv self now rules_file input_file w r w1 :
  Validator.get_report self now rules_file input_file w = Some (Ok r, w1) ->
  exists rate d1 d2,
    Validator.pass_rate self = Ok rate
    /\ heap w !! Validator._violations_by_rule self = Some (OCounts d1)
    /\ <[fresh (dom (heap w)) := OCounts d1]> (heap w)
         !! Validator._violations_by_severity self = Some (OCounts d2)
    /\ w1 = mkWorld
              (<[fresh (dom (<[fresh (dom (heap w)) := OCounts d1]> (heap w)))
                 := OCounts d2]>
                 (<[fresh (dom (heap w)) := OCounts d1]> (heap w)))
              (trace w)
    /\ r = ValidationReport.mk
             (Validator._total_entries self) (Validator._total_passed self)
             (Validator._total_violations self) rate
             (fresh (dom (heap w)))
             (fresh (dom (<[fresh (dom (heap w)) := OCounts d1]> (heap w))))
             (Validator._robot_summaries self) (Validator._all_violations self)
             (now +:+ "Z") rules_file input_file.
Proof.
  unfold Validator.get_report.
  destruct (Validator.pass_rate self) as [rate|e]; [|done].
  unfold load_counts, load, alloc, mbind, M_bind, mret, M_ret. simpl.
  destruct (heap w !! Validator._violations_by_rule self) as [[d1| | |]|] eqn:H1; try done.
  simpl.
  destruct (<[fresh (dom (heap w)) := OCounts d1]> (heap w)
              !! Validator._violations_by_severity self) as [[d2| | |]|] eqn:H2; try done.
  simpl. intros [= <- <-]. exists rate, d1, d2. by repeat split.
Qed.

Lemma lookup_alloc (h : gmap loc PyObj) (l : loc) (o o' : PyObj) :
  h !! l = Some o -> <[fresh (dom h) := o']> h !! l = Some o.
Proof. intros Hl. rewrite lookup_insert_ne; [done|]. symmetry. by eapply fresh_lookup_ne. Qed.

Lemma lookup_alloc_new (h : gmap loc PyObj) (o : PyObj) :
  <[fresh (dom h) := o]> h !! fresh (dom h) = Some o.
Proof. by rewrite lookup_insert_eq. Qed.

(** C2, as the code has it.  A second [get_report] on the same validator,
    with the same file names and no entry validated in between, succeeds
    whenever the first one did; it leaves the field values of the first
    report as they were, and the field values of the second report are
    those of the first but for [generated_at], which is the reading of the
    clock at each call. *)
Theorem get_report_twice (self : Validator.t) (w w1 : World)
    (now1 now2 rules_file input_file : string)
    (r1 : ValidationReport.t) (f1 : ValidationReport.Fields) :
  Validator.get_report self now1 rules_file input_file w = Some (Ok r1, w1) ->
  ValidationReport.read w1 r1 = Some f1 ->
  exists r2 w2,
    Validator.get_report self now2 rules_file input_file w1 = Some (Ok r2, w2)
    /\ ValidationReport.read w2 r1 = Some f1
    /\ ValidationReport.read w2 r2
       = Some (ValidationReport.with_generated_at (now2 +:+ "Z") f1)
    /\ ValidationReport.f_generated_at f1 = now1 +:+ "Z".
Proof.
  intros Hrun Hread.
  destruct (get_report_inv _ _ _ _ _ _ _ Hrun)
    as (rate & d1 & d2 & Hrate & HBR & HBS & -> & ->).
  set (h := heap w) in *. set (l1 := fresh (dom h)) in *.
  set (h1 := <[l1 := OCounts d1]> h) in *. set (l2 := fresh (dom h1)) in *.
  set (h2 := <[l2 := OCounts d2]> h1) in *.
  assert (h1 !! l1 = Some (OCounts d1)) as Hl1 by apply lookup_alloc_new.
  assert (h2 !! l1 = Some (OCounts d1)) as Hl1' by by apply lookup_alloc.
  assert (h2 !! l2 = Some (OCounts d2)) as Hl2 by apply lookup_alloc_new.
  unfold ValidationReport.read in Hread. simpl in Hread. rewrite Hl1', Hl2 in Hread.
  destruct (h2 !! Validator._robot_summaries self) as [[|sm| |]|] eqn:HS; try done.
  destruct (h2 !! Validator._all_violations self) as [[| |vs|]|] eqn:HA; try done.
  injection Hread as <-.
  set (l3 := fresh (dom h2)). set (h3 := <[l3 := OCounts d1]> h2).
  set (l4 := fresh (dom h3)). set (h4 := <[l4 := OCounts d2]> h3).
  assert (h2 !! Validator._violations_by_rule self = Some (OCounts d1)) as HBR2.
  { apply lookup_alloc. by apply lookup_alloc. }
  assert (h3 !! Validator._violations_by_severity self = Some (OCounts d2)) as HBS3.
  { apply lookup_alloc. by apply lookup_alloc. }
  exists (ValidationReport.mk
            (Validator._total_entries self) (Validator._total_passed self)
            (Validator._total_violations self) rate l3 l4
            (Validator._robot_summaries self) (Validator._all_violations self)
            (now2 +:+ "Z") rules_file input_file),
    (mkWorld h4 (trace w)).
  split.
  { unfold Validator.get_report. rewrite Hrate.
    unfold load_counts, load, alloc, mbind, M_bind, mret, M_ret. simpl.
    rewrite HBR2. simpl. fold l3. fold h3. rewrite HBS3. done. }
  assert (forall l, ValidationReport.deref_summary (mkWorld h4 (trace w)) l
                    = ValidationReport.deref_summary (mkWorld h2 (trace w)) l) as Hderef.
  { intros l. subst h4 l4. rewrite (deref_summary_alloc_counts h3 _ (trace w)).
    subst h3 l3. by rewrite (deref_summary_alloc_counts h2 _ (trace w)). }
  assert (omap (ValidationReport.deref_summary (mkWorld h4 (trace w))) sm
          = omap (ValidationReport.deref_summary (mkWorld h2 (trace w))) sm) as Homap.
  { apply omap_ext. intros ? ? _. apply Hderef. }
  unfold ValidationReport.read, ValidationReport.with_generated_at. simpl.
  assert (h4 !! l1 = Some (OCounts d1)) as -> by by do 2 apply lookup_alloc.
  assert (h4 !! l2 = Some (OCounts d2)) as -> by by do 2 apply lookup_alloc.
  assert (h4 !! l3 = Some (OCounts d1)) as ->
    by (apply lookup_alloc; apply lookup_alloc_new).
  assert (h4 !! l4 = Some (OCounts d2)) as -> by apply lookup_alloc_new.
  assert (h4 !! Validator._robot_summaries self = Some (OSummaries sm)) as ->
    by by do 2 apply lookup_alloc.
  assert (h4 !! Validator._all_violations self = Some (OViolations vs)) as ->
    by by do 2 apply lookup_alloc.
  rewrite Homap. done.
Qed.

End ReportTwice.

Section ReportContent.
Context `{!Builtins}.

Import Abstract.

Lemma pass_rate_returns (self : Validator.t) :
  Validator._total_passed self <= Validator._total_entries self ->
  exists rate, Validator.pass_rate self = Ok rate.
Proof.
  intros Hle. unfold Validator.pass_rate.
  destruct (Nat.eqb_spec (Validator._total_entries self) 0) as [|Hnz]; [eauto|].
  destruct (int_truediv_le _ _ Hle ltac:(lia)) as [q ->]. simpl. eauto.
Qed.

(** Reading a report whose two shared containers are those of a validator
    that holds [a]. *)
Lemma read_represents self w a r d1 d2 :
  represents self w a ->
  ValidationReport.robot_summaries r = Validator._robot_summaries self ->
  ValidationReport.violations r = Validator._all_violations self ->
  heap w !! ValidationReport.violations_by_rule r = Some (OCounts d1) ->
  heap w !! ValidationReport.violations_by_severity r = Some (OCounts d2) ->
  ValidationReport.read w r
  = Some (ValidationReport.mkFields
            (ValidationReport.total_entries r) (ValidationReport.total_passed r)
            (ValidationReport.total_violations r) (ValidationReport.pass_rate r)
            d1 d2
            (map_imap (fun robot '(n, vs) => Some (summary robot n vs)) (robots a))
            (viols a)
            (ValidationReport.generated_at r) (ValidationReport.rules_file r)
            (ValidationReport.input_file r)).
Proof.
  intros [_ _ _ _ _ _ Hall (sm & Hsm & Hagree)] HS HA H1 H2.
  unfold ValidationReport.read. rewrite H1, H2, HS, HA, Hsm, Hall.
  f_equal. f_equal. apply map_eq. intros robot.
  rewrite lookup_omap, map_lookup_imap.
  pose proof (Hagree robot) as Hr.
  destruct (sm !! robot) as [l|], (robots a !! robot) as [[n vs]|]; try done.
  simpl. unfold ValidationReport.deref_summary. by rewrite Hr.
Qed.

Lemma owned_allocated self w a l :
  represents self w a -> owned self w l -> is_Some (heap w !! l).
Proof.
  intros [_ _ _ Hbr Hbs _ Hall (sm & Hsm & Hagree)] Hown.
  destruct Hown as [->|[->|[->|[->|(sm' & robot & Hsm' & Hl)]]]]; eauto.
  rewrite Hsm in Hsm'. injection Hsm' as <-.
  pose proof (Hagree robot) as Hr. rewrite Hl in Hr.
  destruct (robots a !! robot) as [[n vs]|]; [eauto|done].
Qed.

(** What [get_report] returns on a validator that holds [a]: the counters
    of [a], two new dictionaries that the validator does not own, and the
    validator's own summary map and violation list. *)
Lemma get_report_represents self w a now rules_file input_file :
  represents self w a ->
  passed a <= entries a ->
  exists l1 l2 w' rate,
    Validator.get_report self now rules_file input_file w
    = Some (Ok (ValidationReport.mk (entries a) (passed a) (length (viols a)) rate
                  l1 l2 (Validator._robot_summaries self) (Validator._all_violations self)
                  (now +:+ "Z") rules_file input_file), w')
    /\ Validator.pass_rate self = Ok rate
    /\ represents self w' a
    /\ trace w' = trace w
    /\ heap w' !! l1 = Some (OCounts (count_keys (Violation.rule_id <$> viols a)))
    /\ heap w' !! l2
       = Some (OCounts (count_keys
                          ((fun v => Severity.value (Violation.severity v)) <$> viols a)))
    /\ ~ owned self w' l1
    /\ ~ owned self w' l2.
Proof.
  intros Hrep Hle.
  pose proof Hrep as [He Hp Hv Hbr Hbs Hne Hall (sm & Hsm & Hagree)].
  destruct (pass_rate_returns self ltac:(lia)) as [rate Hrate].
  set (h := heap w) in *. set (l1 := fresh (dom h)).
  set (h1 := <[l1 := OCounts (count_keys (Violation.rule_id <$> viols a))]> h).
  set (l2 := fresh (dom h1)).
  set (h2 := <[l2 := OCounts (count_keys ((fun v => Severity.value (Violation.severity v))
                                             <$> viols a))]> h1).
  assert (forall l o, h !! l = Some o -> h2 !! l = Some o) as Hkeep.
  { intros l o Hl. by do 2 apply lookup_alloc. }
  assert (represents self (mkWorld h2 (trace w)) a) as Hrep2.
  { constructor; simpl; try done; try by apply Hkeep.
    exists sm. split; [by apply Hkeep|].
    intros robot. pose proof (Hagree robot) as Hr.
    destruct (sm !! robot) as [l|], (robots a !! robot) as [[n vs]|]; try done.
    by apply Hkeep. }
  assert (forall l, owned self (mkWorld h2 (trace w)) l -> is_Some (h !! l)) as Hown.
  { intros l Hl. apply (owned_allocated self w a l Hrep).
    destruct Hl as [->|[->|[->|[->|(sm' & robot & Hsm' & Hl)]]]]; unfold owned; try tauto.
    do 4 right. exists sm, robot. split; [done|].
    simpl in Hsm'. rewrite (Hkeep _ _ Hsm) in Hsm'. by injection Hsm' as <-. }
  exists l1, l2, (mkWorld h2 (trace w)), rate.
  split.
  { unfold Validator.get_report. rewrite Hrate.
    unfold load_counts, load, alloc, mbind, M_bind, mret, M_ret. simpl.
    fold h. rewrite Hbr. simpl. fold l1. fold h1.
    rewrite (lookup_alloc h _ _ _ Hbs). simpl. by rewrite He, Hp, Hv. }
  split; [done|]. split; [done|]. split; [done|].
  split; [apply lookup_alloc; apply lookup_alloc_new|].
  split; [apply lookup_alloc_new|].
  split.
  - intros [o Ho]%Hown. by apply (fresh_lookup_ne h l1 o).
  - intros [o Ho]%Hown.
    apply (fresh_lookup_ne h1 l2 o); [|done]. by apply lookup_alloc.
Qed.

(** The report and a later entry, in general.  A report taken when the
    validator holds [a] and read after one more entry has been validated
    shows the counters and the two counter dictionaries of [a], and the
    robot summaries and the violation list of the state after the entry. *)
Lemma report_read_after_later_entry self w a now rules_file input_file entry :
  represents self w a ->
  passed a <= entries a ->
  let a' := step (LogEntry.robot_id entry)
              (RuleEngine.validate_entry (Validator.rule_engine self) entry) a in
  exists r w1 result self' w2 rate,
    Validator.get_report self now rules_file input_file w = Some (Ok r, w1)
    /\ Validator.validate_entry self entry w1 = Some (result, self', w2)
    /\ ValidationReport.read w1 r
       = Some (ValidationReport.mkFields
                 (entries a) (passed a) (length (viols a)) rate
                 (count_keys (Violation.rule_id <$> viols a))
                 (count_keys ((fun v => Severity.value (Violation.severity v)) <$> viols a))
                 (map_imap (fun robot '(n, vs) => Some (summary robot n vs)) (robots a))
                 (viols a) (now +:+ "Z") rules_file input_file)
    /\ ValidationReport.read w2 r
       = Some (ValidationReport.mkFields
                 (entries a) (passed a) (length (viols a)) rate
                 (count_keys (Violation.rule_id <$> viols a))
                 (count_keys ((fun v => Severity.value (Violation.severity v)) <$> viols a))
                 (map_imap (fun robot '(n, vs) => Some (summary robot n vs)) (robots a'))
                 (viols a') (now +:+ "Z") rules_file input_file).
Proof.
  intros Hrep Hle a'.
  destruct (get_report_represents self w a now rules_file input_file Hrep Hle)
    as (l1 & l2 & w1 & rate & Hget & _ & Hrep1 & _ & Hl1 & Hl2 & Hown1 & Hown2).
  destruct (validate_entry_represents self w1 a entry Hrep1)
    as (self' & w2 & Hval & Hrep2 & Hso & _ & Hframe).
  destruct Hso as (_ & _ & _ & _ & _ & HS & HA).
  set (r := ValidationReport.mk _ _ _ _ _ _ _ _ _ _ _) in Hget.
  pose proof (read_represents self w1 a r _ _ Hrep1 eq_refl eq_refl Hl1 Hl2) as R1.
  pose proof (read_represents self' w2 a' r _ _ Hrep2 (eq_sym HS) (eq_sym HA)
                (Hframe _ _ Hl1 Hown1) (Hframe _ _ Hl2 Hown2)) as R2.
  exists r, w1, (Run.result_of (Validator.rule_engine self) entry), self', w2, rate.
  done.
Qed.

(** After any run of a new validator [get_report] returns a report, and the
    report reads as the entries of the run. *)
Lemma get_report_after_run engine on_violation on_entry es w now rules_file input_file :
  exists results self w0 r w1 f,
    Run.run engine on_violation on_entry es w = Some (results, self, w0)
    /\ Validator.get_report self now rules_file input_file w0 = Some (Ok r, w1)
    /\ ValidationReport.read w1 r = Some f
    /\ ValidationReport.f_total_entries f = length es
    /\ ValidationReport.f_total_violations f = length (Run.violations_of engine es)
    /\ ValidationReport.f_violations f = Run.violations_of engine es
    /\ ValidationReport.f_generated_at f = now +:+ "Z".
Proof.
  destruct (run_represents engine on_violation on_entry es w)
    as (results & self & w0 & Hrun & Hrep & _ & _).
  destruct (state_after_fields engine es init) as (He & Hp & Hv & _).
  destruct (get_report_represents self w0 _ now rules_file input_file Hrep)
    as (l1 & l2 & w1 & rate & Hget & _ & Hrep1 & _ & Hl1 & Hl2 & _).
  { rewrite He, Hp. simpl. apply passing_le. }
  set (r := ValidationReport.mk _ _ _ _ _ _ _ _ _ _ _) in Hget.
  pose proof (read_represents self w1 _ r _ _ Hrep1 eq_refl eq_refl Hl1 Hl2) as Hread.
  eexists results, self, w0, r, w1, _.
  split; [done|]. split; [exact Hget|]. split; [exact Hread|]. simpl.
  rewrite He, Hv. done.
Qed.

End ReportContent.

Section PassRate.
Context `{!Builtins}.

Import Abstract.

(** The counters after a run of a new validator. *)
Lemma run_counters engine on_violation on_entry es w :
  exists results self w',
    Run.run engine on_violation on_entry es w = Some (results, self, w')
    /\ Validator.total_entries self = length es
    /\ Validator._total_passed self = length (Run.passing engine es)
    /\ Validator.total_violations self = length (Run.violations_of engine es).
Proof.
  destruct (run_represents engine on_violation on_entry es w)
    as (results & self & w' & Hrun & [He Hp Hv _ _ _ _ _] & _ & _).
  destruct (state_after_fields engine es init) as (He' & Hp' & Hv' & _).
  exists results, self, w'. unfold Validator.total_entries, Validator.total_violations.
  rewrite He, Hp, Hv, He', Hp', Hv'. done.
Qed.

(** After a run over at least one entry the pass rate is a double within
    [2^-42] of the percentage of the entries without a violation. *)
Lemma run_pass_rate engine on_violation on_entry es w :
  es ≠ [] ->
  exists results self w' r,
    Run.run engine on_violation on_entry es w = Some (results, self, w')
    /\ Validator.pass_rate self = Ok r
    /\ Validator.within_rounding r
         (100 * Z.of_nat (length (Run.passing engine es))) (Z.of_nat (length es)).
Proof.
  intros Hes.
  destruct (run_counters engine on_violation on_entry es w)
    as (results & self & w' & Hrun & He & Hp & _).
  unfold Validator.total_entries in He.
  pose proof (passing_le engine es) as Hle.
  destruct (pass_rate_error self) as (r & Hr & Hclose).
  { rewrite He. by destruct es. }
  { lia. }
  exists results, self, w', r. by rewrite He, Hp in Hclose.
Qed.

(** C8, as the code has it.  [pass_rate] is [100.0] when no entry has been
    validated.  Otherwise it is the double nearest to
    [total_passed / total_entries], multiplied by [100.0] in double
    arithmetic; with [total_passed <= total_entries], as in every state a
    validator reaches, that is a double within [2^-42] of
    [100 * total_passed / total_entries]: exactly [100.0] when every entry
    passed and exactly [0.0] when none did. *)
Theorem pass_rate_value (self : Validator.t) :
  (Validator._total_entries self = 0 ->
   Validator.pass_rate self = Ok (S754_finite false 7036874417766400 (-46)))
  /\ (Validator._total_entries self ≠ 0 ->
      Validator.pass_rate self
      = q ← Validator.int_truediv (Validator._total_passed self)
              (Validator._total_entries self);
        Ok (SFmul Validator.prec Validator.emax q (Validator.float_of_Z 100)))
  /\ (Validator._total_entries self ≠ 0 ->
      Validator._total_passed self <= Validator._total_entries self ->
      exists r,
        Validator.pass_rate self = Ok r
        /\ Validator.within_rounding r
             (100 * Z.of_nat (Validator._total_passed self))
             (Z.of_nat (Validator._total_entries self)))
  /\ (Validator._total_entries self ≠ 0 ->
      Validator._total_passed self = Validator._total_entries self ->
      Validator.pass_rate self = Ok (S754_finite false 7036874417766400 (-46)))
  /\ (Validator._total_entries self ≠ 0 ->
      Validator._total_passed self = 0 ->
      Validator.pass_rate self = Ok (S754_zero false)).
Proof.
  split; [|split; [|split; [apply pass_rate_error|]]].
  - unfold Validator.pass_rate. by intros ->.
  - unfold Validator.pass_rate.
    by destruct (Nat.eqb_spec (Validator._total_entries self) 0).
  - unfold Validator.pass_rate.
    destruct (Nat.eqb_spec (Validator._total_entries self) 0) as [Hz|Hnz]; [done|].
    split.
    + intros _ ->. by rewrite int_truediv_same by lia.
    + intros _ ->. by rewrite int_truediv_zero by lia.
Qed.

End PassRate.

(* ===================================================================== *)
(** * The sample runs *)
(* ===================================================================== *)

(** Scenario A, B and C of the specification, on the rules of the tests. *)
Example scenario_A :
  RuleEngine.evaluate_rule Sample.engine Sample.battery_min
    (Sample.entry 1 "2024-01-15T08:00:05Z" "ROBOT_001" 15 40)
  = Some (Violation.mk "battery_min" "Battery Minimum" Severity.WARNING
            "Battery below 20%" "2024-01-15T08:00:05Z" "ROBOT_001"
            "battery_level" (VInt 15) ">= 20" 1).
Proof. vm_compute. reflexivity. Qed.

Example scenario_B :
  (Violation.field <$> RuleEngine.evaluate_rule Sample.engine Sample.conditional_test
                         (Sample.moving_entry 5)) = Some "movement_state"
  /\ RuleEngine.evaluate_rule Sample.engine Sample.conditional_test
       (Sample.moving_entry 50) = None.
Proof. split; vm_compute; reflexivity. Qed.

Example scenario_C :
  (fun '(_, self, w) =>
     (Validator.total_entries self, Validator.total_violations self,
      RobotSummary.violations_count <$> Run.robot_summary self w "ROBOT_001",
      RobotSummary.violations_count <$> Run.robot_summary self w "ROBOT_002"))
    <$> Run.run Sample.engine false false Sample.sample_logs Sample.empty_world
  = Some (4, 4, Some 1, Some 3).
Proof. vm_compute. reflexivity. Qed.

(** C1 on the code.  A report is taken after one passing record and a
    second record, which violates a rule, is validated afterwards.  Read
    again, the report has gained a violation in [violations] and its
    summary of the robot has moved from one entry and no violation to two
    entries and one violation, while its [total_entries],
    [total_violations] and [violations_by_rule] still say what they said. *)
Theorem report_follows_later_entries :
  (fun '(before, after) =>
     (ValidationReport.f_total_entries before, ValidationReport.f_total_entries after,
      ValidationReport.f_total_violations before, ValidationReport.f_total_violations after,
      length (ValidationReport.f_violations before),
      length (ValidationReport.f_violations after),
      (fun s => (RobotSummary.total_entries s, RobotSummary.violations_count s,
                 RobotSummary.status s))
        <$> ValidationReport.f_robot_summaries before !! "ROBOT_001",
      (fun s => (RobotSummary.total_entries s, RobotSummary.violations_count s,
                 RobotSummary.status s))
        <$> ValidationReport.f_robot_summaries after !! "ROBOT_001",
      ValidationReport.f_violations_by_rule before !! "battery_min",
      ValidationReport.f_violations_by_rule after !! "battery_min"))
    <$> Sample.report_before_after
  = Some (1, 1, 0, 0, 0, 1,
          Some (1, 0, ValidationStatus.PASS), Some (2, 1, ValidationStatus.FAIL),
          None, None).
Proof. vm_compute. reflexivity. Qed.

(** C2 as stated fails: two reports of one validator taken a microsecond
    apart differ in [generated_at]. *)
Lemma get_report_twice_differs :
  match Sample.two_reports with
  | Some (f1, f2) => f1 <> f2
  | None => False
  end.
Proof.
  assert ((fun '(f1, f2) =>
             (ValidationReport.f_generated_at f1, ValidationReport.f_generated_at f2))
            <$> Sample.two_reports
          = Some ("2024-01-15T08:00:20.000001Z", "2024-01-15T08:00:20.000002Z")) as Hstamps
    by (vm_compute; reflexivity).
  destruct Sample.two_reports as [[f1 f2]|]; [|discriminate].
  intros ->. cbn in Hstamps. congruence.
Qed.

(** The distance [2^-42] tells the doubles apart: 33.33333333333333 is
    within it of 100/3, and 33.5 is not. *)
Example within_rounding_sample :
  Validator.within_rounding (S754_finite false 4691249611844266 (-47)) 100 3
  /\ ~ Validator.within_rounding (S754_finite false 4714705859903488 (-47)) 100 3.
Proof.
  split.
  - eexists. split; [reflexivity|]. vm_compute. discriminate.
  - intros (v & Hv & Hclose). injection Hv as <-. vm_compute in Hclose. by apply Hclose.
Qed.

(** C8 as stated fails: with one entry passed out of three the code returns
    33.33333333333333 (4691249611844266 * 2^-47), which is neither the
    double of [100 * 1 / 3] (4691249611844267 * 2^-47) nor the number
    100/3 itself. *)
Lemma pass_rate_not_as_specified :
  match Sample.after_three with
  | Some (self, _) =>
      Validator._total_passed self = 1
      /\ Validator._total_entries self = 3
      /\ Validator.pass_rate self = Ok (S754_finite false 4691249611844266 (-47))
      /\ Validator.pass_rate_as_specified self
         = Ok (S754_finite false 4691249611844267 (-47))
      /\ Validator.pass_rate self <> Validator.pass_rate_as_specified self
      /\ (4691249611844266 * 3 <> 100 * 2 ^ 47)%Z
  | None => False
  end.
Proof. vm_compute. repeat split; congruence. Qed.

(* ===================================================================== *)
(** * Witnesses: the theorems at the sample data *)
(* ===================================================================== *)

Lemma evaluate_rule_fail_open_witness :
  RuleEngine.evaluate_rule Sample.engine Sample.conditional_typo (Sample.moving_entry 5) = None.
Proof.
  apply (proj2 (proj2 (evaluate_rule_fail_open Sample.engine Sample.conditional_typo
                         (Sample.moving_entry 5)))
           [("field", VStr "battery_level"); ("operator", VStr "<"); ("value", VInt 10)]
           [("field", VStr "movement_state"); ("operator", VStr "inn");
            ("value", VList [VStr "idle"; VStr "stopped"])]);
    [reflexivity | reflexivity | reflexivity |].
  right. exists "movement_state", "inn", (VList [VStr "idle"; VStr "stopped"]).
  repeat split; vm_compute; reflexivity.
Defined.

Lemma evaluate_condition_direct_witness :
  RuleEngine.evaluate_condition Sample.engine (Sample.moving_entry 5)
    "battery_level" "at_least" (VInt 20)
  = Raise (ValueError "Unknown operator: at_least")
  /\ RuleEngine.evaluate_condition Sample.engine (Sample.moving_entry 5)
       "battery_level" ">=" (VInt 20)
     = RuleEngine.op_ge (VInt 5) (VInt 20).
Proof.
  split.
  - apply (proj1 (evaluate_condition_direct Sample.engine (Sample.moving_entry 5)
                    "battery_level" "at_least" (VInt 20))).
    vm_compute. reflexivity.
  - apply (proj2 (evaluate_condition_direct Sample.engine (Sample.moving_entry 5)
                    "battery_level" ">=" (VInt 20)) RuleEngine.op_ge).
    vm_compute. reflexivity.
Defined.

Lemma conditional_rule_condition_false_witness :
  RuleEngine.evaluate_rule Sample.engine Sample.conditional_test (Sample.moving_entry 50)
  = None.
Proof.
  apply (conditional_rule_condition_false Sample.engine Sample.conditional_test
           (Sample.moving_entry 50)
           [("field", VStr "battery_level"); ("operator", VStr "<"); ("value", VInt 10)]
           [("field", VStr "movement_state"); ("operator", VStr "in");
            ("value", VList [VStr "idle"; VStr "stopped"])]);
    [reflexivity | reflexivity | reflexivity | vm_compute; reflexivity].
Defined.

Lemma get_field_value_resolves_witness :
  RuleEngine.get_field_value (Sample.nested (VInt 5)) "a.b.c" = VNone.
Proof.
  apply (proj1 (proj2 get_field_value_resolves) (Sample.nested (VInt 5)) "a.b.c"
           ["a"] ["b"; "c"]); [reflexivity | discriminate | reflexivity].
Defined.

Lemma non_conditional_rule_is_simple_witness :
  Rule.from_dict (("type", VStr "threshold") :: Sample.battery_min_dict)
  = Some (Ok Sample.battery_min_odd)
  /\ RuleEngine.evaluate_rule Sample.engine Sample.battery_min_odd
       (Sample.entry 1 "2024-01-15T08:00:05Z" "ROBOT_001" 15 40)
     = RuleEngine.evaluate_rule Sample.engine Sample.battery_min
         (Sample.entry 1 "2024-01-15T08:00:05Z" "ROBOT_001" 15 40).
Proof.
  destruct (proj2 (proj2 (proj2 non_conditional_rule_is_simple)) Sample.engine
              Sample.battery_min_dict "threshold" Sample.battery_min
              (Sample.entry 1 "2024-01-15T08:00:05Z" "ROBOT_001" 15 40)
              ltac:(discriminate) eq_refl)
    as (rule' & Hload & _ & Heval).
  injection Hload as <-.
  split; [reflexivity|exact Heval].
Defined.

Lemma robot_summary_counts_witness :
  exists results self w' s,
    Run.run Sample.engine false false Sample.sample_logs Sample.empty_world
    = Some (results, self, w')
    /\ Run.robot_summary self w' "ROBOT_002" = Some s
    /\ RobotSummary.robot_id s = "ROBOT_002"
    /\ RobotSummary.total_entries s = 2
    /\ RobotSummary.violations_count s = 3
    /\ RobotSummary.violations s
       = Run.violations_of Sample.engine (Run.entries_of "ROBOT_002" Sample.sample_logs)
    /\ (RobotSummary.status s = ValidationStatus.FAIL
        <-> 0 < RobotSummary.violations_count s).
Proof.
  apply (robot_summary_counts Sample.engine false false Sample.empty_world
           Sample.sample_logs "ROBOT_002").
  apply list_elem_of_In. vm_compute. tauto.
Defined.

Lemma pass_rate_value_witness :
  exists r,
    Validator.pass_rate (Validator.mk Sample.engine false false 3 1 4 1 2 3 4) = Ok r
    /\ Validator.within_rounding r 100 3.
Proof.
  apply (proj1 (proj2 (proj2 (pass_rate_value
                                (Validator.mk Sample.engine false false 3 1 4 1 2 3 4)))));
    simpl; [discriminate | lia].
Defined.

Lemma get_report_twice_witness :
  exists w w1 r1 f1 r2 w2,
    Validator.get_report (Validator.mk Sample.engine false false 0 0 0 1 2 3 4)
      "2024-01-15T08:00:20.000001" "rules.json" "logs.json" w = Some (Ok r1, w1)
    /\ ValidationReport.read w1 r1 = Some f1
    /\ Validator.get_report (Validator.mk Sample.engine false false 0 0 0 1 2 3 4)
         "2024-01-15T08:00:20.000002" "rules.json" "logs.json" w1 = Some (Ok r2, w2)
    /\ ValidationReport.read w2 r1 = Some f1
    /\ ValidationReport.read w2 r2
       = Some (ValidationReport.with_generated_at "2024-01-15T08:00:20.000002Z" f1)
    /\ ValidationReport.f_generated_at f1 = "2024-01-15T08:00:20.000001Z".
Proof.
  set (w := mkWorld (<[1%positive := OCounts ∅]>
                       (<[2%positive := OCounts ∅]>
                          (<[3%positive := OSummaries ∅]>
                             (<[4%positive := OViolations []]> ∅)))) []).
  exists w.
  assert (exists r1 w1 f1,
             Validator.get_report (Validator.mk Sample.engine false false 0 0 0 1 2 3 4)
               "2024-01-15T08:00:20.000001" "rules.json" "logs.json" w = Some (Ok r1, w1)
             /\ ValidationReport.read w1 r1 = Some f1) as (r1 & w1 & f1 & Hrun & Hread).
  { eexists _, _, _. split; vm_compute; reflexivity. }
  exists w1, r1, f1.
  destruct (get_report_twice (Validator.mk Sample.engine false false 0 0 0 1 2 3 4)
              w w1 "2024-01-15T08:00:20.000001" "2024-01-15T08:00:20.000002"
              "rules.json" "logs.json" r1 f1 Hrun Hread) as (r2 & w2 & H2 & H3 & H4 & H5).
  exists r2, w2. repeat split; assumption.
Defined.

(* ===================================================================== *)
(** * Further properties of the rule engine *)
(* ===================================================================== *)

Section DefaultRegistry.
Context `{!Builtins}.

Lemma default_operators_lookup :
  RuleEngine._default_operators !! ">=" = Some RuleEngine.op_ge
  /\ RuleEngine._default_operators !! ">" = Some RuleEngine.op_gt
  /\ RuleEngine._default_operators !! "<=" = Some RuleEngine.op_le
  /\ RuleEngine._default_operators !! "<" = Some RuleEngine.op_lt
  /\ RuleEngine._default_operators !! "==" = Some RuleEngine.op_eq
  /\ RuleEngine._default_operators !! "!=" = Some RuleEngine.op_ne
  /\ RuleEngine._default_operators !! "in" = Some RuleEngine.op_in
  /\ RuleEngine._default_operators !! "not_in" = Some RuleEngine.op_not_in
  /\ RuleEngine._default_operators !! "regex" = Some RuleEngine.op_regex
  /\ RuleEngine._default_operators !! "exists" = Some RuleEngine.op_exists
  /\ RuleEngine._default_operators !! "contains" = Some RuleEngine.op_contains
  /\ RuleEngine._default_operators !! "starts_with" = Some RuleEngine.op_starts_with
  /\ RuleEngine._default_operators !! "ends_with" = Some RuleEngine.op_ends_with.
Proof. repeat split; reflexivity. Qed.

Lemma binds_default_lookup self operator name func :
  binds_default self operator ->
  operator = name ->
  RuleEngine._default_operators !! name = Some func ->
  RuleEngine._operators self !! operator = Some func.
Proof. intros Hb -> Hl. by rewrite Hb. Qed.

End DefaultRegistry.

(** The predicate a rule runs under a default binding of its operator. *)
Ltac default_binding Hbind Hop Hf :=
  let L := fresh "L" in
  pose proof default_operators_lookup as L;
  destruct L as (?L & ?L & ?L & ?L & ?L & ?L & ?L & ?L & ?L & ?L & ?L & ?L & ?L);
  match goal with
  | Hl : RuleEngine._default_operators !! _ = Some _ |- _ =>
      pose proof (binds_default_lookup _ _ _ _ Hbind Hop Hl) as Hf
  end.

Section OperatorFacts.
Context `{!Builtins}.

(** A rule that is not conditional, under a registered predicate. *)
Lemma evaluate_rule_simple self rule entry func :
  Rule.type rule ≠ "conditional" ->
  RuleEngine._operators self !! Rule.operator rule = Some func ->
  RuleEngine.dispatch self rule entry
  = (passed ← func (RuleEngine.get_field_value entry (Rule.field rule))
               (Rule.threshold rule);
     Ok (if passed : bool then None else Some (simple_violation rule entry)))
  /\ RuleEngine.evaluate_rule self rule entry
     = match func (RuleEngine.get_field_value entry (Rule.field rule))
               (Rule.threshold rule) with
       | Ok false => Some (simple_violation rule entry)
       | _ => None
       end.
Proof.
  intros Htype Hop.
  assert (RuleEngine.dispatch self rule entry
          = (passed ← func (RuleEngine.get_field_value entry (Rule.field rule))
                       (Rule.threshold rule);
             Ok (if passed : bool then None else Some (simple_violation rule entry)))) as Hd.
  { unfold RuleEngine.dispatch.
    destruct (String.eqb_spec (Rule.type rule) "conditional"); [done|].
    unfold RuleEngine._evaluate_simple_rule.
    rewrite (evaluate_condition_registered _ _ _ _ _ _ Hop).
    by destruct (func _ _) as [[]|]. }
  split; [done|].
  unfold RuleEngine.evaluate_rule. rewrite Hd.
  by destruct (func _ _) as [[]|].
Qed.

Lemma num_compare_int (x y : Z) :
  num_compare (Finite x 0) (Finite y 0) = Some (x ?= y)%Z.
Proof. simpl. by rewrite !Z.mul_1_r. Qed.

Lemma py_order_int test (x y : Z) :
  py_order test (VInt x) (VInt y) = Ok (test (x ?= y)%Z).
Proof. simpl. by rewrite !Z.mul_1_r. Qed.

(** X1. A simple rule that compares an integer field with an integer
    threshold: the rule is satisfied (no violation) exactly when the
    integers stand in the relation the operator names, and it is violated
    otherwise. *)
Theorem ordering_rule_on_integers (self : RuleEngine.t) (rule : Rule.t)
    (entry : LogEntry.t) (x t : Z) :
  Rule.type rule ≠ "conditional" ->
  binds_default self (Rule.operator rule) ->
  Rule.threshold rule = VInt t ->
  RuleEngine.get_field_value entry (Rule.field rule) = VInt x ->
  (Rule.operator rule = ">=" ->
   (RuleEngine.evaluate_rule self rule entry = None <-> (t <= x)%Z)
   /\ (RuleEngine.evaluate_rule self rule entry = Some (simple_violation rule entry)
       <-> (x < t)%Z))
  /\ (Rule.operator rule = ">" ->
      (RuleEngine.evaluate_rule self rule entry = None <-> (t < x)%Z)
      /\ (RuleEngine.evaluate_rule self rule entry = Some (simple_violation rule entry)
          <-> (x <= t)%Z))
  /\ (Rule.operator rule = "<=" ->
      (RuleEngine.evaluate_rule self rule entry = None <-> (x <= t)%Z)
      /\ (RuleEngine.evaluate_rule self rule entry = Some (simple_violation rule entry)
          <-> (t < x)%Z))
  /\ (Rule.operator rule = "<" ->
      (RuleEngine.evaluate_rule self rule entry = None <-> (x < t)%Z)
      /\ (RuleEngine.evaluate_rule self rule entry = Some (simple_violation rule entry)
          <-> (t <= x)%Z)).
Proof.
  intros Htype Hbind Hthr Hval.
  split; [|split; [|split]]; intros Hop; default_binding Hbind Hop Hf;
    destruct (evaluate_rule_simple self rule entry _ Htype Hf) as [_ Hev]; rewrite Hev;
    rewrite Hval, Hthr;
    unfold RuleEngine.op_ge, RuleEngine.op_gt, RuleEngine.op_le, RuleEngine.op_lt;
    rewrite py_order_int;
    destruct (Z.compare_spec x t); simpl; (split; split; (done || lia)).
Qed.

(** X2. An ordering rule whose field holds a string while the threshold
    is a number, or the other way round, raises [TypeError] inside
    [evaluate_rule] and so reports no violation. *)
Theorem ordering_rule_type_mismatch (self : RuleEngine.t) (rule : Rule.t)
    (entry : LogEntry.t) (s : string) (v : PyVal) :
  Rule.type rule ≠ "conditional" ->
  binds_default self (Rule.operator rule) ->
  Rule.operator rule ∈ [">="; ">"; "<="; "<"] ->
  as_num v ≠ None ->
  (RuleEngine.get_field_value entry (Rule.field rule) = VStr s
   /\ Rule.threshold rule = v)
  \/ (RuleEngine.get_field_value entry (Rule.field rule) = v
      /\ Rule.threshold rule = VStr s) ->
  RuleEngine.dispatch self rule entry = Raise TypeError
  /\ RuleEngine.evaluate_rule self rule entry = None.
Proof.
  intros Htype Hbind Hop Hnum Hvals.
  assert (exists test,
             RuleEngine._operators self !! Rule.operator rule
             = Some (fun a b => match a with VNone => Ok false | _ => py_order test a b end))
    as [test Hf].
  { rewrite !elem_of_cons in Hop.
    destruct Hop as [Hop|[Hop|[Hop|[Hop|Hop]]]]; [..|by apply elem_of_nil in Hop];
      default_binding Hbind Hop Hf; eauto. }
  destruct (evaluate_rule_simple self rule entry _ Htype Hf) as [Hd Hev]; rewrite Hd, Hev.
  destruct Hvals as [[-> ->]|[-> ->]]; destruct v; simpl in *; done.
Qed.

(** X3. Under each of the eight default operators that test the field
    value for [None] first, a simple rule on a field that resolves to
    [None] (a missing key, an explicit null, a path through a value that
    is not a dict) is violated, whatever its threshold; the violation
    records [None] as the actual value. *)
Theorem missing_field_is_violation (self : RuleEngine.t) (rule : Rule.t)
    (entry : LogEntry.t) :
  Rule.type rule ≠ "conditional" ->
  binds_default self (Rule.operator rule) ->
  Rule.operator rule
    ∈ [">="; ">"; "<="; "<"; "regex"; "contains"; "starts_with"; "ends_with"] ->
  RuleEngine.get_field_value entry (Rule.field rule) = VNone ->
  RuleEngine.evaluate_rule self rule entry = Some (simple_violation rule entry)
  /\ Violation.actual_value (simple_violation rule entry) = VNone.
Proof.
  intros Htype Hbind Hop Hval.
  split; [|done].
  rewrite !elem_of_cons in Hop.
  destruct Hop as [Hop|[Hop|[Hop|[Hop|[Hop|[Hop|[Hop|[Hop|Hop]]]]]]]];
    [..|by apply elem_of_nil in Hop];
    default_binding Hbind Hop Hf;
    destruct (evaluate_rule_simple self rule entry _ Htype Hf) as [_ Hev]; rewrite Hev;
    by rewrite Hval.
Qed.

(** X4. [not_in] is the negation of [in] and [!=] the negation of [==],
    on every pair of values: of two simple rules on the same field and
    threshold, one with [in] and one with [not_in] (or [==] and [!=]),
    exactly one is violated on any entry. *)
Theorem complementary_operators (self : RuleEngine.t) (r1 r2 : Rule.t)
    (entry : LogEntry.t) :
  Rule.type r1 ≠ "conditional" ->
  Rule.type r2 ≠ "conditional" ->
  Rule.field r1 = Rule.field r2 ->
  Rule.threshold r1 = Rule.threshold r2 ->
  binds_default self (Rule.operator r1) ->
  binds_default self (Rule.operator r2) ->
  (Rule.operator r1 = "in" /\ Rule.operator r2 = "not_in")
  \/ (Rule.operator r1 = "==" /\ Rule.operator r2 = "!=") ->
  (RuleEngine.evaluate_rule self r1 entry = None
   <-> RuleEngine.evaluate_rule self r2 entry = Some (simple_violation r2 entry))
  /\ (RuleEngine.evaluate_rule self r2 entry = None
      <-> RuleEngine.evaluate_rule self r1 entry = Some (simple_violation r1 entry)).
Proof.
  intros Ht1 Ht2 Hfield Hthr Hb1 Hb2 Hops.
  destruct Hops as [[Ho1 Ho2]|[Ho1 Ho2]];
    default_binding Hb1 Ho1 Hf1; default_binding Hb2 Ho2 Hf2;
    destruct (evaluate_rule_simple self r1 entry _ Ht1 Hf1) as [_ Hev1];
    destruct (evaluate_rule_simple self r2 entry _ Ht2 Hf2) as [_ Hev2];
    rewrite Hev1, Hev2, Hfield, Hthr;
    unfold RuleEngine.op_in, RuleEngine.op_not_in, RuleEngine.op_eq, RuleEngine.op_ne.
  - destruct (Rule.threshold r2); try (split; split; done).
    destruct (existsb _ _); split; split; done.
  - destruct (py_eq _ _); split; split; done.
Qed.

(** ** The operators on strings *)

Lemma string_append_cons (c : ascii) (s t : string) :
  String c s +:+ t = String c (s +:+ t).
Proof. reflexivity. Qed.

Lemma string_append_nil_r (s : string) : s +:+ "" = s.
Proof. induction s as [|c s IH]; [done|]. by rewrite string_append_cons, IH. Qed.

Lemma string_append_assoc (a b c : string) : (a +:+ b) +:+ c = a +:+ (b +:+ c).
Proof. induction a as [|x a IH]; [done|]. by rewrite !string_append_cons, IH. Qed.

Lemma string_prefix_app (p s : string) :
  String.prefix p s = true <-> exists rest, s = p +:+ rest.
Proof.
  revert s. induction p as [|c p IH]; intros s.
  - destruct s; split; eauto.
  - destruct s as [|d s]; simpl.
    + split; [done|]. by intros [rest ?].
    + destruct (ascii_dec c d) as [->|Hne].
      * rewrite IH. split; intros [rest Hr]; exists rest.
        -- by rewrite string_append_cons, Hr.
        -- rewrite string_append_cons in Hr. congruence.
      * split; [done|]. intros [rest Hr]. rewrite string_append_cons in Hr. congruence.
Qed.

Lemma string_rev_app_append (s acc : string) :
  String.rev_app s acc = String.rev s +:+ acc.
Proof.
  unfold String.rev. revert acc.
  induction s as [|c s IH]; intros acc; [done|].
  change (String.rev_app (String c s) acc) with (String.rev_app s (String c acc)).
  change (String.rev_app (String c s) "") with (String.rev_app s (String c "")).
  rewrite IH, (IH (String c "")). by rewrite string_append_assoc.
Qed.

Lemma string_rev_cons (c : ascii) (s : string) :
  String.rev (String c s) = String.rev s +:+ String c "".
Proof.
  unfold String.rev at 1.
  change (String.rev_app (String c s) "") with (String.rev_app s (String c "")).
  by rewrite string_rev_app_append.
Qed.

Lemma string_rev_append (a b : string) :
  String.rev (a +:+ b) = String.rev b +:+ String.rev a.
Proof.
  induction a as [|c a IH].
  - change ("" +:+ b) with b. by rewrite string_append_nil_r.
  - by rewrite string_append_cons, !string_rev_cons, IH, string_append_assoc.
Qed.

Lemma string_rev_involutive (s : string) : String.rev (String.rev s) = s.
Proof.
  induction s as [|c s IH]; [done|].
  by rewrite string_rev_cons, string_rev_append, IH.
Qed.

Lemma str_endswith_app (s p : string) :
  str_endswith s p = true <-> exists front, s = front +:+ p.
Proof.
  unfold str_endswith. rewrite string_prefix_app. split.
  - intros [rest Hr]. exists (String.rev rest).
    rewrite <- (string_rev_involutive s), Hr, string_rev_append. by rewrite string_rev_involutive.
  - intros [front ->]. exists (String.rev front). by rewrite string_rev_append.
Qed.

Lemma str_contains_app (needle s : string) :
  str_contains needle s = true <-> exists front rest, s = front +:+ needle +:+ rest.
Proof.
  induction s as [|c s IH].
  - cbn [str_contains]. rewrite orb_false_r, string_prefix_app. split.
    + intros [rest ->]. by exists "", rest.
    + intros ([|d front] & rest & Hs); [by exists rest|].
      rewrite string_append_cons in Hs. done.
  - cbn [str_contains]. rewrite orb_true_iff, IH, string_prefix_app. split.
    + intros [[rest ->]|(front & rest & ->)].
      * by exists "", rest.
      * by exists (String c front), rest.
    + intros ([|d front] & rest & Hs).
      * left. by exists rest.
      * right. rewrite string_append_cons in Hs. injection Hs as -> ->. by exists front, rest.
Qed.

(** X5. The three operators on strings compare the text of the field
    value, [str(a)], with the threshold: [starts_with] holds exactly when
    the text begins with it, [ends_with] when the text ends with it,
    [contains] when it occurs in the text.  On [None] all three are false;
    none of them raises on a string threshold. *)
Theorem string_operators_meaning (a : PyVal) (p : string) :
  (exists r1 r2 r3,
      RuleEngine.op_starts_with a (VStr p) = Ok r1
      /\ RuleEngine.op_ends_with a (VStr p) = Ok r2
      /\ RuleEngine.op_contains a (VStr p) = Ok r3)
  /\ (RuleEngine.op_starts_with a (VStr p) = Ok true
      <-> a ≠ VNone /\ exists rest, py_str a = p +:+ rest)
  /\ (RuleEngine.op_ends_with a (VStr p) = Ok true
      <-> a ≠ VNone /\ exists front, py_str a = front +:+ p)
  /\ (RuleEngine.op_contains a (VStr p) = Ok true
      <-> a ≠ VNone /\ exists front rest, py_str a = front +:+ p +:+ rest).
Proof.
  assert (forall b : bool, @Ok bool b = Ok true <-> b = true) as Hok.
  { intros b. split; [by intros [= ->]|by intros ->]. }
  split; [destruct a; simpl; by eexists _, _, _|].
  rewrite <- string_prefix_app, <- str_endswith_app, <- str_contains_app.
  destruct a; simpl; rewrite ?Hok; clear Hok; intuition congruence.
Qed.

(** ** Registration *)

(** X6. Registering a predicate under a name makes every later condition
    with that name use it, whether the name was free or bound to a default
    operator; conditions under any other name are evaluated as before,
    and the rules are untouched. *)
Theorem register_operator_takes_effect (self : RuleEngine.t) (name : string)
    (func : RuleEngine.Operator) :
  RuleEngine.rules (RuleEngine.register_operator self name func) = RuleEngine.rules self
  /\ (forall entry field value,
         RuleEngine.evaluate_condition (RuleEngine.register_operator self name func)
           entry field name value
         = func (RuleEngine.get_field_value entry field) value)
  /\ (forall entry field operator value,
         operator ≠ name ->
         RuleEngine.evaluate_condition (RuleEngine.register_operator self name func)
           entry field operator value
         = RuleEngine.evaluate_condition self entry field operator value).
Proof.
  split; [done|]. split.
  - intros entry field value. unfold RuleEngine.evaluate_condition. simpl.
    by rewrite lookup_insert_eq.
  - intros entry field operator value Hne. unfold RuleEngine.evaluate_condition. simpl.
    by rewrite lookup_insert_ne.
Qed.

End OperatorFacts.

(* ===================================================================== *)
(** * Field paths *)
(* ===================================================================== *)

Section PathFacts.
Context `{!Builtins}.

Lemma split_app sep (a b : string) :
  Py.split sep (a +:+ String sep b) = Py.split sep a ++ Py.split sep b.
Proof.
  induction a as [|c a IH].
  - change ("" +:+ String sep b) with (String sep b). simpl.
    by rewrite Ascii.eqb_refl.
  - rewrite string_append_cons. cbn [Py.split]. rewrite IH.
    destruct (Ascii.eqb c sep); [done|].
    pose proof (split_not_nil sep a) as Hnil.
    by destruct (Py.split sep a).
Qed.

Lemma split_no_sep sep (s : string) :
  ~ has_char sep s -> Py.split sep s = [s].
Proof.
  unfold has_char. induction s as [|c s IH]; intros Hno; [done|].
  cbn [Py.split]. simpl in Hno.
  destruct (Ascii.eqb_spec c sep) as [->|Hne]; [by destruct Hno; left|].
  rewrite IH; [done|]. intros Hin. apply Hno. by right.
Qed.

Lemma split_head_no_sep sep (s : string) :
  exists w ws, Py.split sep s = w :: ws /\ ~ has_char sep w.
Proof.
  unfold has_char. induction s as [|c s (w & ws & Hs & Hw)].
  - exists "", []. split; [done|]. by intros [].
  - cbn [Py.split]. destruct (Ascii.eqb_spec c sep) as [->|Hne].
    + exists "", (Py.split sep s). split; [done|]. by intros [].
    + rewrite Hs. exists (String c w), ws. split; [done|].
      simpl. intros [Hc|Hin]; [by apply Hne|by apply Hw].
Qed.

(** X7. Resolving the path [a.b] is resolving [b] inside the dictionary
    that [a] resolves to; when [a] resolves to anything but a dictionary
    the result is [None].  The path [a] may itself contain dots. *)
Theorem get_field_value_nested (entry : LogEntry.t) (a b : string) :
  RuleEngine.get_field_value entry (a +:+ "." +:+ b)
  = match RuleEngine.get_field_value entry a with
    | VDict d =>
        RuleEngine.get_field_value
          (LogEntry.mk (LogEntry.timestamp entry) (LogEntry.robot_id entry) d
             (LogEntry.index entry)) b
    | _ => VNone
    end.
Proof.
  unfold RuleEngine.get_field_value.
  change ("." +:+ b) with (String "." b).
  rewrite split_app, walk_app. simpl.
  pose proof (split_not_nil "." b) as Hnil.
  destruct (RuleEngine.walk _ (Py.split "." a)); try done;
    by destruct (Py.split "." b).
Qed.

(** X8. A path without a dot reads that key of the payload ([None] when
    the key is absent).  A key of the payload that contains a dot is
    never read, whatever the path: the entry resolves every path as it
    does without that item. *)
Theorem dotted_keys_are_unreachable (timestamp robot_id : string) (raw : PyDict)
    (index : Z) :
  (forall key,
      ~ has_char "." key ->
      RuleEngine.get_field_value (LogEntry.mk timestamp robot_id raw index) key
      = default VNone (dict_get raw key))
  /\ (forall key v field,
         has_char "." key ->
         RuleEngine.get_field_value
           (LogEntry.mk timestamp robot_id ((key, v) :: raw) index) field
         = RuleEngine.get_field_value (LogEntry.mk timestamp robot_id raw index) field).
Proof.
  split.
  - intros key Hno. unfold RuleEngine.get_field_value.
    by rewrite (split_no_sep _ _ Hno).
  - intros key v field Hdot. unfold RuleEngine.get_field_value. simpl.
    destruct (split_head_no_sep "." field) as (w & ws & -> & Hw). simpl.
    destruct (String.eqb_spec key w) as [->|Hne]; [done|done].
Qed.

(** X9. The [exists] operator with threshold [true] holds exactly when
    the field resolves to a value other than [None], with threshold
    [false] exactly when it resolves to [None]; it never raises.  For a
    key of the payload, a present null and an absent key are the same. *)
Theorem exists_operator_meaning (self : RuleEngine.t) (entry : LogEntry.t)
    (field : string) :
  binds_default self "exists" ->
  (forall value, exists r,
      RuleEngine.evaluate_condition self entry field "exists" value = Ok r)
  /\ (RuleEngine.evaluate_condition self entry field "exists" (VBool true) = Ok true
      <-> RuleEngine.get_field_value entry field ≠ VNone)
  /\ (RuleEngine.evaluate_condition self entry field "exists" (VBool false) = Ok true
      <-> RuleEngine.get_field_value entry field = VNone)
  /\ (~ has_char "." field ->
      (RuleEngine.get_field_value entry field ≠ VNone
       <-> exists v, dict_get (LogEntry.raw_data entry) field = Some v /\ v ≠ VNone)).
Proof.
  intros Hbind.
  default_binding Hbind (@eq_refl string "exists") Hf.
  split; [|split; [|split]].
  - intros value. rewrite (evaluate_condition_registered _ _ _ _ _ _ Hf). eauto.
  - rewrite (evaluate_condition_registered _ _ _ _ _ _ Hf).
    unfold RuleEngine.op_exists.
    destruct (RuleEngine.get_field_value entry field); simpl; split; done.
  - rewrite (evaluate_condition_registered _ _ _ _ _ _ Hf).
    unfold RuleEngine.op_exists.
    destruct (RuleEngine.get_field_value entry field); simpl; split; done.
  - intros Hno. unfold RuleEngine.get_field_value.
    rewrite (split_no_sep _ _ Hno). simpl.
    destruct (dict_get (LogEntry.raw_data entry) field) as [v|]; simpl.
    + split; [by exists v|]. by intros (v' & [= <-] & Hv).
    + split; [done|]. by intros (v' & Hv & _).
Qed.

End PathFacts.

(* ===================================================================== *)
(** * Loading rules *)
(* ===================================================================== *)

Section LoadingFacts.
Context `{!Builtins}.

Lemma of_value_Some (s : string) (m : Severity.t) :
  Severity.of_value s = Some m -> Severity.value m = s.
Proof.
  unfold Severity.of_value.
  destruct (String.eqb_spec s "info") as [->|_]; [by intros [= <-]|].
  destruct (String.eqb_spec s "warning") as [->|_]; [by intros [= <-]|].
  destruct (String.eqb_spec s "error") as [->|_]; [by intros [= <-]|].
  destruct (String.eqb_spec s "critical") as [->|_]; [by intros [= <-]|].
  done.
Qed.

(** X10. [Severity(value)] and [.value] are inverse to each other: a
    string names a member exactly when it is the value of that member, so
    any other string, a value in capitals for instance, names none. *)
Theorem severity_value_round_trip (s : string) (m : Severity.t) :
  (Severity.of_value s = Some m <-> Severity.value m = s)
  /\ (Severity.of_value s = None <-> forall m', Severity.value m' ≠ s).
Proof.
  assert (forall m', Severity.of_value (Severity.value m') = Some m') as Hback
    by (by intros []).
  split.
  - split; [apply of_value_Some|]. intros <-. apply Hback.
  - split.
    + intros Hnone m' <-. by rewrite Hback in Hnone.
    + intros Hnot. destruct (Severity.of_value s) as [m'|] eqn:Hs; [|done].
      by destruct (Hnot m' (of_value_Some _ _ Hs)).
Qed.

(** X11. [Violation.to_dict] loses nothing: two violations with the same
    dictionary are the same violation.  The dictionary has the ten keys of
    the source, each once, and its severity is the string that
    [Severity(...)] maps back to the member. *)
Theorem to_dict_is_injective (v1 v2 : Violation.t) :
  (Violation.to_dict v1 = Violation.to_dict v2 <-> v1 = v2)
  /\ fst <$> Violation.to_dict v1
     = ["rule_id"; "rule_name"; "severity"; "message"; "timestamp"; "robot_id";
        "field"; "actual_value"; "expected"; "log_index"]
  /\ (exists s, dict_get (Violation.to_dict v1) "severity" = Some (VStr s)
                /\ Severity.of_value s = Some (Violation.severity v1)).
Proof.
  split; [|split].
  - split; [|by intros ->].
    destruct v1 as [a1 b1 s1 c1 d1 e1 f1 g1 h1 i1], v2 as [a2 b2 s2 c2 d2 e2 f2 g2 h2 i2].
    unfold Violation.to_dict. simpl. intros Heq.
    injection Heq as -> -> Hs -> -> -> -> -> -> ->.
    f_equal. by destruct s1, s2.
  - done.
  - exists (Severity.value (Violation.severity v1)). split; [done|].
    by destruct (Violation.severity v1).
Qed.


(** ** [Rule.from_dict] *)

(** X12. [Rule.from_dict] depends on the eleven keys it reads and on
    nothing else: two dictionaries that agree on them give the same rule
    or the same exception.  Any other key, a misspelt [treshold] for
    instance, is ignored without a trace. *)
Theorem from_dict_reads_eleven_keys (data data' : PyDict) :
  (forall key, key ∈ rule_keys -> dict_get data key = dict_get data' key) ->
  Rule.from_dict data = Rule.from_dict data'.
Proof.
  intros Hk. unfold rule_keys in Hk.
  pose proof (Hk "severity" ltac:(by repeat constructor)) as H1.
  pose proof (Hk "id" ltac:(by repeat constructor)) as H2.
  pose proof (Hk "name" ltac:(by repeat constructor)) as H3.
  pose proof (Hk "field" ltac:(by repeat constructor)) as H4.
  pose proof (Hk "operator" ltac:(by repeat constructor)) as H5.
  pose proof (Hk "threshold" ltac:(by repeat constructor)) as H6.
  pose proof (Hk "message" ltac:(by repeat constructor)) as H7.
  pose proof (Hk "description" ltac:(by repeat constructor)) as H8.
  pose proof (Hk "type" ltac:(by repeat constructor)) as H9.
  pose proof (Hk "condition" ltac:(by repeat constructor)) as H10.
  pose proof (Hk "then" ltac:(by repeat constructor)) as H11.
  unfold Rule.from_dict, Rule.get_str, Rule.get_clause.
  by rewrite H1, H2, H3, H4, H5, H6, H7, H8, H9, H10, H11.
Qed.

(** X13. The two exceptions of [Rule.from_dict], and their order: a
    severity that is not the value of a member raises [ValueError] whether
    or not there is an id; with a valid (or absent) severity a missing id
    raises [KeyError].  It raises nothing else. *)
Theorem from_dict_errors (data : PyDict) :
  (severity_invalid data ->
   exists msg, Rule.from_dict data = Some (Raise (ValueError msg)))
  /\ (~ severity_invalid data ->
      dict_get data "id" = None ->
      Rule.from_dict data = Some (Raise (KeyError "id")))
  /\ (forall e,
         Rule.from_dict data = Some (Raise e) ->
         (severity_invalid data /\ exists msg, e = ValueError msg)
         \/ (~ severity_invalid data /\ dict_get data "id" = None /\ e = KeyError "id")).
Proof.
  unfold Rule.from_dict, severity_invalid.
  destruct (dict_get data "severity") as [[| | | |s| |]|];
    try (split; [eauto|split; [by intros []|intros e [= <-]; left; eauto]]).
  - destruct (Severity.of_value s) as [m|].
    + split; [done|]. split.
      * by intros _ ->.
      * destruct (dict_get data "id") as [[| | | |id| |]|]; try done.
        -- destruct (Rule.get_str data "name" id); [|done].
           destruct (Rule.get_str data "field" ""); [|done].
           destruct (Rule.get_str data "operator" ""); [|done].
           destruct (Rule.get_str data "message" ""); [|done].
           destruct (Rule.get_str data "description" ""); [|done].
           destruct (Rule.get_str data "type" "simple"); [|done].
           destruct (Rule.get_clause data "condition"); [|done].
           destruct (Rule.get_clause data "then"); done.
        -- intros e [= <-]. right. by repeat split.
    + split; [eauto|]. split; [done|]. intros e [= <-]. left. eauto.
  - split; [done|]. split.
    + by intros _ ->.
    + destruct (dict_get data "id") as [[| | | |id| |]|]; try done.
      * destruct (Rule.get_str data "name" id); [|done].
        destruct (Rule.get_str data "field" ""); [|done].
        destruct (Rule.get_str data "operator" ""); [|done].
        destruct (Rule.get_str data "message" ""); [|done].
        destruct (Rule.get_str data "description" ""); [|done].
        destruct (Rule.get_str data "type" "simple"); [|done].
        destruct (Rule.get_clause data "condition"); [|done].
        destruct (Rule.get_clause data "then"); done.
      * intros e [= <-]. right. by repeat split; try intros [].
Qed.

Lemma evaluate_rule_unregistered self rule entry :
  Rule.type rule ≠ "conditional" ->
  RuleEngine._operators self !! Rule.operator rule = None ->
  RuleEngine.evaluate_rule self rule entry = None.
Proof.
  intros Htype Hop. unfold RuleEngine.evaluate_rule, RuleEngine.dispatch.
  destruct (String.eqb_spec (Rule.type rule) "conditional"); [done|].
  unfold RuleEngine._evaluate_simple_rule.
  by rewrite (evaluate_condition_unregistered _ _ _ _ _ Hop).
Qed.

(** X14. A rule dictionary without an [operator] key loads with the empty
    string as its operator; the empty name is no default operator, so
    unless it is conditional the rule reports no violation on any entry. *)
Theorem rule_without_operator_is_inert (self : RuleEngine.t) (data : PyDict)
    (rule : Rule.t) (entry : LogEntry.t) :
  Rule.from_dict data = Some (Ok rule) ->
  dict_get data "operator" = None ->
  Rule.type rule ≠ "conditional" ->
  binds_default self "" ->
  Rule.operator rule = ""
  /\ RuleEngine.evaluate_rule self rule entry = None.
Proof.
  intros Hload Hno Htype Hbind.
  assert (Rule.operator rule = "") as Hop.
  { revert Hload. unfold Rule.from_dict.
    assert (Rule.get_str data "operator" "" = Some "") as ->
      by (unfold Rule.get_str; by rewrite Hno).
    destruct (match dict_get data "severity" with
              | Some (VStr s) => Severity.of_value s
              | Some _ => None
              | None => Some Severity.WARNING
              end) as [sev|]; [|done].
    destruct (dict_get data "id") as [[| | | |id| |]|]; try done.
    destruct (Rule.get_str data "name" id); [|done].
    destruct (Rule.get_str data "field" ""); [|done].
    destruct (Rule.get_str data "message" ""); [|done].
    destruct (Rule.get_str data "description" ""); [|done].
    destruct (Rule.get_str data "type" "simple"); [|done].
    destruct (Rule.get_clause data "condition"); [|done].
    destruct (Rule.get_clause data "then"); [|done].
    simpl. by intros [= <-]. }
  split; [done|].
  apply evaluate_rule_unregistered; [done|].
  rewrite Hop. unfold binds_default in Hbind. by rewrite Hbind.
Qed.


(** ** Conditional rules *)

Lemma evaluate_clause_Ok self entry clause b :
  RuleEngine.evaluate_clause self entry clause = Ok b ->
  exists f o v,
    dict_get clause "field" = Some (VStr f)
    /\ dict_get clause "operator" = Some (VStr o)
    /\ dict_get clause "value" = Some v
    /\ RuleEngine.evaluate_condition self entry f o v = Ok b.
Proof.
  unfold RuleEngine.evaluate_clause, getitem.
  destruct (dict_get clause "field") as [f|]; [|done].
  destruct (dict_get clause "operator") as [o|]; [|done].
  destruct (dict_get clause "value") as [v|]; [|done].
  simpl. destruct f; try done. destruct o; try done.
  intros Hev. by eexists _, _, _.
Qed.

(** X15. A conditional rule reports a violation on an entry exactly when
    both its clauses are present, the predicate of its condition returns
    true and the predicate of its then clause returns false; the violation
    is then on the field of the then clause.  Without one of the clauses
    (absent, null or empty) the rule reports nothing, whatever its own
    field, operator and threshold. *)
Theorem conditional_rule_outcome (self : RuleEngine.t) (rule : Rule.t)
    (entry : LogEntry.t) :
  Rule.type rule = "conditional" ->
  ((exists v, RuleEngine.evaluate_rule self rule entry = Some v)
   <-> exists cond then_,
        Rule.condition rule = Some cond
        /\ Rule.then_ rule = Some then_
        /\ RuleEngine.evaluate_clause self entry cond = Ok true
        /\ RuleEngine.evaluate_clause self entry then_ = Ok false)
  /\ (forall v,
         RuleEngine.evaluate_rule self rule entry = Some v ->
         exists then_ f,
           Rule.then_ rule = Some then_
           /\ dict_get then_ "field" = Some (VStr f)
           /\ Violation.field v = f
           /\ Violation.actual_value v = RuleEngine.get_field_value entry f).
Proof.
  intros Htype.
  unfold RuleEngine.evaluate_rule, RuleEngine.dispatch. rewrite Htype. simpl.
  unfold RuleEngine._evaluate_conditional_rule.
  destruct (Rule.condition rule) as [cond|]; simpl.
  2: { split; [|done]. split; [by intros [? ?]|]. by intros (? & ? & ? & _). }
  destruct (Rule.then_ rule) as [then_|]; simpl.
  2: { rewrite orb_true_r. split; [|done].
       split; [by intros [? ?]|]. by intros (? & ? & ? & ? & _). }
  destruct (negb _ || negb _) eqn:Hempty.
  { split; [|done]. split; [by intros [? ?]|].
    intros (c & t & [= <-] & [= <-] & Hc & Ht).
    apply evaluate_clause_Ok in Hc as (? & ? & ? & Hc & _).
    apply evaluate_clause_Ok in Ht as (? & ? & ? & Ht & _).
    by destruct cond, then_. }
  destruct (RuleEngine.evaluate_clause self entry cond) as [[]|] eqn:Hc; simpl.
  2,3: split; [|done]; split; [by intros [? ?]|];
       intros (c & t & [= <-] & [= <-] & ? & _); congruence.
  destruct (RuleEngine.evaluate_clause self entry then_) as [[]|] eqn:Ht; simpl.
  1,3: split; [|done]; split; [by intros [? ?]|];
       intros (c & t & [= <-] & [= <-] & _ & ?); congruence.
  destruct (evaluate_clause_Ok _ _ _ _ Hc) as (cf & co & cv & Hcf & Hco & Hcv & _).
  destruct (evaluate_clause_Ok _ _ _ _ Ht) as (tf & to & tv & Htf & Hto & Htv & _).
  unfold RuleEngine.conditional_violation, getitem.
  rewrite Hcf, Hco, Hcv, Htf, Hto, Htv. simpl. split.
  - split; [|by eauto]. intros _. by exists cond, then_.
  - intros v [= <-]. by exists then_, tf.
Qed.

(** ** [load_rules_from_dict] *)

Lemma rules_of_Forall2 (rules_data : list PyVal) (rules : list Rule.t) :
  RuleEngine.rules_of rules_data = Some (Ok rules) ->
  Forall2 (fun r rule => RuleEngine.rule_of r = Some (Ok rule)) rules_data rules.
Proof.
  revert rules. induction rules_data as [|r rest IH]; intros rules; simpl.
  - intros [= <-]. constructor.
  - destruct (RuleEngine.rule_of r) as [[rule|]|] eqn:Hr; try done.
    destruct (RuleEngine.rules_of rest) as [[rules'|]|]; try done.
    intros [= <-]. constructor; [done|]. by apply IH.
Qed.

(** X16. A successful [load_rules_from_dict] replaces the catalog: the
    new rules are the elements of the list under [rules], each loaded by
    [Rule.from_dict], in the order of the list and as many; the rules
    the engine held before play no part, and the operator registry is
    kept. *)
Theorem load_rules_from_dict_replaces (self self' : RuleEngine.t) (data : PyDict) :
  RuleEngine.load_rules_from_dict self data = Some (Ok self') ->
  RuleEngine._operators self' = RuleEngine._operators self
  /\ (exists rules_data,
         RuleEngine.iterate (default (VList []) (dict_get data "rules")) = Ok rules_data
         /\ Forall2 (fun r rule => RuleEngine.rule_of r = Some (Ok rule))
              rules_data (RuleEngine.rules self'))
  /\ (forall other,
         RuleEngine.load_rules_from_dict other data
         = Some (Ok (RuleEngine.mk (RuleEngine.rules self') (RuleEngine._operators other)))).
Proof.
  unfold RuleEngine.load_rules_from_dict.
  destruct (RuleEngine.iterate _) as [rules_data|]; [|done].
  destruct (RuleEngine.rules_of rules_data) as [[rules|]|] eqn:Hrules; try done.
  intros [= <-]. simpl. split; [done|]. split; [|done].
  exists rules_data. split; [done|]. by apply rules_of_Forall2.
Qed.

(** X17. The edge cases of [load_rules_from_dict]: without a [rules] key
    the catalog becomes empty, and under the empty catalog no entry has a
    violation; a [rules] value that is null or a number is not iterable
    ([TypeError]); a list whose first element is not a dictionary, or a
    string that is not empty, raises [AttributeError]. *)
Theorem load_rules_edge_cases (self : RuleEngine.t) (data : PyDict) :
  (dict_get data "rules" = None ->
   RuleEngine.load_rules_from_dict self data
   = Some (Ok (RuleEngine.mk [] (RuleEngine._operators self)))
   /\ forall entry,
       RuleEngine.validate_entry (RuleEngine.mk [] (RuleEngine._operators self)) entry = [])
  /\ (forall v,
         dict_get data "rules" = Some v ->
         v = VNone \/ as_num v ≠ None ->
         RuleEngine.load_rules_from_dict self data = Some (Raise TypeError))
  /\ (forall r rest,
         dict_get data "rules" = Some (VList (r :: rest)) ->
         is_dict r = false ->
         RuleEngine.load_rules_from_dict self data = Some (Raise AttributeError))
  /\ (forall c s,
         dict_get data "rules" = Some (VStr (String c s)) ->
         RuleEngine.load_rules_from_dict self data = Some (Raise AttributeError)).
Proof.
  unfold RuleEngine.load_rules_from_dict.
  split; [|split; [|split]].
  - intros ->. by split.
  - intros v -> [->|Hnum]; [done|]. by destruct v.
  - intros r rest -> Hr. simpl. by destruct r.
  - by intros c s ->.
Qed.

(** X18. The comprehension of [load_rules_from_dict] stops at the first
    element that [Rule.from_dict] rejects: the load raises that exception,
    whatever follows the element in the list, and no rule is loaded. *)
Theorem load_rules_first_error (self : RuleEngine.t) (data : PyDict)
    (pre post : list PyVal) (bad : PyVal) (e : PyExc) :
  dict_get data "rules" = Some (VList (pre ++ bad :: post)) ->
  Forall (fun r => exists rule, RuleEngine.rule_of r = Some (Ok rule)) pre ->
  RuleEngine.rule_of bad = Some (Raise e) ->
  RuleEngine.load_rules_from_dict self data = Some (Raise e).
Proof.
  intros Hdata Hpre Hbad. unfold RuleEngine.load_rules_from_dict.
  rewrite Hdata. simpl.
  assert (RuleEngine.rules_of (pre ++ bad :: post) = Some (Raise e)) as ->; [|done].
  clear Hdata.
  induction Hpre as [|r pre [rule Hr] _ IH]; simpl.
  - by rewrite Hbad.
  - by rewrite Hr, IH.
Qed.

(** ** Where a violation comes from *)

Lemma evaluate_rule_provenance self rule entry v :
  RuleEngine.evaluate_rule self rule entry = Some v ->
  Violation.rule_id v = Rule.id rule
  /\ Violation.rule_name v = Rule.name rule
  /\ Violation.severity v = Rule.severity rule
  /\ Violation.message v = Rule.message rule
  /\ Violation.timestamp v = LogEntry.timestamp entry
  /\ Violation.robot_id v = LogEntry.robot_id entry
  /\ Violation.log_index v = LogEntry.index entry.
Proof.
  unfold RuleEngine.evaluate_rule, RuleEngine.dispatch.
  destruct (String.eqb _ _).
  - unfold RuleEngine._evaluate_conditional_rule.
    destruct (negb _ || negb _); [done|].
    destruct (Rule.condition rule) as [c|]; [|done].
    destruct (Rule.then_ rule) as [t|]; [|done].
    destruct (RuleEngine.evaluate_clause self entry c) as [[]|]; simpl; try done.
    destruct (RuleEngine.evaluate_clause self entry t) as [[]|]; simpl; try done.
    unfold RuleEngine.conditional_violation.
    destruct (getitem t "field") as [[]|]; simpl; try done.
    repeat match goal with
           | |- context [getitem ?d ?k] => destruct (getitem d k); simpl; try done
           end.
    by intros [= <-].
  - unfold RuleEngine._evaluate_simple_rule.
    destruct (RuleEngine.evaluate_condition _ _ _ _ _) as [[]|]; simpl; try done.
    by intros [= <-].
Qed.

(** X19. Every violation of an entry comes from a rule of the catalog
    and from that entry: it carries the id, the name, the severity and
    the message of the rule, and the timestamp, the robot id and the
    index of the entry.  A rule gives at most one violation per entry. *)
Theorem violation_provenance (self : RuleEngine.t) (entry : LogEntry.t)
    (v : Violation.t) :
  v ∈ RuleEngine.validate_entry self entry ->
  (exists rule,
      rule ∈ RuleEngine.rules self
      /\ RuleEngine.evaluate_rule self rule entry = Some v
      /\ Violation.rule_id v = Rule.id rule
      /\ Violation.rule_name v = Rule.name rule
      /\ Violation.severity v = Rule.severity rule
      /\ Violation.message v = Rule.message rule)
  /\ Violation.timestamp v = LogEntry.timestamp entry
  /\ Violation.robot_id v = LogEntry.robot_id entry
  /\ Violation.log_index v = LogEntry.index entry
  /\ length (RuleEngine.validate_entry self entry) <= length (RuleEngine.rules self).
Proof.
  intros Hin.
  assert (length (RuleEngine.validate_entry self entry) <= length (RuleEngine.rules self))
    as Hlen.
  { pose proof (sublist_length _ _ (validate_entry_rule_ids_sublist self entry)) as Hl.
    by rewrite !length_fmap in Hl. }
  rewrite validate_entry_omap in Hin.
  apply list_elem_of_omap in Hin as (rule & Hrule & Hv).
  destruct (evaluate_rule_provenance _ _ _ _ Hv) as (? & ? & ? & ? & ? & ? & ?).
  split; [by exists rule|done].
Qed.

End LoadingFacts.

(* ===================================================================== *)
(** * Further properties of the validator *)
(* ===================================================================== *)

Section RunFacts.
Context `{!Builtins}.
Import Abstract.

(** ** Counters *)

Lemma passing_cons engine e es :
  Run.passing engine (e :: es)
  = if is_nil (RuleEngine.validate_entry engine e)
    then e :: Run.passing engine es
    else Run.passing engine es.
Proof.
  unfold Run.passing. rewrite filter_cons.
  destruct (is_nil (RuleEngine.validate_entry engine e)); by case_decide.
Qed.

Lemma validate_entry_length engine e :
  length (RuleEngine.validate_entry engine e) <= length (RuleEngine.rules engine).
Proof.
  pose proof (sublist_length _ _ (validate_entry_rule_ids_sublist engine e)) as Hl.
  by rewrite !length_fmap in Hl.
Qed.

Lemma run_list_bounds engine es :
  length (Run.passing engine es) <= length es
  /\ length es - length (Run.passing engine es) <= length (Run.violations_of engine es)
  /\ length (Run.violations_of engine es) <= length es * length (RuleEngine.rules engine)
  /\ (length (Run.violations_of engine es) = 0
      <-> length (Run.passing engine es) = length es).
Proof.
  induction es as [|e es (IH1 & IH2 & IH3 & IH4)]; [by simpl; repeat split; lia|].
  rewrite passing_cons, violations_of_cons, length_app.
  pose proof (validate_entry_length engine e) as Hlen.
  destruct (RuleEngine.validate_entry engine e) as [|v vs]; simpl in *.
  - repeat split; lia.
  - repeat split; lia.
Qed.

(** X20. After any run of a new validator the counters are consistent:
    the entries that passed are at most the entries processed; all of
    them passed exactly when there is no violation; every entry that
    failed accounts for at least one violation, and an entry for at most
    one violation per rule of the catalog. *)
Theorem run_counter_invariants (engine : RuleEngine.t) (on_violation on_entry : bool)
    (w : World) (es : list LogEntry.t) :
  exists results self w',
    Run.run engine on_violation on_entry es w = Some (results, self, w')
    /\ Validator.total_entries self = length es
    /\ Validator._total_passed self <= Validator.total_entries self
    /\ (Validator._total_passed self = Validator.total_entries self
        <-> Validator.total_violations self = 0)
    /\ Validator.total_entries self - Validator._total_passed self
       <= Validator.total_violations self
    /\ Validator.total_violations self
       <= Validator.total_entries self * length (RuleEngine.rules engine).
Proof.
  destruct (run_counters engine on_violation on_entry es w)
    as (results & self & w' & Hrun & He & Hp & Hv).
  destruct (run_list_bounds engine es) as (B1 & B2 & B3 & B4).
  exists results, self, w'. rewrite He, Hp, Hv.
  split; [done|]. split; [done|]. split; [done|]. split; [by rewrite B4|]. done.
Qed.

(** ** Listeners *)

Lemma validate_all_trace es self w a :
  represents self w a ->
  exists results self' w',
    Validator.validate_all self es w = Some (results, self', w')
    /\ trace w'
       = trace w
         ++ concat (Run.events (Validator.rule_engine self) (Validator.on_violation self)
                      (Validator.on_entry self) <$> es).
Proof.
  revert self w a. induction es as [|e es IH]; intros self w a Hrep; simpl.
  - exists [], self, w. split; [done|]. by rewrite app_nil_r.
  - destruct (validate_entry_represents self w a e Hrep)
      as (self1 & w1 & Hrun1 & Hrep1 & Hso1 & Htr1 & _).
    destruct Hso1 as (Heng & Hov & Hoe & _).
    destruct (IH self1 w1 _ Hrep1) as (results & self2 & w2 & Hrun2 & Htr2).
    eexists _, self2, w2.
    unfold mbind, M_bind. rewrite Hrun1. simpl. rewrite Hrun2. simpl.
    split; [done|]. rewrite Htr2, Htr1, Heng, Hov, Hoe.
    unfold Run.events at 2. by rewrite <- !app_assoc.
Qed.

(** X21. The listeners of a run are called in this order and no other:
    entry by entry in arrival order; for an entry, the violation listener
    once per violation in the order of the violation list, then the entry
    listener once with the result.  A listener that is not set is not
    called; creating the validator calls none. *)
Theorem listeners_called_in_order (engine : RuleEngine.t) (on_violation on_entry : bool)
    (w : World) (es : list LogEntry.t) :
  exists results self w',
    Run.run engine on_violation on_entry es w = Some (results, self, w')
    /\ trace w' = trace w ++ concat (Run.events engine on_violation on_entry <$> es).
Proof.
  unfold Run.run.
  destruct (init_represents engine on_violation on_entry w)
    as (self0 & w0 & Hinit & Hrep0 & Heng & Htr0).
  assert (Validator.on_violation self0 = on_violation
          /\ Validator.on_entry self0 = on_entry) as [Hov Hoe].
  { revert Hinit. unfold Validator.__init__, alloc, mbind, M_bind, mret, M_ret.
    simpl. by intros [= <- _]. }
  destruct (validate_all_trace es self0 w0 init Hrep0)
    as (results & self & w' & Hrun & Htr).
  exists results, self, w'. unfold mbind, M_bind. rewrite Hinit. simpl.
  split; [done|]. by rewrite Htr, Htr0, Heng, Hov, Hoe.
Qed.

End RunFacts.

Section ReportExtras.
Context `{!Builtins}.
Import Abstract.

(** ** The counter dictionaries *)

Lemma count_keys_lookup (keys : list string) (k : string) :
  count_keys keys !! k = Run.positive_count (length (filter (fun x => x = k) keys)).
Proof.
  induction keys as [|x keys IH] using rev_ind; [done|].
  rewrite count_keys_snoc, filter_app, length_app. unfold incr.
  rewrite filter_cons, filter_nil.
  destruct (decide (x = k)) as [->|Hne].
  - rewrite lookup_insert_eq, IH. simpl.
    by destruct (length (filter (fun x => x = k) keys)).
  - rewrite lookup_insert_ne by done. rewrite IH. simpl. by rewrite Nat.add_0_r.
Qed.

Lemma filter_fmap_length {A} (f : A -> string) (k : string) (l : list A) :
  length (filter (fun x => x = k) (f <$> l)) = length (filter (fun a => f a = k) l).
Proof.
  induction l as [|a l IH]; [done|].
  rewrite fmap_cons, !filter_cons. destruct (decide (f a = k)); simpl; by rewrite IH.
Qed.

(** X22. In a report taken after a run, [violations_by_rule] maps a rule
    id to the number of violations of the run with that id, and
    [violations_by_severity] maps a severity value to the number of
    violations of that severity; a key without a violation is absent, never
    mapped to zero. *)
Theorem report_counts_by_rule_and_severity (engine : RuleEngine.t)
    (on_violation on_entry : bool) (w : World) (es : list LogEntry.t)
    (now rules_file input_file : string) :
  exists results self w0 r w1 f,
    Run.run engine on_violation on_entry es w = Some (results, self, w0)
    /\ Validator.get_report self now rules_file input_file w0 = Some (Ok r, w1)
    /\ ValidationReport.read w1 r = Some f
    /\ (forall id,
           ValidationReport.f_violations_by_rule f !! id
           = Run.positive_count
               (length (filter (fun v => Violation.rule_id v = id)
                          (Run.violations_of engine es))))
    /\ (forall value,
           ValidationReport.f_violations_by_severity f !! value
           = Run.positive_count
               (length (filter (fun v => Severity.value (Violation.severity v) = value)
                          (Run.violations_of engine es)))).
Proof.
  destruct (run_represents engine on_violation on_entry es w)
    as (results & self & w0 & Hrun & Hrep & _ & _).
  destruct (state_after_fields engine es init) as (He & Hp & Hv & _).
  destruct (get_report_represents self w0 _ now rules_file input_file Hrep)
    as (l1 & l2 & w1 & rate & Hget & _ & Hrep1 & _ & Hl1 & Hl2 & _).
  { rewrite He, Hp. simpl. apply passing_le. }
  set (r := ValidationReport.mk _ _ _ _ _ _ _ _ _ _ _) in Hget.
  pose proof (read_represents self w1 _ r _ _ Hrep1 eq_refl eq_refl Hl1 Hl2) as Hread.
  eexists results, self, w0, r, w1, _.
  split; [done|]. split; [exact Hget|]. split; [exact Hread|]. simpl.
  rewrite Hv. simpl. split.
  - intros id. by rewrite count_keys_lookup, filter_fmap_length.
  - intros value.
    by rewrite count_keys_lookup,
         (filter_fmap_length (fun v => Severity.value (Violation.severity v))).
Qed.

(** ** Robot summaries *)

Lemma state_after_app engine es es' a :
  Run.state_after engine (es ++ es') a
  = Run.state_after engine es' (Run.state_after engine es a).
Proof. unfold Run.state_after. by rewrite fold_left_app. Qed.

Lemma summaries_after engine es robot :
  (map_imap (fun robot '(n, vs) => Some (summary robot n vs))
     (robots (Run.state_after engine es init))
   : gmap string RobotSummary.t) !! robot
  = Run.summary_of engine es robot.
Proof.
  rewrite map_lookup_imap.
  destruct (state_after_fields engine es init) as (_ & _ & _ & Hr).
  rewrite Hr. unfold Run.summary_of.
  destruct (Run.entries_of robot es); [done|].
  simpl. by rewrite lookup_empty.
Qed.

Lemma entries_of_nil_iff robot es :
  Run.entries_of robot es = [] <-> robot ∉ LogEntry.robot_id <$> es.
Proof.
  split.
  - intros Hnil Hin. by apply (entries_of_not_nil robot es Hin).
  - intros Hnot. induction es as [|e es IH]; [done|].
    rewrite entries_of_cons. rewrite fmap_cons, not_elem_of_cons in Hnot.
    destruct Hnot as [Hne Hnot].
    destruct (decide (LogEntry.robot_id e = robot)); [congruence|]. by apply IH.
Qed.

Lemma violations_of_robot_id engine robot es v :
  v ∈ Run.violations_of engine (Run.entries_of robot es) -> Violation.robot_id v = robot.
Proof.
  unfold Run.violations_of. rewrite list_elem_of_In, in_concat.
  intros (vs & Hvs & Hv). apply in_map_iff in Hvs as (e & <- & He).
  apply list_elem_of_In in He, Hv.
  unfold Run.entries_of in He. apply list_elem_of_filter in He as [He _].
  rewrite validate_entry_omap in Hv.
  apply list_elem_of_omap in Hv as (rule & _ & Hv).
  destruct (evaluate_rule_provenance _ _ _ _ Hv) as (_ & _ & _ & _ & _ & Hr & _).
  congruence.
Qed.

(** X23. After any run of a new validator there is a summary for a robot
    exactly when an entry of the run carries its id; the summary counts
    the entries of that robot and holds their violations, all of which
    carry the id of the robot, and its status is fail exactly when it
    holds a violation. *)
Theorem robot_summary_iff_seen (engine : RuleEngine.t) (on_violation on_entry : bool)
    (w : World) (es : list LogEntry.t) :
  exists results self w',
    Run.run engine on_violation on_entry es w = Some (results, self, w')
    /\ forall robot,
        Run.robot_summary self w' robot = Run.summary_of engine es robot
        /\ (Run.robot_summary self w' robot = None <-> robot ∉ LogEntry.robot_id <$> es)
        /\ forall s,
            Run.robot_summary self w' robot = Some s ->
            RobotSummary.robot_id s = robot
            /\ RobotSummary.total_entries s = length (Run.entries_of robot es)
            /\ RobotSummary.violations_count s = length (RobotSummary.violations s)
            /\ (RobotSummary.status s = ValidationStatus.FAIL
                <-> RobotSummary.violations s ≠ [])
            /\ forall v, v ∈ RobotSummary.violations s -> Violation.robot_id v = robot.
Proof.
  destruct (run_represents engine on_violation on_entry es w)
    as (results & self & w' & Hrun & Hrep & _ & _).
  exists results, self, w'. split; [done|]. intros robot.
  assert (Run.robot_summary self w' robot = Run.summary_of engine es robot) as Hsum.
  { destruct Hrep as [_ _ _ _ _ _ _ (sm & Hsm & Hagree)].
    destruct (state_after_fields engine es init) as (_ & _ & _ & Hr).
    pose proof (Hagree robot) as Hrobot. rewrite Hr in Hrobot.
    unfold Run.robot_summary, Run.summary_of, ValidationReport.deref_summary.
    rewrite Hsm. simpl.
    destruct (Run.entries_of robot es) as [|e mine] eqn:Hmine.
    - simpl in Hrobot. rewrite lookup_empty in Hrobot. by destruct (sm !! robot).
    - destruct (sm !! robot) as [l|]; [|done].
      simpl in *. rewrite lookup_empty in Hrobot. simpl in Hrobot. by rewrite Hrobot. }
  rewrite Hsum. split; [done|]. split.
  - rewrite <- entries_of_nil_iff. unfold Run.summary_of.
    by destruct (Run.entries_of robot es).
  - intros s. unfold Run.summary_of.
    destruct (Run.entries_of robot es) as [|e mine] eqn:Hmine; [done|].
    intros [= <-]. simpl. split; [done|]. split; [done|]. split; [done|]. split.
    + by destruct (Run.violations_of engine (e :: mine)).
    + intros v Hv. rewrite <- Hmine in Hv. by eapply violations_of_robot_id.
Qed.

(** ** Reports and later entries *)

(** X24. A report taken after a run and read again after one more entry
    has been validated: its three counters, its pass rate, its two counter
    dictionaries and its three strings read as before, those of the run;
    its violation list and its robot summaries read as those of the run
    with the later entry. *)
Theorem report_after_later_entry (engine : RuleEngine.t) (on_violation on_entry : bool)
    (w : World) (es : list LogEntry.t) (e : LogEntry.t)
    (now rules_file input_file : string) :
  exists results self w0 r w1 result self' w2 before after,
    Run.run engine on_violation on_entry es w = Some (results, self, w0)
    /\ Validator.get_report self now rules_file input_file w0 = Some (Ok r, w1)
    /\ ValidationReport.read w1 r = Some before
    /\ Validator.validate_entry self e w1 = Some (result, self', w2)
    /\ ValidationReport.read w2 r = Some after
    /\ after
       = ValidationReport.mkFields
           (ValidationReport.f_total_entries before)
           (ValidationReport.f_total_passed before)
           (ValidationReport.f_total_violations before)
           (ValidationReport.f_pass_rate before)
           (ValidationReport.f_violations_by_rule before)
           (ValidationReport.f_violations_by_severity before)
           (ValidationReport.f_robot_summaries after)
           (ValidationReport.f_violations after)
           (ValidationReport.f_generated_at before)
           (ValidationReport.f_rules_file before)
           (ValidationReport.f_input_file before)
    /\ ValidationReport.f_total_entries before = length es
    /\ ValidationReport.f_total_violations before = length (Run.violations_of engine es)
    /\ ValidationReport.f_violations before = Run.violations_of engine es
    /\ ValidationReport.f_violations after = Run.violations_of engine (es ++ [e])
    /\ (forall robot,
           ValidationReport.f_robot_summaries before !! robot
           = Run.summary_of engine es robot)
    /\ (forall robot,
           ValidationReport.f_robot_summaries after !! robot
           = Run.summary_of engine (es ++ [e]) robot).
Proof.
  destruct (run_represents engine on_violation on_entry es w)
    as (results & self & w0 & Hrun & Hrep & Heng & _).
  destruct (state_after_fields engine es init) as (He & Hp & Hv & _).
  destruct (report_read_after_later_entry self w0 _ now rules_file input_file e Hrep)
    as (r & w1 & result & self' & w2 & rate & Hget & Hval & Hr1 & Hr2).
  { rewrite He, Hp. simpl. apply passing_le. }
  rewrite Heng in Hr2.
  change (step (LogEntry.robot_id e) (RuleEngine.validate_entry engine e)
            (Run.state_after engine es init))
    with (Run.state_after engine [e] (Run.state_after engine es init)) in Hr2.
  rewrite <- state_after_app in Hr2.
  destruct (state_after_fields engine (es ++ [e]) init) as (_ & _ & Hv' & _).
  eexists results, self, w0, r, w1, result, self', w2, _, _.
  split; [done|]. split; [done|]. split; [exact Hr1|]. split; [done|].
  split; [exact Hr2|]. simpl. rewrite He, Hv, Hv'. simpl.
  split; [done|]. split; [done|]. split; [done|]. split; [done|]. split; [done|].
  split; intros robot; apply summaries_after.
Qed.

(** X25. [get_report] only reads the validator: no listener is called,
    and entries validated after it are accumulated as if no report had
    been taken; the counters are those of one run over all the entries. *)
Theorem get_report_does_not_disturb (engine : RuleEngine.t)
    (on_violation on_entry : bool) (w : World) (es es' : list LogEntry.t)
    (now rules_file input_file : string) :
  exists results self w0 r w1 results' self' w2,
    Run.run engine on_violation on_entry es w = Some (results, self, w0)
    /\ Validator.get_report self now rules_file input_file w0 = Some (Ok r, w1)
    /\ trace w1 = trace w0
    /\ Validator.validate_all self es' w1 = Some (results', self', w2)
    /\ results' = Run.result_of engine <$> es'
    /\ Validator.total_entries self' = length (es ++ es')
    /\ Validator._total_passed self' = length (Run.passing engine (es ++ es'))
    /\ Validator.total_violations self' = length (Run.violations_of engine (es ++ es'))
    /\ Run.all_violations self' w2 = Some (Run.violations_of engine (es ++ es')).
Proof.
  destruct (run_represents engine on_violation on_entry es w)
    as (results & self & w0 & Hrun & Hrep & Heng & _).
  destruct (state_after_fields engine es init) as (He & Hp & Hv & _).
  destruct (get_report_represents self w0 _ now rules_file input_file Hrep)
    as (l1 & l2 & w1 & rate & Hget & _ & Hrep1 & Htr & _).
  { rewrite He, Hp. simpl. apply passing_le. }
  destruct (validate_all_represents es' self w1 _ Hrep1)
    as (results' & self' & w2 & Hall & Hrep2 & _ & Hres).
  rewrite Heng in Hrep2, Hres. rewrite <- state_after_app in Hrep2.
  destruct (state_after_fields engine (es ++ es') init) as (He' & Hp' & Hv' & _).
  destruct Hrep2 as [Re Rp Rv _ _ _ Rall _].
  eexists results, self, w0, _, w1, results', self', w2.
  split; [done|]. split; [exact Hget|]. split; [done|]. split; [done|].
  split; [done|]. unfold Validator.total_entries, Validator.total_violations,
    Run.all_violations.
  rewrite Re, Rp, Rv, Rall, He', Hp', Hv'. done.
Qed.

End ReportExtras.

Section StreamFacts.
Context `{!Builtins}.
Import Abstract.

(** ** The pass rate of a run *)

(** X26. After any run of a new validator [pass_rate] returns a double
    and raises nothing: [100.0] after no entry at all or when every entry
    passed, [0.0] when none did, and in general a double within [2^-42]
    of the percentage of the entries that passed. *)
Theorem pass_rate_after_run (engine : RuleEngine.t) (on_violation on_entry : bool)
    (w : World) (es : list LogEntry.t) :
  exists results self w' r,
    Run.run engine on_violation on_entry es w = Some (results, self, w')
    /\ Validator.pass_rate self = Ok r
    /\ (es = [] -> r = Validator.float_of_Z 100)
    /\ (es ≠ [] ->
        Validator.within_rounding r
          (100 * Z.of_nat (length (Run.passing engine es))) (Z.of_nat (length es)))
    /\ (length (Run.passing engine es) = length es -> r = Validator.float_of_Z 100)
    /\ (es ≠ [] -> Run.passing engine es = [] -> r = S754_zero false).
Proof.
  destruct (run_counters engine on_violation on_entry es w)
    as (results & self & w' & Hrun & He & Hp & _).
  unfold Validator.total_entries in He.
  pose proof (passing_le engine es) as Hle.
  destruct (pass_rate_returns self) as [r Hr]; [lia|].
  exists results, self, w', r. split; [done|]. split; [done|].
  assert (es = [] -> r = Validator.float_of_Z 100) as Hnil.
  { intros ->. revert Hr. unfold Validator.pass_rate. rewrite He. simpl. by intros [= <-]. }
  split; [done|]. split; [|split].
  - intros Hes.
    destruct (pass_rate_error self) as (r' & Hr' & Hclose).
    { rewrite He. by destruct es. }
    { lia. }
    rewrite Hr in Hr'. injection Hr' as <-. by rewrite He, Hp in Hclose.
  - intros Hall. destruct es as [|e es]; [by apply Hnil|].
    revert Hr. unfold Validator.pass_rate. rewrite He, Hp, Hall. simpl length.
    rewrite int_truediv_same by lia. simpl. by intros [= <-].
  - intros Hes Hnone. destruct es as [|e es]; [done|].
    revert Hr. unfold Validator.pass_rate. rewrite He, Hp, Hnone. simpl length.
    rewrite int_truediv_zero by lia. simpl. by intros [= <-].
Qed.

(** ** The stream of results *)

Lemma validate_stream_take n self entries w :
  Validator.validate_stream n self entries w
  = ('(results, self') ← Validator.validate_all self (take n entries);
     mret (results, self', drop n entries)) w.
Proof.
  revert self entries w. induction n as [|n IH]; intros self entries w.
  - by destruct entries.
  - destruct entries as [|e rest]; [done|].
    cbn [Validator.validate_stream Validator.validate_stream_next take drop
         Validator.validate_all].
    unfold mbind, M_bind.
    destruct (Validator.validate_entry self e w) as [[[result self1] w1]|]; [|done].
    simpl. rewrite IH. unfold mbind, M_bind.
    by destruct (Validator.validate_all self1 (take n rest) w1) as [[[results self2] w2]|].
Qed.

(** X27. [validate_stream] is lazy: after [n] results have been requested
    the validator has validated the first [n] entries and no other, and
    the rest of the entries is still to come.  Requesting every result,
    as [validate_all] does, validates all the entries in order. *)
Theorem validate_stream_is_lazy (self : Validator.t) (entries : list LogEntry.t)
    (w : World) :
  (forall n,
      Validator.validate_stream n self entries w
      = ('(results, self') ← Validator.validate_all self (take n entries);
         mret (results, self', drop n entries)) w)
  /\ Validator.validate_stream (length entries) self entries w
     = ('(results, self') ← Validator.validate_all self entries;
        mret (results, self', [])) w
  /\ Validator.validate_stream (S (length entries)) self entries w
     = Validator.validate_stream (length entries) self entries w.
Proof.
  split; [intros n; apply validate_stream_take|].
  rewrite !validate_stream_take.
  rewrite firstn_all, drop_all.
  rewrite take_ge, drop_ge by lia. done.
Qed.

End StreamFacts.

(* ===================================================================== *)
(** * The parser of entries *)
(* ===================================================================== *)

Section ParserFacts.
Context `{!Builtins}.

Lemma from_dict_fields data index e :
  LogEntry.from_dict data index = Some e ->
  LogEntry.raw_data e = data
  /\ LogEntry.index e = index
  /\ Rule.get_str data "timestamp" "" = Some (LogEntry.timestamp e)
  /\ Rule.get_str data "robot_id" "unknown" = Some (LogEntry.robot_id e).
Proof.
  unfold LogEntry.from_dict.
  destruct (Rule.get_str data "timestamp" "") as [ts|]; [|done].
  destruct (Rule.get_str data "robot_id" "unknown") as [rid|]; [|done].
  simpl. by intros [= <-].
Qed.

Lemma parse_entries_from_spec i self entries es self' :
  LogParser.parse_entries_from i self entries = Some (es, self') ->
  Forall2 (fun data e => LogEntry.from_dict data (LogEntry.index e) = Some e) entries es
  /\ LogEntry.index <$> es = Z.of_nat <$> seq i (length entries)
  /\ LogParser._entry_count self' = LogParser._entry_count self + length entries
  /\ LogParser.verbose self' = LogParser.verbose self.
Proof.
  revert i self es self'.
  induction entries as [|data rest IH]; intros i self es self'; simpl.
  - intros [= <- <-]. repeat split; [constructor|lia].
  - destruct (LogEntry.from_dict data (Z.of_nat i)) as [e|] eqn:He; [|done]. simpl.
    destruct (LogParser.parse_entries_from (S i) _ rest) as [[es' self'']|] eqn:Hrest;
      [|done].
    simpl. intros [= <- <-].
    destruct (IH _ _ _ _ Hrest) as (Hall & Hidx & Hcount & Hverb).
    destruct (from_dict_fields _ _ _ He) as (_ & Hi & _).
    repeat split.
    + constructor; [by rewrite Hi|done].
    + by rewrite fmap_cons, Hi, Hidx.
    + rewrite Hcount. simpl. lia.
    + by rewrite Hverb.
Qed.

(** X28. [parse_entries] makes one entry per dictionary, in order: the
    payload of an entry is its dictionary unchanged, its index is its
    position in the list, counted from zero, and the counter of the
    parser grows by the number of dictionaries.  An entry without a
    [robot_id] key belongs to the robot [unknown]. *)
Theorem parse_entries_round_trip (self self' : LogParser.t) (entries : list PyDict)
    (es : list LogEntry.t) :
  LogParser.parse_entries self entries = Some (es, self') ->
  LogEntry.raw_data <$> es = entries
  /\ LogEntry.index <$> es = Z.of_nat <$> seq 0 (length entries)
  /\ LogParser.entries_parsed self' = LogParser.entries_parsed self + length entries
  /\ Forall (fun e =>
               (dict_get (LogEntry.raw_data e) "robot_id" = None ->
                LogEntry.robot_id e = "unknown")
               /\ (forall s, dict_get (LogEntry.raw_data e) "robot_id" = Some (VStr s) ->
                             LogEntry.robot_id e = s)
               /\ (dict_get (LogEntry.raw_data e) "timestamp" = None ->
                   LogEntry.timestamp e = "")
               /\ (forall s, dict_get (LogEntry.raw_data e) "timestamp" = Some (VStr s) ->
                             LogEntry.timestamp e = s)) es.
Proof.
  intros Hparse.
  destruct (parse_entries_from_spec _ _ _ _ _ Hparse) as (Hall & Hidx & Hcount & _).
  split; [|split; [done|split; [done|]]].
  - clear Hidx Hcount Hparse. induction Hall as [|data e ds es He _ IH]; [done|].
    rewrite fmap_cons, IH. f_equal. by destruct (from_dict_fields _ _ _ He).
  - clear Hidx Hcount Hparse. induction Hall as [|data e ds es He _ IH]; constructor; [|done].
    destruct (from_dict_fields _ _ _ He) as (-> & _ & Hts & Hrid).
    unfold Rule.get_str in Hts, Hrid.
    repeat split.
    + intros Hno. rewrite Hno in Hrid. congruence.
    + intros s Hs. rewrite Hs in Hrid. congruence.
    + intros Hno. rewrite Hno in Hts. congruence.
    + intros s Hs. rewrite Hs in Hts. congruence.
Qed.

(** X29. The [log_index] of a violation locates the record it is about:
    over the entries made by [parse_entries], every violation the engine
    finds carries the position, in the list given to the parser, of the
    dictionary that violates the rule. *)
Theorem log_index_locates_record (parser parser' : LogParser.t) (engine : RuleEngine.t)
    (entries : list PyDict) (es : list LogEntry.t) (v : Violation.t) :
  LogParser.parse_entries parser entries = Some (es, parser') ->
  v ∈ Run.violations_of engine es ->
  exists i e,
    Violation.log_index v = Z.of_nat i
    /\ es !! i = Some e
    /\ entries !! i = Some (LogEntry.raw_data e)
    /\ v ∈ RuleEngine.validate_entry engine e.
Proof.
  intros Hparse Hv.
  destruct (parse_entries_from_spec _ _ _ _ _ Hparse) as (Hall & Hidx & _ & _).
  unfold Run.violations_of in Hv. rewrite list_elem_of_In, in_concat in Hv.
  destruct Hv as (vs & Hvs & Hv). apply in_map_iff in Hvs as (e & <- & He).
  apply list_elem_of_In in He, Hv.
  apply list_elem_of_lookup in He as [i Hi].
  exists i, e.
  assert (LogEntry.index e = Z.of_nat i) as Hindex.
  { assert ((LogEntry.index <$> es) !! i = Some (LogEntry.index e)) as Hl
      by (by rewrite list_lookup_fmap, Hi).
    rewrite Hidx, list_lookup_fmap in Hl.
    destruct (seq 0 (length entries) !! i) as [j|] eqn:Hj; [|done].
    apply lookup_seq in Hj as [-> _]. simpl in Hl. congruence. }
  split; [|split; [done|split; [|done]]].
  - rewrite validate_entry_omap in Hv.
    apply list_elem_of_omap in Hv as (rule & _ & Hv).
    destruct (evaluate_rule_provenance _ _ _ _ Hv) as (_ & _ & _ & _ & _ & _ & Hli).
    congruence.
  - destruct (Forall2_lookup_r _ _ _ _ _ Hall Hi) as (data & Hdata & Hfrom).
    rewrite Hdata. f_equal. by destruct (from_dict_fields _ _ _ Hfrom).
Qed.

End ParserFacts.

(* ===================================================================== *)
(** * Reset *)
(* ===================================================================== *)

Section ResetFacts.
Context `{!Builtins}.
Import Abstract.

Lemma init_footprint engine on_violation on_entry w :
  exists self w',
    Validator.__init__ engine on_violation on_entry w = Some (self, w')
    /\ (forall l o, heap w !! l = Some o -> heap w' !! l = Some o)
    /\ (forall l, owned self w' l -> heap w !! l = None).
Proof.
  unfold Validator.__init__, alloc, mbind, M_bind, mret, M_ret. simpl.
  set (h0 := heap w).
  set (l1 := fresh (dom h0)). set (h1 := <[l1 := OCounts ∅]> h0).
  set (l2 := fresh (dom h1)). set (h2 := <[l2 := OCounts ∅]> h1).
  set (l3 := fresh (dom h2)). set (h3 := <[l3 := OSummaries ∅]> h2).
  set (l4 := fresh (dom h3)). set (h4 := <[l4 := OViolations []]> h3).
  assert (l1 ∉ dom h0) as H1 by apply is_fresh.
  assert (l2 ∉ dom h1) as H2 by apply is_fresh.
  assert (l3 ∉ dom h2) as H3 by apply is_fresh.
  assert (l4 ∉ dom h3) as H4 by apply is_fresh.
  assert ((l2 ∉ dom h0) /\ (l3 ∉ dom h0) /\ (l4 ∉ dom h0)) as (H2' & H3' & H4').
  { subst h3 h2 h1. rewrite !dom_insert_L in *. set_solver. }
  eexists _, _. split; [reflexivity|]. simpl. split.
  - intros l o Hl. subst h4 h3 h2 h1. by do 4 apply lookup_alloc.
  - intros l [->|[->|[->|[->|(sm & robot & Hsm & Hr)]]]]; simpl;
      try by apply not_elem_of_dom.
    simpl in Hsm. subst h4.
    assert (l3 ≠ l4) as Hne.
    { intros Heq. apply H4. rewrite <- Heq. subst h3. rewrite dom_insert_L. set_solver. }
    rewrite lookup_insert_ne in Hsm by done. subst h3.
    rewrite lookup_insert_eq in Hsm. injection Hsm as <-.
    by rewrite lookup_empty in Hr.
Qed.

Lemma represents_preserved self w w' a :
  represents self w a ->
  (forall l o, heap w !! l = Some o -> heap w' !! l = Some o) ->
  represents self w' a.
Proof.
  intros [He Hp Hv Hbr Hbs Hne Hall (sm & Hsm & Hagree)] Hkeep.
  constructor; try done; try by apply Hkeep.
  exists sm. split; [by apply Hkeep|].
  intros robot. pose proof (Hagree robot) as Hr.
  destruct (sm !! robot) as [l|], (robots a !! robot) as [[n vs]|]; try done.
  by apply Hkeep.
Qed.

(** The references a validator owns after an entry were its own before
    or were not in use. *)
Lemma validate_entry_owned self w a entry result self' w' :
  represents self w a ->
  Validator.validate_entry self entry w = Some (result, self', w') ->
  forall l, owned self' w' l -> owned self w l \/ heap w !! l = None.
Proof.
  intros Hrep Hrun l Hown.
  destruct (validate_entry_footprint self w a entry Hrep)
    as (self2 & w2 & Hrun2 & _ & Hso & _ & _ & (sm & Hsm & Hsm')).
  rewrite Hrun in Hrun2. injection Hrun2 as _ <- <-.
  destruct Hso as (_ & _ & _ & HBR & HBS & HSS & HAA).
  unfold owned in Hown. rewrite HBR, HBS, HSS, HAA in Hown.
  destruct Hown as [->|[->|[->|[->|(sm2 & robot & Hsm2 & Hr)]]]];
    try (left; unfold owned; tauto).
  rewrite Hsm' in Hsm2. injection Hsm2 as <-.
  destruct (sm !! LogEntry.robot_id entry) as [l0|] eqn:Hl0.
  - left. do 4 right. by exists sm, robot.
  - destruct (decide (robot = LogEntry.robot_id entry)) as [->|Hne].
    + rewrite lookup_insert_eq in Hr. injection Hr as <-.
      right. apply not_elem_of_dom. apply is_fresh.
    + rewrite lookup_insert_ne in Hr by done. left. do 4 right. by exists sm, robot.
Qed.

(** A run of entries leaves alone every object in use that the validator
    does not own. *)
Lemma validate_all_keeps (keep : loc -> Prop) es self w a :
  represents self w a ->
  (forall l, keep l -> is_Some (heap w !! l) /\ ~ owned self w l) ->
  exists results self' w',
    Validator.validate_all self es w = Some (results, self', w')
    /\ represents self' w' (Run.state_after (Validator.rule_engine self) es a)
    /\ results = Run.result_of (Validator.rule_engine self) <$> es
    /\ forall l, keep l -> heap w' !! l = heap w !! l.
Proof.
  revert self w a. induction es as [|e es IH]; intros self w a Hrep Hkeep; simpl.
  - by exists [], self, w.
  - destruct (validate_entry_represents self w a e Hrep)
      as (self1 & w1 & Hrun1 & Hrep1 & Hso1 & _ & Hfr1).
    assert (Validator.rule_engine self1 = Validator.rule_engine self) as Heng by apply Hso1.
    assert (forall l, keep l -> heap w1 !! l = heap w !! l) as Hsame.
    { intros l Hl. destruct (Hkeep l Hl) as [[o Ho] Hnot].
      rewrite Ho. by apply Hfr1. }
    destruct (IH self1 w1 _ Hrep1) as (results & self2 & w2 & Hrun2 & Hrep2 & Hres & Hfr2).
    { intros l Hl. destruct (Hkeep l Hl) as [Hsome Hnot]. split.
      - by rewrite Hsame.
      - intros Hown.
        destruct (validate_entry_owned _ _ _ _ _ _ _ Hrep Hrun1 l Hown) as [?|Hnone];
          [done|].
        rewrite Hnone in Hsome. by destruct Hsome. }
    eexists _, self2, w2.
    unfold mbind, M_bind. rewrite Hrun1. simpl. rewrite Hrun2. simpl.
    split; [done|]. rewrite Heng in Hrep2, Hres.
    split; [done|]. split; [by rewrite Hres|].
    intros l Hl. rewrite Hfr2 by done. by apply Hsame.
Qed.

(** X30. [reset] gives the validator new containers and leaves the old
    ones as they are: a report taken before the reset reads the same after
    the reset and after any entries validated then, and the validator
    counts those entries as a new validator would. *)
Theorem reset_detaches_reports (engine : RuleEngine.t) (on_violation on_entry : bool)
    (w : World) (es es' : list LogEntry.t) (now rules_file input_file : string) :
  exists results self w0 r w1 f self1 w2 results' self2 w3,
    Run.run engine on_violation on_entry es w = Some (results, self, w0)
    /\ Validator.get_report self now rules_file input_file w0 = Some (Ok r, w1)
    /\ ValidationReport.read w1 r = Some f
    /\ Validator.reset self w1 = Some (self1, w2)
    /\ ValidationReport.read w2 r = Some f
    /\ Validator.validate_all self1 es' w2 = Some (results', self2, w3)
    /\ ValidationReport.read w3 r = Some f
    /\ results' = Run.result_of engine <$> es'
    /\ Validator.total_entries self2 = length es'
    /\ Validator._total_passed self2 = length (Run.passing engine es')
    /\ Validator.total_violations self2 = length (Run.violations_of engine es')
    /\ Run.all_violations self2 w3 = Some (Run.violations_of engine es').
Proof.
  destruct (run_represents engine on_violation on_entry es w)
    as (results & self & w0 & Hrun & Hrep & Heng & _).
  destruct (state_after_fields engine es init) as (He & Hp & Hv & _).
  destruct (get_report_represents self w0 _ now rules_file input_file Hrep)
    as (l1 & l2 & w1 & rate & Hget & _ & Hrep1 & _ & Hl1 & Hl2 & _).
  { rewrite He, Hp. simpl. apply passing_le. }
  set (r := ValidationReport.mk _ _ _ _ _ _ _ _ _ _ _) in Hget.
  pose proof (read_represents self w1 _ r _ _ Hrep1 eq_refl eq_refl Hl1 Hl2) as Hread1.
  destruct (reset_represents self w1) as (self1 & w2 & Hreset & Hrep2 & Heng1 & _).
  destruct (init_footprint (Validator.rule_engine self) (Validator.on_violation self)
              (Validator.on_entry self) w1) as (self1' & w2' & Hreset' & Hkeep2 & Hown2).
  change (Validator.__init__ _ _ _ w1) with (Validator.reset self w1) in Hreset'.
  rewrite Hreset in Hreset'. injection Hreset' as <- <-.
  destruct (validate_all_keeps (fun l => is_Some (heap w1 !! l)) es' self1 w2 init Hrep2)
    as (results' & self2 & w3 & Hall & Hrep3 & Hres & Hkeep3).
  { intros l [o Ho]. split.
    - exists o. by apply Hkeep2.
    - intros Hown. rewrite (Hown2 l Hown) in Ho. done. }
  rewrite Heng1, Heng in Hrep3, Hres.
  assert (forall l o, heap w1 !! l = Some o -> heap w3 !! l = Some o) as Hkeep13.
  { intros l o Ho. rewrite Hkeep3 by eauto. by apply Hkeep2. }
  pose proof (read_represents self w2 _ r _ _
                (represents_preserved _ _ _ _ Hrep1 Hkeep2) eq_refl eq_refl
                (Hkeep2 _ _ Hl1) (Hkeep2 _ _ Hl2)) as Hread2.
  pose proof (read_represents self w3 _ r _ _
                (represents_preserved _ _ _ _ Hrep1 Hkeep13) eq_refl eq_refl
                (Hkeep13 _ _ Hl1) (Hkeep13 _ _ Hl2)) as Hread3.
  destruct (state_after_fields engine es' init) as (He' & Hp' & Hv' & _).
  destruct Hrep3 as [Re Rp Rv _ _ _ Rall _].
  eexists results, self, w0, r, w1, _, self1, w2, results', self2, w3.
  split; [done|]. split; [exact Hget|]. split; [exact Hread1|]. split; [done|].
  split; [exact Hread2|]. split; [done|]. split; [exact Hread3|]. split; [done|].
  unfold Validator.total_entries, Validator.total_violations, Run.all_violations.
  rewrite Re, Rp, Rv, Rall, He', Hp', Hv'. done.
Qed.

End ResetFacts.

(* ===================================================================== *)
(** * Witnesses of the further properties *)
(* ===================================================================== *)

Lemma ordering_rule_on_integers_witness :
  RuleEngine.evaluate_rule Sample.engine Sample.battery_min
    (Sample.entry 1 "2024-01-15T08:00:05Z" "ROBOT_001" 15 40)
  = Some (simple_violation Sample.battery_min
            (Sample.entry 1 "2024-01-15T08:00:05Z" "ROBOT_001" 15 40)).
Proof.
  apply (proj2 (proj1 (ordering_rule_on_integers Sample.engine Sample.battery_min
                         (Sample.entry 1 "2024-01-15T08:00:05Z" "ROBOT_001" 15 40) 15 20
                         ltac:(discriminate) eq_refl eq_refl eq_refl) eq_refl)).
  reflexivity.
Defined.

Lemma ordering_rule_type_mismatch_witness :
  RuleEngine.dispatch Sample.engine Sample.battery_min Sample.text_entry = Raise TypeError
  /\ RuleEngine.evaluate_rule Sample.engine Sample.battery_min Sample.text_entry = None.
Proof.
  apply (ordering_rule_type_mismatch Sample.engine Sample.battery_min Sample.text_entry
           "high" (VInt 20)).
  - discriminate.
  - reflexivity.
  - apply list_elem_of_here.
  - discriminate.
  - left. split; reflexivity.
Defined.

Lemma missing_field_is_violation_witness :
  RuleEngine.evaluate_rule Sample.engine Sample.speed_max (Sample.moving_entry 50)
  = Some (simple_violation Sample.speed_max (Sample.moving_entry 50))
  /\ Violation.actual_value (simple_violation Sample.speed_max (Sample.moving_entry 50))
     = VNone.
Proof.
  apply (missing_field_is_violation Sample.engine Sample.speed_max (Sample.moving_entry 50)).
  - discriminate.
  - reflexivity.
  - do 2 apply list_elem_of_further. apply list_elem_of_here.
  - reflexivity.
Defined.

Lemma complementary_operators_witness :
  (RuleEngine.evaluate_rule Sample.engine Sample.state_allowed (Sample.moving_entry 50)
   = None
   <-> RuleEngine.evaluate_rule Sample.engine Sample.state_forbidden (Sample.moving_entry 50)
       = Some (simple_violation Sample.state_forbidden (Sample.moving_entry 50)))
  /\ (RuleEngine.evaluate_rule Sample.engine Sample.state_forbidden (Sample.moving_entry 50)
      = None
      <-> RuleEngine.evaluate_rule Sample.engine Sample.state_allowed (Sample.moving_entry 50)
          = Some (simple_violation Sample.state_allowed (Sample.moving_entry 50))).
Proof.
  apply (complementary_operators Sample.engine Sample.state_allowed Sample.state_forbidden
           (Sample.moving_entry 50)).
  - discriminate.
  - discriminate.
  - reflexivity.
  - reflexivity.
  - reflexivity.
  - reflexivity.
  - left. split; reflexivity.
Defined.

Lemma exists_operator_meaning_witness :
  RuleEngine.evaluate_condition Sample.engine (Sample.moving_entry 50) "speed" "exists"
    (VBool false) = Ok true.
Proof.
  apply (proj1 (proj2 (proj2 (exists_operator_meaning Sample.engine (Sample.moving_entry 50)
                                "speed" eq_refl)))).
  reflexivity.
Defined.

Lemma from_dict_reads_eleven_keys_witness :
  Rule.from_dict Sample.battery_min_dict
  = Rule.from_dict (("treshold", VInt 5) :: Sample.battery_min_dict).
Proof.
  apply (from_dict_reads_eleven_keys Sample.battery_min_dict
           (("treshold", VInt 5) :: Sample.battery_min_dict)).
  intros key Hin. unfold rule_keys in Hin.
  repeat (apply elem_of_cons in Hin as [->|Hin]; [reflexivity|]).
  by apply elem_of_nil in Hin.
Defined.

Lemma rule_without_operator_is_inert_witness :
  Rule.operator (Rule.mk "r1" "r1" "" "" VNone Severity.WARNING "" "" "simple" None None)
  = ""
  /\ RuleEngine.evaluate_rule Sample.engine
       (Rule.mk "r1" "r1" "" "" VNone Severity.WARNING "" "" "simple" None None)
       (Sample.moving_entry 50)
     = None.
Proof.
  apply (rule_without_operator_is_inert Sample.engine [("id", VStr "r1")]).
  - reflexivity.
  - reflexivity.
  - discriminate.
  - reflexivity.
Defined.

Lemma load_rules_from_dict_replaces_witness :
  RuleEngine._operators Sample.engine = RuleEngine._operators RuleEngine.__init__
  /\ (exists rules_data,
         RuleEngine.iterate (default (VList []) (dict_get Sample.rules_document "rules"))
         = Ok rules_data
         /\ Forall2 (fun r rule => RuleEngine.rule_of r = Some (Ok rule))
              rules_data (RuleEngine.rules Sample.engine))
  /\ (forall other,
         RuleEngine.load_rules_from_dict other Sample.rules_document
         = Some (Ok (RuleEngine.mk (RuleEngine.rules Sample.engine)
                       (RuleEngine._operators other)))).
Proof.
  apply (load_rules_from_dict_replaces RuleEngine.__init__ Sample.engine
           Sample.rules_document).
  reflexivity.
Defined.

Lemma load_rules_first_error_witness :
  RuleEngine.load_rules_from_dict Sample.engine Sample.rules_document_without_id
  = Some (Raise (KeyError "id")).
Proof.
  apply (load_rules_first_error Sample.engine Sample.rules_document_without_id
           [VDict Sample.battery_min_dict] [VInt 7] (VDict [("name", VStr "Speed Maximum")])).
  - reflexivity.
  - constructor; [|constructor]. by exists Sample.battery_min.
  - reflexivity.
Defined.

Lemma violation_provenance_witness :
  Violation.log_index
    (simple_violation Sample.battery_min
       (Sample.entry 1 "2024-01-15T08:00:05Z" "ROBOT_001" 15 40)) = 1%Z
  /\ Violation.robot_id
       (simple_violation Sample.battery_min
          (Sample.entry 1 "2024-01-15T08:00:05Z" "ROBOT_001" 15 40)) = "ROBOT_001".
Proof.
  destruct (violation_provenance Sample.engine
              (Sample.entry 1 "2024-01-15T08:00:05Z" "ROBOT_001" 15 40)
              (simple_violation Sample.battery_min
                 (Sample.entry 1 "2024-01-15T08:00:05Z" "ROBOT_001" 15 40)))
    as (_ & _ & Hrobot & Hindex & _).
  - apply list_elem_of_here.
  - split; [exact Hindex|exact Hrobot].
Defined.

Lemma conditional_rule_outcome_witness :
  exists v,
    RuleEngine.evaluate_rule Sample.engine Sample.conditional_test (Sample.moving_entry 5)
    = Some v.
Proof.
  apply (proj1 (conditional_rule_outcome Sample.engine Sample.conditional_test
                  (Sample.moving_entry 5) eq_refl)).
  eexists _, _. repeat split; reflexivity.
Defined.

Lemma parse_entries_round_trip_witness :
  exists es parser,
    LogParser.parse_entries (LogParser.__init__ false) Sample.sample_payloads
    = Some (es, parser)
    /\ LogEntry.raw_data <$> es = Sample.sample_payloads
    /\ LogEntry.index <$> es = [0; 1; 2]%Z
    /\ LogParser.entries_parsed parser = 3
    /\ LogEntry.robot_id <$> es = ["ROBOT_001"; "ROBOT_001"; "unknown"].
Proof.
  eexists _, _. split; [reflexivity|].
  destruct (parse_entries_round_trip (LogParser.__init__ false) _ Sample.sample_payloads _
              eq_refl) as (Hraw & Hidx & Hcount & _).
  split; [exact Hraw|]. split; [exact Hidx|]. split; [exact Hcount|]. reflexivity.
Defined.

Lemma log_index_locates_record_witness :
  exists i e,
    Violation.log_index
      (simple_violation Sample.battery_min
         (Sample.entry 1 "2024-01-15T08:00:05Z" "ROBOT_001" 15 40)) = Z.of_nat i
    /\ take 2 Sample.sample_logs !! i = Some e
    /\ take 2 Sample.sample_payloads !! i = Some (LogEntry.raw_data e)
    /\ simple_violation Sample.battery_min
         (Sample.entry 1 "2024-01-15T08:00:05Z" "ROBOT_001" 15 40)
       ∈ RuleEngine.validate_entry Sample.engine e.
Proof.
  apply (log_index_locates_record (LogParser.__init__ false)
           (LogParser.mk false 2) Sample.engine (take 2 Sample.sample_payloads)
           (take 2 Sample.sample_logs)).
  - reflexivity.
  - apply list_elem_of_here.
Defined.
